(** * importvolume: template-based identifier resolution

    A shallow embedding of [pkg/importer] and [pkg/util] of
    mkimuram/importvolume, together with the library routines they call
    (Go's [os.Expand], [strings.TrimSuffix], apimachinery's [sets.String]
    and [validation.IsDNS1123Subdomain]).

    Go strings are byte sequences and are modelled by [string]; Go maps
    from strings to strings by [gmap string string]; the string set
    [sets.String] by [gset string]. *)

From Stdlib Require Import Ascii String NArith.
From stdpp Require Import base option list strings gmap sorting.

#[local] Set Warnings "-clear-no-such-hyp".
Local Open Scope string_scope.

(** ** Go string primitives *)

(** [s[i:j]] for [i <= j <= len(s)]. *)
Definition slice (s : string) (i j : nat) : string :=
  String.substring i (j - i) s.

(** [s[i:]]. *)
Definition slice_from (s : string) (i : nat) : string :=
  String.substring i (String.length s - i) s.

(** [s[j] == c]; every use in the source is guarded by a bound on [j]. *)
Definition byte_is (s : string) (j : nat) (c : ascii) : bool :=
  bool_decide (String.get j s = Some c).

Definition byte_le (a b : ascii) : bool :=
  (N_of_ascii a <=? N_of_ascii b)%N.

(** ** os.Expand (Go standard library, os/env.go) *)

Definition isShellSpecialVar (c : ascii) : bool :=
  match c with
  | "*" | "#" | "$" | "@" | "!" | "?" | "-"
  | "0" | "1" | "2" | "3" | "4" | "5" | "6" | "7" | "8" | "9" => true
  | _ => false
  end%char.

Definition isAlphaNum (c : ascii) : bool :=
  Ascii.eqb c "_"
  || (byte_le "0" c && byte_le c "9")
  || (byte_le "a" c && byte_le c "z")
  || (byte_le "A" c && byte_le c "Z").

(** [for i := 1; i < len(s); i++ { if s[i] == '}' ... }]: the index of the
    first closing brace of [t = s[i:]], counted from the start of [s]. *)
Fixpoint scanBrace (t : string) (i : nat) : option nat :=
  match t with
  | EmptyString => None
  | String c t' => if Ascii.eqb c "}" then Some i else scanBrace t' (S i)
  end.

(** [for i = 0; i < len(s) && isAlphaNum(s[i]); i++ {}]. *)
Fixpoint scanAlphaNum (t : string) : nat :=
  match t with
  | EmptyString => 0
  | String c t' => if isAlphaNum c then S (scanAlphaNum t') else 0
  end.

(** [getShellName] is only called on a non-empty string. *)
Definition getShellName (s : string) : string * nat :=
  if byte_is s 0 "{" then
    if (2 <? String.length s)%nat
       && from_option isShellSpecialVar false (String.get 1 s)
       && byte_is s 2 "}"
    then (slice s 1 2, 3)
    else
      match scanBrace (slice_from s 1) 1 with
      | Some i => if (i =? 1)%nat then ("", 2) else (slice s 1 i, i + 1)
      | None => ("", 1)
      end
  else if from_option isShellSpecialVar false (String.get 0 s) then
    (slice s 0 1, 1)
  else
    let i := scanAlphaNum s in (slice s 0 i, i).

(** The loop of [Expand].  The mapping is a Go closure that may update
    captured variables; it is modelled as a function that threads a state
    of type [St].  [buf = None] is Go's [nil] buffer. *)
Section Expand.
Context {St : Type}.
Variable mapping : string → St → string * St.

Definition appendBuf (buf : option string) (x : string) : string :=
  from_option id "" buf +:+ x.

Fixpoint ExpandLoop (fuel : nat) (s : string) (i j : nat)
    (buf : option string) (σ : St) : nat * option string * St :=
  match fuel with
  | O => (i, buf, σ)
  | S fuel' =>
    if (j <? String.length s)%nat then
      if byte_is s j "$" && (j + 1 <? String.length s)%nat then
        let buf1 := appendBuf buf (slice s i j) in
        let '(name, w) := getShellName (slice_from s (j + 1)) in
        let '(buf2, σ') :=
          if String.eqb name "" && (0 <? w)%nat then (buf1, σ)
          else if String.eqb name "" then (buf1 +:+ "$", σ)
          else let '(v, σ') := mapping name σ in (buf1 +:+ v, σ') in
        let j' := j + w in
        ExpandLoop fuel' s (j' + 1) (j' + 1) (Some buf2) σ'
      else ExpandLoop fuel' s i (j + 1) buf σ
    else (i, buf, σ)
  end.

Definition Expand (s : string) (σ : St) : string * St :=
  let '(i, buf, σ') := ExpandLoop (S (String.length s)) s 0 0 None σ in
  match buf with
  | None => (s, σ')
  | Some b => (b +:+ slice_from s i, σ')
  end.
End Expand.

(** The mapping that only records the names it is asked for. *)
Definition recordName (k : string) (l : list string) : string * list string :=
  ("", (l ++ [k])%list).

(** The names [Expand] hands to its mapping, in order of occurrence. *)
Definition placeholders (s : string) : list string :=
  (Expand recordName s []).2.


(** ** strings.TrimSuffix, strings.HasPrefix (Go standard library) *)

Definition HasSuffix (s suffix : string) : bool :=
  (String.length suffix <=? String.length s)%nat
  && String.eqb (slice_from s (String.length s - String.length suffix)) suffix.

Definition TrimSuffix (s suffix : string) : string :=
  if HasSuffix s suffix
  then slice s 0 (String.length s - String.length suffix)
  else s.

Definition HasPrefix (s prefix : string) : bool := String.prefix prefix s.

(** The one-byte string ["\n"]. *)
Definition LF : string := String "010"%char "".

(** ** sets.String (k8s.io/apimachinery/pkg/util/sets)

    A [map[string]Empty]; [List] returns the keys in increasing order
    ([sort.Strings], byte-wise comparison). *)

Definition sets_Insert (k : string) (σ : gset string) : gset string :=
  {[ k ]} ∪ σ.

Definition sets_Len (σ : gset string) : nat := size σ.

Definition sets_List (σ : gset string) : list string :=
  merge_sort String.le (elements σ).

(** ** validation.IsDNS1123Subdomain (k8s.io/apimachinery/pkg/util/validation)

    The check is a length bound and a match against the anchored regular
    expression [^[a-z0-9]([-a-z0-9]*[a-z0-9])?(\.[a-z0-9]([-a-z0-9]*[a-z0-9])?)*$].
    Regular expressions are matched by derivatives. *)

Inductive regex : Type :=
  | Void
  | Eps
  | Class (p : ascii → bool)
  | Cat (r1 r2 : regex)
  | Alt (r1 r2 : regex)
  | Star (r : regex).

(** [r?] *)
Definition Opt (r : regex) : regex := Alt r Eps.

Fixpoint nullable (r : regex) : bool :=
  match r with
  | Void => false
  | Eps => true
  | Class _ => false
  | Cat r1 r2 => nullable r1 && nullable r2
  | Alt r1 r2 => nullable r1 || nullable r2
  | Star _ => true
  end.

Fixpoint deriv (c : ascii) (r : regex) : regex :=
  match r with
  | Void => Void
  | Eps => Void
  | Class p => if p c then Eps else Void
  | Cat r1 r2 =>
      Alt (Cat (deriv c r1) r2) (if nullable r1 then deriv c r2 else Void)
  | Alt r1 r2 => Alt (deriv c r1) (deriv c r2)
  | Star r1 => Cat (deriv c r1) (Star r1)
  end.

Fixpoint derivs (s : string) (r : regex) : regex :=
  match s with
  | EmptyString => r
  | String c s' => derivs s' (deriv c r)
  end.

(** [regexp.MustCompile("^" + r + "$").MatchString(s)] *)
Definition MatchString (r : regex) (s : string) : bool :=
  nullable (derivs s r).

(** [[a-z0-9]] and [[-a-z0-9]] *)
Definition lowerAlnum (c : ascii) : bool :=
  (byte_le "a" c && byte_le c "z") || (byte_le "0" c && byte_le c "9").

Definition dashLowerAlnum (c : ascii) : bool :=
  Ascii.eqb c "-" || lowerAlnum c.

Definition dns1123LabelFmt : regex :=
  Cat (Class lowerAlnum)
      (Opt (Cat (Star (Class dashLowerAlnum)) (Class lowerAlnum))).

Definition dns1123SubdomainFmt : regex :=
  Cat dns1123LabelFmt
      (Star (Cat (Class (λ c, Ascii.eqb c ".")) dns1123LabelFmt)).

Definition DNS1123SubdomainMaxLength : nat := 253.

Inductive validationError : Type :=
  | MaxLenError (n : nat)
  | RegexError.

Definition IsDNS1123Subdomain (value : string) : list validationError :=
  ((if (DNS1123SubdomainMaxLength <? String.length value)%nat
    then [MaxLenError DNS1123SubdomainMaxLength] else [])
   ++
   (if negb (MatchString dns1123SubdomainFmt value)
    then [RegexError] else []))%list.

(** Structural properties of regular expressions used to reason about
    whole classes of rejected inputs. *)

(** No string at all is matched. *)
Fixpoint dead (r : regex) : bool :=
  match r with
  | Void => true
  | Eps | Class _ | Star _ => false
  | Cat r1 r2 => dead r1 || dead r2
  | Alt r1 r2 => dead r1 && dead r2
  end.

(** No character class of [r] admits [c]. *)
Fixpoint avoids (c : ascii) (r : regex) : bool :=
  match r with
  | Void | Eps => true
  | Class p => negb (p c)
  | Cat r1 r2 | Alt r1 r2 => avoids c r1 && avoids c r2
  | Star r1 => avoids c r1
  end.

(** No matched string ends with [c]. *)
Fixpoint noTrailing (c : ascii) (r : regex) : bool :=
  match r with
  | Void | Eps => true
  | Class p => negb (p c)
  | Cat r1 r2 => noTrailing c r2 && (negb (nullable r2) || noTrailing c r1)
  | Alt r1 r2 => noTrailing c r1 && noTrailing c r2
  | Star r1 => noTrailing c r1
  end.


(** ** Kubernetes objects (the fields the program reads or writes) *)

(** [resource.Quantity], by its canonical text; the zero value prints ["0"]. *)
Definition Quantity : Type := string.
Definition zeroQuantity : Quantity := "0".

Record SecretReference : Type := {
  sr_Namespace : string;
  sr_Name : string
}.

Record PersistentVolumeClaim : Type := {
  pvc_Name : string;
  pvc_Namespace : string;
  pvc_Annotations : gmap string string;
  pvc_StorageClassName : option string;      (* Spec.StorageClassName, a pointer *)
  pvc_AccessModes : list string;             (* Spec.AccessModes *)
  pvc_Requests : gmap string Quantity;       (* Spec.Resources.Requests *)
  pvc_VolumeMode : option string             (* Spec.VolumeMode, a pointer *)
}.

Record StorageClass : Type := {
  sc_Provisioner : string;
  sc_Parameters : gmap string string
}.

Record ObjectReference : Type := {
  ref_Kind : string;
  ref_APIVersion : string;
  ref_Namespace : string;
  ref_Name : string
}.

Record PersistentVolume : Type := {
  pv_Name : string;
  pv_Annotations : gmap string string;
  pv_StorageClassName : string;
  pv_Capacity : gmap string Quantity;
  pv_AccessModes : list string;
  pv_ClaimRef : ObjectReference;
  csi_Driver : string;
  csi_VolumeHandle : string;
  csi_ControllerPublishSecretRef : option SecretReference;
  csi_NodeStageSecretRef : option SecretReference;
  csi_NodePublishSecretRef : option SecretReference;
  csi_ControllerExpandSecretRef : option SecretReference;
  csi_VolumeAttributes : gmap string string;
  csi_FSType : string;
  csi_ReadOnly : bool
}.

Definition ResourceStorage : string := "storage".
Definition PersistentVolumeBlock : string := "Block".
Definition PersistentVolumeFilesystem : string := "Filesystem".

(** ** Errors and results *)

Inductive error : Type :=
  (** an error value produced by a collaborator (file system, API server) *)
  | ErrExternal (msg : string)
  (** ["failed to parse file %q: %v"] *)
  | ErrParseFile (file : string) (err : error)
  (** ["failed to get StorageClass %q: %v"] *)
  | ErrGetStorageClass (name : string) (err : error)
  (** ["resource type is not PersistentVolumeClaim: %s"] *)
  | ErrNotPVC (file : string)
  (** ["invalid tokens: %q"] *)
  | ErrInvalidTokens (missing : list string)
  (** ["only namespace or name is found for secret, namespace %q, name %q: %v"] *)
  | ErrOnlyNsOrName (nsTempl nameTempl : string) (scParams : gmap string string)
  (** ["%q is resolved to %q, but is not a valid dns name"] *)
  | ErrNotDNSName (template resolved : string).

(** A Go [(value, error)] return; [Panic] is a run-time panic (a nil
    pointer dereference). *)
Inductive result (A : Type) : Type :=
  | Ok (a : A)
  | Err (e : error)
  | Panic.
Arguments Ok {A} a.
Arguments Err {A} e.
Arguments Panic {A}.

#[global] Instance result_ret : MRet result := λ A a, Ok a.
#[global] Instance result_bind : MBind result := λ A B f m,
  match m with
  | Ok a => f a
  | Err e => Err e
  | Panic => Panic
  end.
#[global] Instance result_fmap : FMap result := λ A B f m,
  match m with
  | Ok a => Ok (f a)
  | Err e => Err e
  | Panic => Panic
  end.

(** [v, ok := m[k]]: the zero value [""] when the key is absent. *)
Definition mapIndex (m : gmap string string) (k : string) : string * bool :=
  match m !! k with
  | Some v => (v, true)
  | None => ("", false)
  end.

(** ** Package util *)

Inductive secretType : Type :=
  | ProvisionerSecret
  | ControllerPublishSecret
  | NodeStageSecret
  | NodePublishSecret
  | ControllerExpandSecret.

Definition tokenPVNameKey : string := "pv.name".
Definition tokenPVCNameKey : string := "pvc.name".
Definition tokenPVCNamespaceKey : string := "pvc.namespace".

Definition nsKey (sType : secretType) : string :=
  match sType with
  | ProvisionerSecret => "csi.storage.k8s.io/provisioner-secret-namespace"
  | ControllerPublishSecret => "csi.storage.k8s.io/controller-publish-secret-namespace"
  | NodeStageSecret => "csi.storage.k8s.io/node-stage-secret-namespace"
  | NodePublishSecret => "csi.storage.k8s.io/node-publish-secret-namespace"
  | ControllerExpandSecret => "csi.storage.k8s.io/controller-expand-secret-namespace"
  end.

Definition deprecatedNsKey (sType : secretType) : string :=
  match sType with
  | ProvisionerSecret => "provisioner-secret-namespace"
  | ControllerPublishSecret => "controller-publish-secret-namespace"
  | NodeStageSecret => "node-stage-secret-namespace"
  | NodePublishSecret => "node-publish-secret-namespace"
  | ControllerExpandSecret => "controller-expand-secret-namespace"
  end.

Definition nameKey (sType : secretType) : string :=
  match sType with
  | ProvisionerSecret => "csi.storage.k8s.io/provisioner-secret-name"
  | ControllerPublishSecret => "csi.storage.k8s.io/controller-publish-secret-name"
  | NodeStageSecret => "csi.storage.k8s.io/node-stage-secret-name"
  | NodePublishSecret => "csi.storage.k8s.io/node-publish-secret-name"
  | ControllerExpandSecret => "csi.storage.k8s.io/controller-expand-secret-name"
  end.

Definition deprecatedNameKey (sType : secretType) : string :=
  match sType with
  | ProvisionerSecret => "provisioner-secret-name"
  | ControllerPublishSecret => "controller-publish-secret-name"
  | NodeStageSecret => "node-stage-secret-name"
  | NodePublishSecret => "node-publish-secret-name"
  | ControllerExpandSecret => "controller-expand-secret-name"
  end.

(** [if v, ok = scParams[key]; !ok { v, ok = scParams[deprecatedKey] }] *)
Definition lookupWithAlias (scParams : gmap string string)
    (key deprecatedKey : string) : string * bool :=
  let '(v, ok) := mapIndex scParams key in
  if negb ok then mapIndex scParams deprecatedKey else (v, ok).

Definition getSecretTemplate (scParams : gmap string string)
    (sType : secretType) : result (string * string) :=
  let '(nsTempl, nsOK) :=
    lookupWithAlias scParams (nsKey sType) (deprecatedNsKey sType) in
  let '(nameTempl, nameOK) :=
    lookupWithAlias scParams (nameKey sType) (deprecatedNameKey sType) in
  if negb (Bool.eqb nsOK nameOK) then
    Err (ErrOnlyNsOrName nsTempl nameTempl scParams)
  else if negb nsOK && negb nameOK then
    Ok ("", "")
  else
    Ok (nsTempl, nameTempl).

(** The key under which [resolveTemplate] stores annotation [k]. *)
Definition annotationToken (k : string) : string :=
  "pvc.annotations['" +:+ k +:+ "']".

(** The [params] map built at the start of [resolveTemplate]. *)
Definition templateParams (pvName : string) (pvc : PersistentVolumeClaim)
    (isName : bool) : gmap string string :=
  let params : gmap string string :=
    <[tokenPVCNamespaceKey := pvc_Namespace pvc]>
      (<[tokenPVNameKey := pvName]> ∅) in
  if isName then
    let params := <[tokenPVCNameKey := pvc_Name pvc]> params in
    map_fold (λ k v acc, <[annotationToken k := v]> acc)
             params (pvc_Annotations pvc)
  else params.

(** The closure handed to [os.Expand] by [resolveTemplate] and
    [genVolumeHandle]; the state is the captured [missingParams] set. *)
Definition lookupOrMissing (params : gmap string string) (k : string)
    (missingParams : gset string) : string * gset string :=
  let '(v, ok) := mapIndex params k in
  if negb ok then (v, sets_Insert k missingParams) else (v, missingParams).

Definition resolveTemplate (template pvName : string)
    (pvc : PersistentVolumeClaim) (isName : bool) : result string :=
  let params := templateParams pvName pvc isName in
  let '(resolved, missingParams) :=
    Expand (lookupOrMissing params) template ∅ in
  if (0 <? sets_Len missingParams)%nat then
    Err (ErrInvalidTokens (sets_List missingParams))
  else if (0 <? length (IsDNS1123Subdomain resolved))%nat then
    Err (ErrNotDNSName template resolved)
  else Ok resolved.

Definition GetSecret (scParams : gmap string string) (sType : secretType)
    (pvName : string) (pvc : PersistentVolumeClaim)
    : result (option SecretReference) :=
  '(nsTempl, nameTempl) ← getSecretTemplate scParams sType;
  if String.eqb nsTempl "" || String.eqb nameTempl "" then Ok None
  else
    ns ← resolveTemplate nsTempl pvName pvc false;
    name ← resolveTemplate nameTempl pvName pvc true;
    Ok (Some {| sr_Namespace := ns; sr_Name := name |}).


(** ** Package importer *)

Definition pvPrefix : string := "pv-".
Definition tokenFsTypeKey : string := "csi.storage.k8s.io/fsType".
Definition csiParameterPrefix : string := "csi.storage.k8s.io/".

(** What [scheme.Codecs.UniversalDeserializer().Decode] can return. *)
Inductive Object : Type :=
  | ObjPersistentVolumeClaim (o : PersistentVolumeClaim)
  | ObjOther (kind : string).

(** The collaborators of the importer: the local file system, the
    deserializer, Go's [path.Join], and the cluster's API server. *)
Record World : Type := {
  BuildConfigFromFlags : string → result string;
  NewForConfig : string → result unit;
  ReadFile : string → result string;
  Decode : string → result Object;
  path_Join : string → string → string;
  StorageClasses_Get : string → result StorageClass;
  PersistentVolumes_Create : PersistentVolume → result unit;
  PersistentVolumeClaims_Create :
    string → PersistentVolumeClaim → result unit
}.

(** The create requests sent to the API server, oldest first. *)
Inductive Call : Type :=
  | CreatePV (pv : PersistentVolume)
  | CreatePVC (ns : string) (claim : PersistentVolumeClaim).

Record VolumeImporter : Type := {
  namespace : string;
  templatePath : string;
  importParams : gmap string string;
  pvc : PersistentVolumeClaim;
  sc : StorageClass;
  pvName : string;
  volumeHandle : string;
  capacity : Quantity;
  attributes : gmap string string;
  readOnly : bool;
  volumeMode : option string;
  fsType : string;
  controllerPublishSecret : option SecretReference;
  nodeStageSecret : option SecretReference;
  nodePublishSecret : option SecretReference;
  controllerExpandSecret : option SecretReference
}.

(** Field assignments [v.f = x]. *)
Definition set_pvName (x : string) (v : VolumeImporter) : VolumeImporter :=
  {| namespace := namespace v;
     templatePath := templatePath v;
     importParams := importParams v;
     pvc := pvc v;
     sc := sc v;
     pvName := x;
     volumeHandle := volumeHandle v;
     capacity := capacity v;
     attributes := attributes v;
     readOnly := readOnly v;
     volumeMode := volumeMode v;
     fsType := fsType v;
     controllerPublishSecret := controllerPublishSecret v;
     nodeStageSecret := nodeStageSecret v;
     nodePublishSecret := nodePublishSecret v;
     controllerExpandSecret := controllerExpandSecret v |}.

Definition set_volumeHandle (x : string) (v : VolumeImporter) : VolumeImporter :=
  {| namespace := namespace v;
     templatePath := templatePath v;
     importParams := importParams v;
     pvc := pvc v;
     sc := sc v;
     pvName := pvName v;
     volumeHandle := x;
     capacity := capacity v;
     attributes := attributes v;
     readOnly := readOnly v;
     volumeMode := volumeMode v;
     fsType := fsType v;
     controllerPublishSecret := controllerPublishSecret v;
     nodeStageSecret := nodeStageSecret v;
     nodePublishSecret := nodePublishSecret v;
     controllerExpandSecret := controllerExpandSecret v |}.

Definition set_capacity (x : Quantity) (v : VolumeImporter) : VolumeImporter :=
  {| namespace := namespace v;
     templatePath := templatePath v;
     importParams := importParams v;
     pvc := pvc v;
     sc := sc v;
     pvName := pvName v;
     volumeHandle := volumeHandle v;
     capacity := x;
     attributes := attributes v;
     readOnly := readOnly v;
     volumeMode := volumeMode v;
     fsType := fsType v;
     controllerPublishSecret := controllerPublishSecret v;
     nodeStageSecret := nodeStageSecret v;
     nodePublishSecret := nodePublishSecret v;
     controllerExpandSecret := controllerExpandSecret v |}.

Definition set_attributes (x : gmap string string) (v : VolumeImporter) : VolumeImporter :=
  {| namespace := namespace v;
     templatePath := templatePath v;
     importParams := importParams v;
     pvc := pvc v;
     sc := sc v;
     pvName := pvName v;
     volumeHandle := volumeHandle v;
     capacity := capacity v;
     attributes := x;
     readOnly := readOnly v;
     volumeMode := volumeMode v;
     fsType := fsType v;
     controllerPublishSecret := controllerPublishSecret v;
     nodeStageSecret := nodeStageSecret v;
     nodePublishSecret := nodePublishSecret v;
     controllerExpandSecret := controllerExpandSecret v |}.

Definition set_readOnly (x : bool) (v : VolumeImporter) : VolumeImporter :=
  {| namespace := namespace v;
     templatePath := templatePath v;
     importParams := importParams v;
     pvc := pvc v;
     sc := sc v;
     pvName := pvName v;
     volumeHandle := volumeHandle v;
     capacity := capacity v;
     attributes := attributes v;
     readOnly := x;
     volumeMode := volumeMode v;
     fsType := fsType v;
     controllerPublishSecret := controllerPublishSecret v;
     nodeStageSecret := nodeStageSecret v;
     nodePublishSecret := nodePublishSecret v;
     controllerExpandSecret := controllerExpandSecret v |}.

Definition set_volumeMode (x : option string) (v : VolumeImporter) : VolumeImporter :=
  {| namespace := namespace v;
     templatePath := templatePath v;
     importParams := importParams v;
     pvc := pvc v;
     sc := sc v;
     pvName := pvName v;
     volumeHandle := volumeHandle v;
     capacity := capacity v;
     attributes := attributes v;
     readOnly := readOnly v;
     volumeMode := x;
     fsType := fsType v;
     controllerPublishSecret := controllerPublishSecret v;
     nodeStageSecret := nodeStageSecret v;
     nodePublishSecret := nodePublishSecret v;
     controllerExpandSecret := controllerExpandSecret v |}.

Definition set_fsType (x : string) (v : VolumeImporter) : VolumeImporter :=
  {| namespace := namespace v;
     templatePath := templatePath v;
     importParams := importParams v;
     pvc := pvc v;
     sc := sc v;
     pvName := pvName v;
     volumeHandle := volumeHandle v;
     capacity := capacity v;
     attributes := attributes v;
     readOnly := readOnly v;
     volumeMode := volumeMode v;
     fsType := x;
     controllerPublishSecret := controllerPublishSecret v;
     nodeStageSecret := nodeStageSecret v;
     nodePublishSecret := nodePublishSecret v;
     controllerExpandSecret := controllerExpandSecret v |}.

Definition set_controllerPublishSecret (x : option SecretReference) (v : VolumeImporter) : VolumeImporter :=
  {| namespace := namespace v;
     templatePath := templatePath v;
     importParams := importParams v;
     pvc := pvc v;
     sc := sc v;
     pvName := pvName v;
     volumeHandle := volumeHandle v;
     capacity := capacity v;
     attributes := attributes v;
     readOnly := readOnly v;
     volumeMode := volumeMode v;
     fsType := fsType v;
     controllerPublishSecret := x;
     nodeStageSecret := nodeStageSecret v;
     nodePublishSecret := nodePublishSecret v;
     controllerExpandSecret := controllerExpandSecret v |}.

Definition set_nodeStageSecret (x : option SecretReference) (v : VolumeImporter) : VolumeImporter :=
  {| namespace := namespace v;
     templatePath := templatePath v;
     importParams := importParams v;
     pvc := pvc v;
     sc := sc v;
     pvName := pvName v;
     volumeHandle := volumeHandle v;
     capacity := capacity v;
     attributes := attributes v;
     readOnly := readOnly v;
     volumeMode := volumeMode v;
     fsType := fsType v;
     controllerPublishSecret := controllerPublishSecret v;
     nodeStageSecret := x;
     nodePublishSecret := nodePublishSecret v;
     controllerExpandSecret := controllerExpandSecret v |}.

Definition set_nodePublishSecret (x : option SecretReference) (v : VolumeImporter) : VolumeImporter :=
  {| namespace := namespace v;
     templatePath := templatePath v;
     importParams := importParams v;
     pvc := pvc v;
     sc := sc v;
     pvName := pvName v;
     volumeHandle := volumeHandle v;
     capacity := capacity v;
     attributes := attributes v;
     readOnly := readOnly v;
     volumeMode := volumeMode v;
     fsType := fsType v;
     controllerPublishSecret := controllerPublishSecret v;
     nodeStageSecret := nodeStageSecret v;
     nodePublishSecret := x;
     controllerExpandSecret := controllerExpandSecret v |}.

Definition set_controllerExpandSecret (x : option SecretReference) (v : VolumeImporter) : VolumeImporter :=
  {| namespace := namespace v;
     templatePath := templatePath v;
     importParams := importParams v;
     pvc := pvc v;
     sc := sc v;
     pvName := pvName v;
     volumeHandle := volumeHandle v;
     capacity := capacity v;
     attributes := attributes v;
     readOnly := readOnly v;
     volumeMode := volumeMode v;
     fsType := fsType v;
     controllerPublishSecret := controllerPublishSecret v;
     nodeStageSecret := nodeStageSecret v;
     nodePublishSecret := nodePublishSecret v;
     controllerExpandSecret := x |}.

(** [v.pvc.Namespace = ns] *)
Definition set_pvc_Namespace (ns : string) (o : PersistentVolumeClaim)
    : PersistentVolumeClaim :=
  {| pvc_Name := pvc_Name o;
     pvc_Namespace := ns;
     pvc_Annotations := pvc_Annotations o;
     pvc_StorageClassName := pvc_StorageClassName o;
     pvc_AccessModes := pvc_AccessModes o;
     pvc_Requests := pvc_Requests o;
     pvc_VolumeMode := pvc_VolumeMode o |}.

Section Importer.
Variable w : World.

Definition parsePVCfile (file : string) : result PersistentVolumeClaim :=
  f ← ReadFile w file;
  obj ← Decode w f;
  match obj with
  | ObjPersistentVolumeClaim o => Ok o
  | ObjOther _ => Err (ErrNotPVC file)
  end.

Definition genVolumeHandle (v : VolumeImporter) : result string :=
  template ← ReadFile w (path_Join w (templatePath v) (sc_Provisioner (sc v)));
  let '(volumeHandle, missingParams) :=
    Expand (lookupOrMissing (importParams v)) (TrimSuffix template LF) ∅ in
  if (0 <? sets_Len missingParams)%nat then
    Err (ErrInvalidTokens (sets_List missingParams))
  else Ok volumeHandle.

(** [setSecret] assigns each field from the pointer [GetSecret] returns
    ([nil] on error) and stops at the first error.  The result is the
    updated importer and the returned error. *)
Definition assignSecret (r : result (option SecretReference))
    : option SecretReference * result unit :=
  match r with
  | Ok s => (s, Ok ())
  | Err e => (None, Err e)
  | Panic => (None, Panic)
  end.

Definition setSecret (v : VolumeImporter) : VolumeImporter * result unit :=
  let get sType := assignSecret
    (GetSecret (sc_Parameters (sc v)) sType (pvName v) (pvc v)) in
  let '(s, err) := get ControllerPublishSecret in
  let v := set_controllerPublishSecret s v in
  if err is Ok _ then
    let '(s, err) := get NodeStageSecret in
    let v := set_nodeStageSecret s v in
    if err is Ok _ then
      let '(s, err) := get NodePublishSecret in
      let v := set_nodePublishSecret s v in
      if err is Ok _ then
        let '(s, err) := get ControllerExpandSecret in
        let v := set_controllerExpandSecret s v in
        if err is Ok _ then (v, Ok ()) else (v, err)
      else (v, err)
    else (v, err)
  else (v, err).

Definition genFsType (v : VolumeImporter) : string :=
  if bool_decide (volumeMode v = Some PersistentVolumeBlock) then ""
  else
    let '(fsType, ok) := mapIndex (sc_Parameters (sc v)) tokenFsTypeKey in
    if ok then fsType else "".

Definition genAttributes (v : VolumeImporter) : gmap string string :=
  filter (λ kv, HasPrefix kv.1 csiParameterPrefix = false)
         (sc_Parameters (sc v)).

Definition NewVolumeImporter (kubeconfig ns file : string)
    (importParams : gmap string string) (templatePath : string)
    : result VolumeImporter :=
  config ← BuildConfigFromFlags w kubeconfig;
  _ ← NewForConfig w config;
  match parsePVCfile file with
  | Panic => Panic
  | Err err => Err (ErrParseFile file err)
  | Ok pvc =>
    let pvc := set_pvc_Namespace ns pvc in
    match pvc_StorageClassName pvc with
    | None => Panic
    | Some scName =>
      match StorageClasses_Get w scName with
      | Panic => Panic
      | Err err => Err (ErrGetStorageClass scName err)
      | Ok sc =>
        let v :=
          {| namespace := ns;
             templatePath := templatePath;
             importParams := importParams;
             pvc := pvc;
             sc := sc;
             pvName := "";
             volumeHandle := "";
             capacity := zeroQuantity;
             attributes := ∅;
             readOnly := false;
             volumeMode := None;
             fsType := "";
             controllerPublishSecret := None;
             nodeStageSecret := None;
             nodePublishSecret := None;
             controllerExpandSecret := None |} in
        let v := set_pvName (pvPrefix +:+ pvc_Name pvc) v in
        let v := set_capacity
          (default zeroQuantity (pvc_Requests pvc !! ResourceStorage)) v in
        h ← genVolumeHandle v;
        let v := set_volumeHandle h v in
        (* [v.setSecret()]: the returned error is not looked at *)
        match setSecret v with
        | (_, Panic) => Panic
        | (v, _) =>
          let v := set_readOnly false v in
          let v := set_volumeMode (pvc_VolumeMode pvc) v in
          let v := set_fsType (genFsType v) v in
          let v := set_attributes (genAttributes v) v in
          Ok v
        end
      end
    end
  end.

(** [*v.pvc.Spec.StorageClassName] panics on a nil pointer. *)
Definition createPV (v : VolumeImporter) (calls : list Call)
    : result unit * list Call :=
  match pvc_StorageClassName (pvc v) with
  | None => (Panic, calls)
  | Some scName =>
    let pv :=
      {| pv_Name := pvName v;
         pv_Annotations :=
           {[ "pv.kubernetes.io/provisioned-by" := sc_Provisioner (sc v) ]};
         pv_StorageClassName := scName;
         pv_Capacity := {[ ResourceStorage := capacity v ]};
         pv_AccessModes := pvc_AccessModes (pvc v);
         pv_ClaimRef :=
           {| ref_Kind := "PersistentVolumeClaim";
              ref_APIVersion := "v1";
              ref_Namespace := pvc_Namespace (pvc v);
              ref_Name := pvc_Name (pvc v) |};
         csi_Driver := sc_Provisioner (sc v);
         csi_VolumeHandle := volumeHandle v;
         csi_ControllerPublishSecretRef := controllerPublishSecret v;
         csi_NodeStageSecretRef := nodeStageSecret v;
         csi_NodePublishSecretRef := nodePublishSecret v;
         csi_ControllerExpandSecretRef := controllerExpandSecret v;
         csi_VolumeAttributes := attributes v;
         csi_FSType := fsType v;
         csi_ReadOnly := readOnly v |} in
    (PersistentVolumes_Create w pv, (calls ++ [CreatePV pv])%list)
  end.

Definition createPVC (v : VolumeImporter) (calls : list Call)
    : result unit * list Call :=
  (PersistentVolumeClaims_Create w (namespace v) (pvc v),
   (calls ++ [CreatePVC (namespace v) (pvc v)])%list).

Definition Import (v : VolumeImporter) (calls : list Call)
    : result unit * list Call :=
  match createPV v calls with
  | (Ok _, calls) =>
    match createPVC v calls with
    | (Ok _, calls) => (Ok (), calls)
    | (err, calls) => (err, calls)
    end
  | (err, calls) => (err, calls)
  end.

(** [main]: the exit status and the create requests that were sent.
    A panic ends the process with status 2. *)
Definition main (kubeconfig ns file : string)
    (importParams : gmap string string) (templatePath : string)
    : nat * list Call :=
  match NewVolumeImporter kubeconfig ns file importParams templatePath with
  | Panic => (2, [])
  | Err _ => (1, [])
  | Ok v =>
    match Import v [] with
    | (Ok _, calls) => (0, calls)
    | (Err _, calls) => (1, calls)
    | (Panic, calls) => (2, calls)
    end
  end.
End Importer.

(** ** Notions used to state the properties *)

(** Placeholders of [t] that have no entry in [params], in order of
    occurrence, with repetitions. *)
Definition uncovered (params : gmap string string) (t : string) : list string :=
  filter (λ k, params !! k = None) (placeholders t).

(** The distinct uncovered placeholder names in increasing order. *)
Definition missingTokens (params : gmap string string) (t : string)
    : list string :=
  merge_sort String.le (remove_dups (uncovered params t)).

(** A field is configured when its canonical key or its deprecated alias
    is present in the storage-class parameters. *)
Definition configured (scParams : gmap string string)
    (key deprecatedKey : string) : bool :=
  bool_decide (is_Some (scParams !! key))
  || bool_decide (is_Some (scParams !! deprecatedKey)).

Definition nsConfigured (scParams : gmap string string) (sType : secretType)
    : bool :=
  configured scParams (nsKey sType) (deprecatedNsKey sType).

Definition nameConfigured (scParams : gmap string string) (sType : secretType)
    : bool :=
  configured scParams (nameKey sType) (deprecatedNameKey sType).

(** Some byte of [s] satisfies [p]. *)
Fixpoint anyByte (p : ascii → bool) (s : string) : bool :=
  match s with
  | EmptyString => false
  | String c s' => p c || anyByte p s'
  end.

Definition firstByte (s : string) : option ascii :=
  match s with
  | EmptyString => None
  | String c _ => Some c
  end.

Fixpoint lastByte (s : string) : option ascii :=
  match s with
  | EmptyString => None
  | String c EmptyString => Some c
  | String _ s' => lastByte s'
  end.

Definition isUpper (c : ascii) : bool := byte_le "A" c && byte_le c "Z".

(** Following the specification's data model: [t] contains a placeholder
    of the form [${name}], that is, the bytes [${], then a non-empty name
    without a closing brace, then [}]. *)
Fixpoint hasBracePlaceholder (t : string) : bool :=
  match t with
  | EmptyString => false
  | String c t' =>
      (Ascii.eqb c "$"
       && match t' with
          | String "{" body =>
              match scanBrace body 0 with
              | Some (S _) => true
              | _ => false
              end
          | _ => false
          end)
      || hasBracePlaceholder t'
  end.

(** A byte after which [$] begins a name or a brace expression. *)
Definition startsName (c : ascii) : bool :=
  Ascii.eqb c "{" || isShellSpecialVar c || isAlphaNum c.

(** Every [$] of [t] is its last byte or is followed by a byte that begins
    neither a name nor a brace expression. *)
Fixpoint inert (t : string) : bool :=
  match t with
  | EmptyString => true
  | String c t' =>
      (if Ascii.eqb c "$"
       then match t' with
            | EmptyString => true
            | String c' _ => negb (startsName c')
            end
       else true)
      && inert t'
  end.

(** ** Sample inputs *)

Definition claimFoo : PersistentVolumeClaim :=
  {| pvc_Name := "foo";
     pvc_Namespace := "ns1";
     pvc_Annotations := {[ "team" := "platform" ]};
     pvc_StorageClassName := Some "fast";
     pvc_AccessModes := ["ReadWriteOnce"];
     pvc_Requests := {[ "storage" := "10Gi" ]};
     pvc_VolumeMode := None |}.

Definition claimBare : PersistentVolumeClaim :=
  {| pvc_Name := "foo";
     pvc_Namespace := "ns1";
     pvc_Annotations := ∅;
     pvc_StorageClassName := Some "fast";
     pvc_AccessModes := ["ReadWriteOnce"];
     pvc_Requests := {[ "storage" := "10Gi" ]};
     pvc_VolumeMode := None |}.

(** An importer for [claimFoo] before any field is derived. *)
Definition sampleImporter (params : gmap string string) : VolumeImporter :=
  {| namespace := "ns1";
     templatePath := "config";
     importParams := params;
     pvc := claimFoo;
     sc := {| sc_Provisioner := "csi.example.com"; sc_Parameters := ∅ |};
     pvName := "pv-foo";
     volumeHandle := "";
     capacity := zeroQuantity;
     attributes := ∅;
     readOnly := false;
     volumeMode := None;
     fsType := "";
     controllerPublishSecret := None;
     nodeStageSecret := None;
     nodePublishSecret := None;
     controllerExpandSecret := None |}.

(** Storage-class parameters that configure the namespace of the
    controller-publish secret but not its name. *)
Definition onlyNamespaceParams : gmap string string :=
  {[ "csi.storage.k8s.io/controller-publish-secret-namespace" := "default" ]}.

(** Storage-class parameters whose node-stage secret name refers to a claim
    annotation. *)
Definition annotatedNameParams : gmap string string :=
  {[ "csi.storage.k8s.io/node-stage-secret-namespace" := "${pvc.namespace}";
     "csi.storage.k8s.io/node-stage-secret-name"
       := "${pvc.annotations['team']}-stage" ]}.

(** A world in which every collaborator succeeds: the claim file decodes
    to [claim], the storage class ["fast"] has provisioner
    ["csi.example.com"] and parameters [scParams], and the template file of
    that driver holds [template]. *)
Definition sampleWorld (template : result string)
    (scParams : gmap string string) (claim : PersistentVolumeClaim) : World :=
  {| BuildConfigFromFlags := λ kubeconfig, Ok kubeconfig;
     NewForConfig := λ _, Ok ();
     ReadFile := λ name,
       if String.eqb name "claim.yaml" then Ok "kind: PersistentVolumeClaim"
       else if String.eqb name "config/csi.example.com" then template
       else Err (ErrExternal "no such file or directory");
     Decode := λ _, Ok (ObjPersistentVolumeClaim claim);
     path_Join := λ dir name, dir +:+ "/" +:+ name;
     StorageClasses_Get := λ name,
       if String.eqb name "fast"
       then Ok {| sc_Provisioner := "csi.example.com";
                  sc_Parameters := scParams |}
       else Err (ErrExternal "not found");
     PersistentVolumes_Create := λ _, Ok ();
     PersistentVolumeClaims_Create := λ _ _, Ok () |}.

(** The same world, except that every decoded claim carries namespace [x]
    in its definition. *)
Definition withFileNamespace (x : string) (w : World) : World :=
  {| BuildConfigFromFlags := BuildConfigFromFlags w;
     NewForConfig := NewForConfig w;
     ReadFile := ReadFile w;
     Decode := λ f,
       match Decode w f with
       | Ok (ObjPersistentVolumeClaim o) =>
           Ok (ObjPersistentVolumeClaim (set_pvc_Namespace x o))
       | r => r
       end;
     path_Join := path_Join w;
     StorageClasses_Get := StorageClasses_Get w;
     PersistentVolumes_Create := PersistentVolumes_Create w;
     PersistentVolumeClaims_Create := PersistentVolumeClaims_Create w |}.

(** The namespace a create request refers to. *)
Definition callNamespaces (c : Call) : list string :=
  match c with
  | CreatePV pv => [ref_Namespace (pv_ClaimRef pv)]
  | CreatePVC ns claim => [ns; pvc_Namespace claim]
  end.

(** ** Further notions *)

Fixpoint dropBytes (n : nat) (s : string) : string :=
  match n, s with
  | O, _ => s
  | S n', String _ s' => dropBytes n' s'
  | S _, EmptyString => EmptyString
  end.

(** The string [Expand] returns once its loop has stopped in the state [r]:
    the buffer followed by the unread rest [s[i:]]. *)
Definition finishLoop {St} (s : string) (r : nat * option string * St)
    : string * St :=
  let '(i, buf, σ) := r in (appendBuf buf (slice_from s i), σ).

Definition prependOut {St} (b : string) (r : string * St) : string * St :=
  (b +:+ r.1, r.2).

(** What [Expand] appends for the name and width [getShellName] returns. *)
Definition expandToken {St} (mapping : string → St → string * St)
    (name : string) (w : nat) (σ : St) : string * St :=
  if String.eqb name "" && (0 <? w)%nat then ("", σ)
  else if String.eqb name "" then ("$", σ)
  else mapping name σ.

(** A template written as literal text and [${name}] placeholders. *)
Inductive segment : Type :=
  | Lit (text : string)
  | Var (name : string).

Definition renderSegment (g : segment) : string :=
  match g with
  | Lit text => text
  | Var name => "${" +:+ name +:+ "}"
  end.

Fixpoint render (segs : list segment) : string :=
  match segs with
  | [] => ""
  | g :: segs' => renderSegment g +:+ render segs'
  end.

(** Literal text has no [$]; a name is not empty and has no [}]. *)
Definition segmentOK (g : segment) : bool :=
  match g with
  | Lit text => negb (anyByte (λ c, Ascii.eqb c "$") text)
  | Var name =>
      negb (String.eqb name "") && negb (anyByte (λ c, Ascii.eqb c "}") name)
  end.

Definition segmentVars (segs : list segment) : list string :=
  omap (λ g, match g with Lit _ => None | Var name => Some name end) segs.

(** The text of [segs] with every placeholder replaced by its value. *)
Fixpoint substitute (params : gmap string string) (segs : list segment)
    : string :=
  match segs with
  | [] => ""
  | Lit text :: segs' => text +:+ substitute params segs'
  | Var name :: segs' =>
      default "" (params !! name) +:+ substitute params segs'
  end.

(** The same with a mapping that threads a state. *)
Fixpoint substituteWith {St} (mapping : string → St → string * St)
    (segs : list segment) (σ : St) : string * St :=
  match segs with
  | [] => ("", σ)
  | Lit text :: segs' => prependOut text (substituteWith mapping segs' σ)
  | Var name :: segs' =>
      let '(x, σ') := mapping name σ in
      prependOut x (substituteWith mapping segs' σ')
  end.

(** The shape every DNS-1123 subdomain has: not empty, at most 253 bytes,
    only lower-case letters, digits, [-] and [.], and a letter or digit in
    first and last position. *)
Definition dnsNameShape (x : string) : bool :=
  negb (String.eqb x "")
  && (String.length x <=? 253)%nat
  && negb (anyByte (λ c, negb (dashLowerAlnum c || Ascii.eqb c ".")) x)
  && from_option lowerAlnum false (firstByte x)
  && from_option lowerAlnum false (lastByte x).

(** The order in which [setSecret] resolves the categories. *)
Definition setSecretOrder : list secretType :=
  [ControllerPublishSecret; NodeStageSecret; NodePublishSecret;
   ControllerExpandSecret].

(** ** Command line (package main)

    [init] after [flag.Parse]: the values of [--kubeconfig] and
    [--filename], and [os.Getenv], which returns [""] for an unset
    variable.  It either exits or leaves the kubeconfig and the template
    path for [main]. *)
Inductive initResult : Type :=
  | InitExit (status : nat)
  | InitDone (kubeconfig templatePath : string).

Definition init (kubeconfigFlag fileFlag : string) (Getenv : string → string)
    : initResult :=
  let kubeconfigEnv := Getenv "KUBECONFIG" in
  let kubeconfig :=
    if negb (String.eqb kubeconfigEnv "") && String.eqb kubeconfigFlag ""
    then kubeconfigEnv else kubeconfigFlag in
  if String.eqb kubeconfig "" then InitExit 1
  else if String.eqb fileFlag "" then InitExit 1
  else
    let templatePathEnv := Getenv "IMPORT_VOLUME_TEMPLATE" in
    let templatePath :=
      if negb (String.eqb templatePathEnv "") then templatePathEnv
      else "./config" in
    InitDone kubeconfig templatePath.

(** The whole program: [init], then [main]. *)
Definition program (w : World) (kubeconfigFlag namespaceFlag fileFlag : string)
    (importParams : gmap string string) (Getenv : string → string)
    : nat * list Call :=
  match init kubeconfigFlag fileFlag Getenv with
  | InitExit status => (status, [])
  | InitDone kubeconfig templatePath =>
      main w kubeconfig namespaceFlag fileFlag importParams templatePath
  end.

(** ** Templates as [os.Expand] reads them

    [os.Expand] replaces [${var}] and [$var].  Read from left to right, a
    template is a sequence of pieces: text without [$]; a placeholder in
    braces; a placeholder without braces, which is one special byte or the
    longest run of letters, digits and underscores; a [$] that begins
    nothing and is kept; the empty braces [${}] and a brace that is never
    closed, both of which are deleted. *)
Inductive piece : Type :=
  | PText (text : string)
  | PBraced (name : string)
  | PBare (name : string)
  | PDollar
  | PEmptyBraces
  | POpenBrace.

Definition renderPiece (p : piece) : string :=
  match p with
  | PText text => text
  | PBraced name => "${" +:+ name +:+ "}"
  | PBare name => "$" +:+ name
  | PDollar => "$"
  | PEmptyBraces => "${}"
  | POpenBrace => "${"
  end.

(** The template a sequence of pieces spells. *)
Fixpoint renderPieces (ps : list piece) : string :=
  match ps with
  | [] => ""
  | p :: ps' => renderPiece p +:+ renderPieces ps'
  end.

(** When [p], followed by the text [follow], is read as [p]:
    - text has no [$];
    - a name in braces is not empty and has no [}];
    - a name without braces is one special byte, or letters, digits and
      underscores not followed by a further one;
    - a [$] is kept when it is the last byte or the next byte begins neither
      a name nor a brace;
    - a brace is unclosed when no [}] follows. *)
Definition pieceOK (p : piece) (follow : string) : bool :=
  match p with
  | PText text => negb (anyByte (λ c, Ascii.eqb c "$") text)
  | PBraced name =>
      negb (String.eqb name "") && negb (anyByte (λ c, Ascii.eqb c "}") name)
  | PBare name =>
      match name with
      | EmptyString => false
      | String c rest =>
          if isShellSpecialVar c then String.eqb rest ""
          else isAlphaNum c
               && negb (anyByte (λ c, negb (isAlphaNum c)) rest)
               && negb (from_option isAlphaNum false (firstByte follow))
      end
  | PDollar => negb (from_option startsName false (firstByte follow))
  | PEmptyBraces => true
  | POpenBrace => negb (anyByte (λ c, Ascii.eqb c "}") follow)
  end.

Fixpoint piecesOK (ps : list piece) : bool :=
  match ps with
  | [] => true
  | p :: ps' => pieceOK p (renderPieces ps') && piecesOK ps'
  end.

(** The placeholder names of a template, in order of occurrence. *)
Definition pieceNames (ps : list piece) : list string :=
  omap (λ p, match p with
             | PBraced name | PBare name => Some name
             | _ => None
             end) ps.

(** The text a piece stands for once its placeholder is given a value. *)
Definition pieceText (params : gmap string string) (p : piece) : string :=
  match p with
  | PText text => text
  | PBraced name | PBare name => default "" (params !! name)
  | PDollar => "$"
  | PEmptyBraces | POpenBrace => ""
  end.

Fixpoint substitutePieces (params : gmap string string) (ps : list piece)
    : string :=
  match ps with
  | [] => ""
  | p :: ps' => pieceText params p +:+ substitutePieces params ps'
  end.

(** The same with a mapping that threads a state. *)
Definition substitutePiece {St} (mapping : string → St → string * St)
    (p : piece) (σ : St) : string * St :=
  match p with
  | PText text => (text, σ)
  | PBraced name | PBare name => mapping name σ
  | PDollar => ("$", σ)
  | PEmptyBraces | POpenBrace => ("", σ)
  end.

Fixpoint substitutePiecesWith {St} (mapping : string → St → string * St)
    (ps : list piece) (σ : St) : string * St :=
  match ps with
  | [] => ("", σ)
  | p :: ps' =>
      let '(x, σ') := substitutePiece mapping p σ in
      prependOut x (substitutePiecesWith mapping ps' σ')
  end.

(** The names in [names] without an entry in [params]: each once, in
    increasing order. *)
Definition missingNames (params : gmap string string) (names : list string)
    : list string :=
  merge_sort String.le (remove_dups (filter (λ n, params !! n = None) names)).

(** * Properties *)

(** ** os.Expand *)

Section ExpandFacts.
Context {St : Type} (mapping : string → St → string * St).

Lemma ExpandLoop_record fuel s i j buf l :
  (ExpandLoop recordName fuel s i j buf l).2
  = (l ++ (ExpandLoop recordName fuel s i j buf []).2)%list.
Proof.
  revert i j buf l. induction fuel as [|fuel IH]; intros i j buf l; simpl.
  { by rewrite app_nil_r. }
  destruct (j <? String.length s)%nat; simpl; [|by rewrite app_nil_r].
  destruct (byte_is s j "$" && (j + 1 <? String.length s)%nat); [|apply IH].
  destruct (getShellName _) as [name w].
  destruct (String.eqb name "" && (0 <? w)%nat); [apply IH|].
  destruct (String.eqb name ""); [apply IH|].
  simpl. rewrite IH, (IH _ _ _ [name]). by rewrite <-app_assoc.
Qed.

(** The state after [Expand] is the state obtained by calling the
    mapping on each placeholder in turn. *)
Lemma ExpandLoop_state fuel s i i' j buf buf' σ :
  (ExpandLoop mapping fuel s i j buf σ).2
  = foldl (λ σ k, (mapping k σ).2) σ
          (ExpandLoop recordName fuel s i' j buf' []).2.
Proof.
  revert i i' j buf buf' σ.
  induction fuel as [|fuel IH]; intros i i' j buf buf' σ; simpl; [done|].
  destruct (j <? String.length s)%nat; simpl; [|done].
  destruct (byte_is s j "$" && (j + 1 <? String.length s)%nat); [|apply IH].
  destruct (getShellName _) as [name w].
  destruct (String.eqb name "" && (0 <? w)%nat); [apply IH|].
  destruct (String.eqb name ""); [apply IH|].
  destruct (mapping name σ) as [v σ'] eqn:Hm.
  simpl. rewrite ExpandLoop_record. simpl. rewrite Hm. apply IH.
Qed.

Lemma Expand_state s σ :
  (Expand mapping s σ).2
  = foldl (λ σ k, (mapping k σ).2) σ (placeholders s).
Proof.
  unfold placeholders, Expand.
  pose proof (ExpandLoop_state (S (String.length s)) s 0 0 0 None None σ) as H.
  destruct (ExpandLoop mapping _ _ _ _ _ _) as [[i buf] σ'].
  destruct (ExpandLoop recordName _ _ _ _ _ _) as [[i' buf'] l].
  simpl in H. destruct buf, buf'; simpl; done.
Qed.
End ExpandFacts.

(** The fuel given by [Expand] is enough: [j] grows at every iteration. *)
Lemma ExpandLoop_fuel {St} (mapping : string → St → string * St)
    fuel fuel' s i j buf σ :
  (String.length s - j ≤ fuel)%nat → (String.length s - j ≤ fuel')%nat →
  ExpandLoop mapping fuel s i j buf σ = ExpandLoop mapping fuel' s i j buf σ.
Proof.
  revert fuel' i j buf σ.
  induction fuel as [|fuel IH]; intros [|fuel'] i j buf σ Hf Hf'; simpl; try done.
  - destruct (Nat.ltb_spec j (String.length s)); [lia|done].
  - destruct (Nat.ltb_spec j (String.length s)); [lia|done].
  - destruct (Nat.ltb_spec j (String.length s)); [|done].
    destruct (byte_is s j "$" && (j + 1 <? String.length s)%nat).
    + destruct (getShellName _) as [name w].
      destruct (String.eqb name "" && (0 <? w)%nat); [apply IH; lia|].
      destruct (String.eqb name ""); [apply IH; lia|].
      destruct (mapping name σ) as [v σ']. apply IH; lia.
    + apply IH; lia.
Qed.

(** ** Missing tokens *)

Lemma foldl_lookupOrMissing params l (σ : gset string) :
  foldl (λ σ k, (lookupOrMissing params k σ).2) σ l
  = list_to_set (filter (λ k, params !! k = None) l) ∪ σ.
Proof.
  revert σ. induction l as [|k l IH]; intros σ; simpl.
  { by rewrite (left_id_L ∅ (∪)). }
  rewrite IH, filter_cons. unfold lookupOrMissing, mapIndex, sets_Insert.
  destruct (params !! k); simpl; [done|]. set_solver.
Qed.

Lemma Expand_missing params t :
  (Expand (lookupOrMissing params) t ∅).2 = list_to_set (uncovered params t).
Proof.
  rewrite Expand_state, foldl_lookupOrMissing. unfold uncovered. set_solver.
Qed.

Lemma sets_Len_list_to_set (l : list string) :
  (0 <? sets_Len (list_to_set l))%nat = negb (bool_decide (l = [])).
Proof.
  unfold sets_Len. destruct l as [|k l]; [done|].
  rewrite bool_decide_false by done. simpl.
  - apply Nat.ltb_lt.
    assert (size (({[k]} ∪ list_to_set l) : gset string) ≠ 0); [|lia].
    apply size_non_empty_iff. set_solver.
Qed.

Lemma sets_List_list_to_set (l : list string) :
  sets_List (list_to_set l) = merge_sort String.le (remove_dups l).
Proof.
  unfold sets_List. apply (Sorted_unique String.le).
  - apply Sorted_merge_sort, _.
  - apply Sorted_merge_sort, _.
  - rewrite !merge_sort_Permutation.
    rewrite <-(elements_list_to_set (C:=gset string) (remove_dups l))
      by apply NoDup_remove_dups.
    apply elements_proper. intros x.
    by rewrite !elem_of_list_to_set, elem_of_remove_dups.
Qed.

Lemma missingTokens_spec params t :
  Sorted String.le (missingTokens params t)
  ∧ NoDup (missingTokens params t)
  ∧ ∀ k, k ∈ missingTokens params t ↔ k ∈ placeholders t ∧ params !! k = None.
Proof.
  unfold missingTokens. split_and!.
  - apply Sorted_merge_sort, _.
  - rewrite merge_sort_Permutation. apply NoDup_remove_dups.
  - intros k. rewrite merge_sort_Permutation, elem_of_remove_dups.
    unfold uncovered. rewrite list_elem_of_filter. tauto.
Qed.

Lemma resolveTemplate_eq template pvName pvc isName :
  resolveTemplate template pvName pvc isName =
    let params := templateParams pvName pvc isName in
    let resolved := (Expand (lookupOrMissing params) template ∅).1 in
    if bool_decide (uncovered params template = []) then
      if bool_decide (IsDNS1123Subdomain resolved = []) then Ok resolved
      else Err (ErrNotDNSName template resolved)
    else Err (ErrInvalidTokens (missingTokens params template)).
Proof.
  unfold resolveTemplate. simpl.
  pose proof (Expand_missing (templateParams pvName pvc isName) template) as H.
  destruct (Expand _ template ∅) as [resolved missing]. simpl in *. subst.
  rewrite sets_Len_list_to_set, sets_List_list_to_set.
  case_bool_decide; simpl; [|done].
  destruct (IsDNS1123Subdomain resolved); done.
Qed.

Lemma genVolumeHandle_eq w v :
  genVolumeHandle w v =
    template ← ReadFile w (path_Join w (templatePath v) (sc_Provisioner (sc v)));
    let t := TrimSuffix template LF in
    if bool_decide (uncovered (importParams v) t = []) then
      Ok (Expand (lookupOrMissing (importParams v)) t ∅).1
    else Err (ErrInvalidTokens (missingTokens (importParams v) t)).
Proof.
  unfold genVolumeHandle. destruct (ReadFile w _) as [template| |]; simpl; try done.
  pose proof (Expand_missing (importParams v) (TrimSuffix template LF)) as H.
  destruct (Expand _ _ ∅) as [resolved missing]. simpl in *. subst.
  rewrite sets_Len_list_to_set, sets_List_list_to_set.
  by case_bool_decide.
Qed.

(** ** Regular expressions and DNS-1123 subdomains *)

Lemma append_cons c s1 s2 : String c s1 +:+ s2 = String c (s1 +:+ s2).
Proof. reflexivity. Qed.

Lemma append_nil_l s : "" +:+ s = s.
Proof. reflexivity. Qed.

Lemma derivs_app s1 s2 r : derivs (s1 +:+ s2) r = derivs s2 (derivs s1 r).
Proof.
  revert r. induction s1 as [|c s1 IH]; intros r; [done|].
  rewrite append_cons. simpl. apply IH.
Qed.

Lemma dead_not_nullable r : dead r = true → nullable r = false.
Proof.
  induction r as [| | |r1 IH1 r2 IH2|r1 IH1 r2 IH2|]; simpl; try done.
  - intros [H|H]%orb_true_iff; [rewrite IH1|rewrite IH2]; try done.
    apply andb_false_r.
  - intros [H1 H2]%andb_true_iff. by rewrite IH1, IH2.
Qed.

Lemma dead_deriv c r : dead r = true → dead (deriv c r) = true.
Proof.
  induction r as [| | |r1 IH1 r2 IH2|r1 IH1 r2 IH2|]; simpl; try done.
  - intros [H|H]%orb_true_iff.
    + rewrite IH1, (dead_not_nullable r1) by done. done.
    + rewrite H, orb_true_r. simpl. destruct (nullable r1); auto.
  - intros [H1 H2]%andb_true_iff. by rewrite IH1, IH2.
Qed.

Lemma dead_derivs s r : dead r = true → dead (derivs s r) = true.
Proof.
  revert r. induction s as [|c s IH]; intros r H; [done|].
  simpl. by apply IH, dead_deriv.
Qed.

Lemma dead_MatchString r s : dead r = true → MatchString r s = false.
Proof. intros H. by apply dead_not_nullable, dead_derivs. Qed.

Lemma avoids_deriv c c' r : avoids c r = true → avoids c (deriv c' r) = true.
Proof.
  induction r as [| |p|r1 IH1 r2 IH2|r1 IH1 r2 IH2|r IH]; simpl; try done.
  - by destruct (p c').
  - intros [H1 H2]%andb_true_iff. rewrite IH1, H2 by done. simpl.
    destruct (nullable r1); auto.
  - intros [H1 H2]%andb_true_iff. by rewrite IH1, IH2.
  - intros H. by rewrite IH, H.
Qed.

Lemma avoids_derivs c s r : avoids c r = true → avoids c (derivs s r) = true.
Proof.
  revert r. induction s as [|c' s IH]; intros r H; [done|].
  simpl. by apply IH, avoids_deriv.
Qed.

Lemma avoids_dead c r : avoids c r = true → dead (deriv c r) = true.
Proof.
  induction r as [| |p|r1 IH1 r2 IH2|r1 IH1 r2 IH2|r IH]; simpl; try done.
  - by intros ->%negb_true_iff.
  - intros [H1 H2]%andb_true_iff. rewrite IH1 by done. simpl.
    destruct (nullable r1); auto.
  - intros [H1 H2]%andb_true_iff. by rewrite IH1, IH2.
  - intros H. by rewrite IH.
Qed.

(** A string containing a byte that no class of [r] admits is not matched. *)
Lemma avoids_MatchString c r s1 s2 :
  avoids c r = true → MatchString r (s1 +:+ String c s2) = false.
Proof.
  intros H. unfold MatchString. rewrite derivs_app. simpl.
  by apply dead_not_nullable, dead_derivs, avoids_dead, avoids_derivs.
Qed.

Lemma noTrailing_deriv c c' r :
  noTrailing c r = true → noTrailing c (deriv c' r) = true.
Proof.
  induction r as [| |p|r1 IH1 r2 IH2|r1 IH1 r2 IH2|r IH]; simpl; try done.
  - by destruct (p c').
  - intros [H2 H1]%andb_true_iff. rewrite H2. simpl.
    apply andb_true_iff. split.
    + apply orb_true_iff in H1 as [H1|H1]; [by rewrite H1|].
      rewrite IH1 by done. apply orb_true_r.
    + destruct (nullable r1); auto.
  - intros [H1 H2]%andb_true_iff. by rewrite IH1, IH2.
  - intros H. rewrite H, IH by done. done.
Qed.

Lemma noTrailing_derivs c s r :
  noTrailing c r = true → noTrailing c (derivs s r) = true.
Proof.
  revert r. induction s as [|c' s IH]; intros r H; [done|].
  simpl. by apply IH, noTrailing_deriv.
Qed.

Lemma noTrailing_nullable c r :
  noTrailing c r = true → nullable (deriv c r) = false.
Proof.
  induction r as [| |p|r1 IH1 r2 IH2|r1 IH1 r2 IH2|r IH]; simpl; try done.
  - by intros ->%negb_true_iff.
  - intros [H2 H1]%andb_true_iff.
    assert (nullable (deriv c r1) && nullable r2 = false) as ->.
    { apply orb_true_iff in H1 as [H1%negb_true_iff|H1].
      - rewrite H1. apply andb_false_r.
      - by rewrite IH1. }
    simpl. destruct (nullable r1); auto.
  - intros [H1 H2]%andb_true_iff. by rewrite IH1, IH2.
  - intros H. by rewrite IH.
Qed.

(** A string ending with a byte that [r] never ends with is not matched. *)
Lemma noTrailing_MatchString c r s :
  noTrailing c r = true → MatchString r (s +:+ String c "") = false.
Proof.
  intros H. unfold MatchString. rewrite derivs_app. simpl.
  by apply noTrailing_nullable, noTrailing_derivs.
Qed.

Lemma anyByte_split p s :
  anyByte p s = true → ∃ s1 c s2, s = s1 +:+ String c s2 ∧ p c = true.
Proof.
  induction s as [|c s IH]; simpl; [done|].
  intros [H|H]%orb_true_iff.
  - by exists "", c, s.
  - destruct (IH H) as (s1 & c' & s2 & -> & Hc). by exists (String c s1), c', s2.
Qed.

Lemma lastByte_split c s : lastByte s = Some c → ∃ s', s = s' +:+ String c "".
Proof.
  induction s as [|c' s IH]; simpl; [done|].
  destruct s as [|c'' s].
  - intros [= ->]. by exists "".
  - intros H. destruct (IH H) as [s' ->]. by exists (String c' s').
Qed.

Lemma MatchString_rejects (bad : ascii → bool) s :
  (∀ c, bad c = true → avoids c dns1123SubdomainFmt = true) →
  anyByte bad s = true → MatchString dns1123SubdomainFmt s = false.
Proof.
  intros Hbad (s1 & c & s2 & -> & Hc)%anyByte_split.
  by apply avoids_MatchString, Hbad.
Qed.

Lemma isUpper_avoids c : isUpper c = true → avoids c dns1123SubdomainFmt = true.
Proof. destruct c as [[] [] [] [] [] [] [] []]; by vm_compute. Qed.

Lemma underscore_avoids c :
  Ascii.eqb c "_" = true → avoids c dns1123SubdomainFmt = true.
Proof. by intros ->%Ascii.eqb_eq. Qed.

(** Upper-case letters, underscores, and a hyphen in first or last position
    are all rejected by [IsDNS1123Subdomain]. *)
Lemma IsDNS1123Subdomain_rejects s :
  anyByte isUpper s = true ∨ anyByte (λ c, Ascii.eqb c "_") s = true
  ∨ firstByte s = Some "-"%char ∨ lastByte s = Some "-"%char →
  IsDNS1123Subdomain s ≠ [].
Proof.
  intros H. assert (MatchString dns1123SubdomainFmt s = false) as Hm.
  { destruct H as [H|[H|[H|H]]].
    - eapply MatchString_rejects; [apply isUpper_avoids|done].
    - eapply (MatchString_rejects (λ c, Ascii.eqb c "_"));
        [apply underscore_avoids|done].
    - destruct s as [|c s]; [done|]. injection H as ->.
      change (MatchString (deriv "-" dns1123SubdomainFmt) s = false).
      by apply dead_MatchString.
    - apply lastByte_split in H as [s' ->]. by apply noTrailing_MatchString. }
  unfold IsDNS1123Subdomain. rewrite Hm. simpl.
  by destruct (_ <? _)%nat.
Qed.

(** ** Secret templates *)

Lemma lookupWithAlias_eq (scParams : gmap string string) key deprecatedKey :
  lookupWithAlias scParams key deprecatedKey =
    match scParams !! key with
    | Some v => (v, true)
    | None => mapIndex scParams deprecatedKey
    end.
Proof. unfold lookupWithAlias, mapIndex. by destruct (scParams !! key). Qed.

Lemma lookupWithAlias_ok (scParams : gmap string string) key deprecatedKey :
  (lookupWithAlias scParams key deprecatedKey).2
  = configured scParams key deprecatedKey.
Proof.
  rewrite lookupWithAlias_eq. unfold configured, mapIndex.
  destruct (scParams !! key), (scParams !! deprecatedKey); simpl;
    repeat case_bool_decide; try done;
    match goal with H : ¬ is_Some _ |- _ => by destruct H
                  | H : is_Some None |- _ => by destruct H end.
Qed.


(** C4. When neither the namespace key nor the name key of a category is
    present (canonical or deprecated), [GetSecret] returns no secret
    reference and no error; when exactly one of the two fields is present
    it fails with the only-namespace-or-name error. *)
Theorem C4_absent_or_inconsistent (scParams : gmap string string)
    (sType : secretType) (pvName : string) (pvc : PersistentVolumeClaim) :
  (nsConfigured scParams sType = false ∧ nameConfigured scParams sType = false →
     GetSecret scParams sType pvName pvc = Ok None)
  ∧ (nsConfigured scParams sType ≠ nameConfigured scParams sType →
     ∃ nsTempl nameTempl,
       GetSecret scParams sType pvName pvc
       = Err (ErrOnlyNsOrName nsTempl nameTempl scParams)).
Proof.
  unfold nsConfigured, nameConfigured, GetSecret, getSecretTemplate.
  rewrite <-!lookupWithAlias_ok.
  destruct (lookupWithAlias scParams (nsKey sType) _) as [nsTempl nsOK].
  destruct (lookupWithAlias scParams (nameKey sType) _) as [nameTempl nameOK].
  simpl. split.
  - by intros [-> ->].
  - intros Hne. exists nsTempl, nameTempl. by destruct nsOK, nameOK.
Qed.


(** ** Token sets of [resolveTemplate] *)

Lemma length_append (a b : string) :
  String.length (a +:+ b) = String.length a + String.length b.
Proof.
  induction a as [|c a IH]; [done|].
  rewrite append_cons. cbn [String.length]. by rewrite IH.
Qed.

Lemma append_inj_r (s1 s2 t : string) : s1 +:+ t = s2 +:+ t → s1 = s2.
Proof.
  revert s2. induction s1 as [|c s1 IH]; intros [|c' s2] H; try done.
  - apply (f_equal String.length) in H.
    rewrite append_cons, append_nil_l in H. cbn [String.length] in H.
    rewrite length_append in H. lia.
  - apply (f_equal String.length) in H.
    rewrite append_cons, append_nil_l in H. cbn [String.length] in H.
    rewrite length_append in H. lia.
  - rewrite !append_cons in H. injection H as -> H. f_equal. by apply IH.
Qed.

#[global] Instance annotationToken_inj : Inj (=) (=) annotationToken.
Proof.
  intros k1 k2 H. unfold annotationToken in H.
  apply String.app_inj in H. by apply append_inj_r in H.
Qed.

Lemma annotationToken_fresh k :
  tokenPVNameKey ≠ annotationToken k
  ∧ tokenPVCNamespaceKey ≠ annotationToken k
  ∧ tokenPVCNameKey ≠ annotationToken k.
Proof. unfold annotationToken. split_and!; intros H; discriminate H. Qed.

(** The annotation loop of [resolveTemplate] adds the annotations under
    their synthetic token names; the order of iteration is immaterial. *)
Lemma templateParams_true pvName pvc :
  templateParams pvName pvc true
  = kmap annotationToken (pvc_Annotations pvc)
    ∪ <[tokenPVCNameKey := pvc_Name pvc]>
        (<[tokenPVCNamespaceKey := pvc_Namespace pvc]>
           (<[tokenPVNameKey := pvName]> ∅)).
Proof.
  unfold templateParams.
  apply (map_fold_weak_ind (λ r m, r = kmap annotationToken m ∪ _)).
  - by rewrite kmap_empty, (left_id_L ∅ (∪)).
  - intros k x m r Hk ->. rewrite insert_union_l. f_equal.
    symmetry. apply (kmap_insert annotationToken).
Qed.

Lemma templateParams_true_annotation pvName pvc k :
  templateParams pvName pvc true !! annotationToken k = pvc_Annotations pvc !! k.
Proof.
  destruct (annotationToken_fresh k) as (H1 & H2 & H3).
  rewrite templateParams_true, lookup_union, (lookup_kmap annotationToken).
  do 3 (rewrite lookup_insert_ne by done). rewrite lookup_empty.
  by destruct (pvc_Annotations pvc !! k).
Qed.

Lemma templateParams_true_system pvName pvc :
  templateParams pvName pvc true !! tokenPVNameKey = Some pvName
  ∧ templateParams pvName pvc true !! tokenPVCNamespaceKey
    = Some (pvc_Namespace pvc)
  ∧ templateParams pvName pvc true !! tokenPVCNameKey = Some (pvc_Name pvc).
Proof.
  rewrite templateParams_true.
  assert (Hnone : ∀ t, (∀ k, t ≠ annotationToken k) →
            (kmap annotationToken (pvc_Annotations pvc) : gmap string string)
              !! t = None).
  { intros t Ht. apply (lookup_kmap_None annotationToken).
    intros k Hk. by destruct (Ht k). }
  split_and!; rewrite lookup_union, Hnone;
    try (intros k; by destruct (annotationToken_fresh k) as (?&?&?));
    by rewrite (left_id_L None _).
Qed.

(** ** Validation of resolved names *)

Lemma GetSecret_valid scParams sType pvName pvc ref :
  GetSecret scParams sType pvName pvc = Ok (Some ref) →
  IsDNS1123Subdomain (sr_Namespace ref) = []
  ∧ IsDNS1123Subdomain (sr_Name ref) = [].
Proof.
  unfold GetSecret.
  destruct (getSecretTemplate scParams sType) as [[nsTempl nameTempl]| |];
    simpl; try done.
  destruct (String.eqb nsTempl "" || String.eqb nameTempl ""); [done|].
  rewrite !resolveTemplate_eq. cbv zeta.
  repeat (case_bool_decide; simpl; try done).
  by intros [= <-].
Qed.

(** C7. Once substitution has succeeded, [resolveTemplate] checks the
    resolved string against DNS-1123 subdomain syntax: a value containing an
    upper-case letter or an underscore, or starting or ending with a hyphen,
    is rejected with an error carrying the template and the resolved value;
    a conforming value is returned.  Both components of a secret reference
    returned by [GetSecret] have passed the check. *)
Theorem C7_dns1123_validation (template pvName : string)
    (pvc : PersistentVolumeClaim) (isName : bool) :
  let params := templateParams pvName pvc isName in
  let resolved := (Expand (lookupOrMissing params) template ∅).1 in
  uncovered params template = [] →
  (IsDNS1123Subdomain resolved = [] →
     resolveTemplate template pvName pvc isName = Ok resolved)
  ∧ (IsDNS1123Subdomain resolved ≠ [] →
     resolveTemplate template pvName pvc isName
     = Err (ErrNotDNSName template resolved))
  ∧ (anyByte isUpper resolved = true
     ∨ anyByte (λ c, Ascii.eqb c "_") resolved = true
     ∨ firstByte resolved = Some "-"%char
     ∨ lastByte resolved = Some "-"%char →
     resolveTemplate template pvName pvc isName
     = Err (ErrNotDNSName template resolved))
  ∧ IsDNS1123Subdomain "my-secret.01" = []
  ∧ IsDNS1123Subdomain "My_Secret" = [RegexError]
  ∧ (∀ scParams sType ref,
       GetSecret scParams sType pvName pvc = Ok (Some ref) →
       IsDNS1123Subdomain (sr_Namespace ref) = []
       ∧ IsDNS1123Subdomain (sr_Name ref) = []).
Proof.
  intros params resolved Hcov.
  assert (Hbad : IsDNS1123Subdomain resolved ≠ [] →
            resolveTemplate template pvName pvc isName
            = Err (ErrNotDNSName template resolved)).
  { intros H. rewrite resolveTemplate_eq. cbv zeta. fold params resolved.
    by rewrite bool_decide_true, bool_decide_false. }
  split_and!; try done.
  - intros H. rewrite resolveTemplate_eq. cbv zeta. fold params resolved.
    by rewrite !bool_decide_true.
  - intros H. by apply Hbad, IsDNS1123Subdomain_rejects.
  - intros scParams sType ref. apply GetSecret_valid.
Qed.

Lemma C7_dns1123_validation_witness :
  resolveTemplate "My_${pvc.name}" "pv-foo" claimFoo true
    = Err (ErrNotDNSName "My_${pvc.name}" "My_foo")
  ∧ resolveTemplate "${pvc.name}-" "pv-foo" claimFoo true
    = Err (ErrNotDNSName "${pvc.name}-" "foo-")
  ∧ resolveTemplate "${pv.name}.01" "pv-foo" claimFoo true = Ok "pv-foo.01".
Proof.
  split_and!.
  - apply (C7_dns1123_validation "My_${pvc.name}" "pv-foo" claimFoo true).
    + by vm_compute.
    + left. by vm_compute.
  - apply (C7_dns1123_validation "${pvc.name}-" "pv-foo" claimFoo true).
    + by vm_compute.
    + do 3 right. by vm_compute.
  - apply (C7_dns1123_validation "${pv.name}.01" "pv-foo" claimFoo true).
    + by vm_compute.
    + by vm_compute.
Defined.

(** ** strings.TrimSuffix *)

Lemma substring_append_l (t u : string) :
  String.substring 0 (String.length t) (t +:+ u) = t.
Proof.
  induction t as [|c t IH]; [by destruct u|].
  rewrite append_cons. cbn [String.length String.substring]. by rewrite IH.
Qed.

Lemma substring_append_r (t u : string) :
  String.substring (String.length t) (String.length u) (t +:+ u) = u.
Proof.
  induction t as [|c t IH].
  - rewrite append_nil_l. induction u as [|c u IHu]; [done|].
    cbn [String.length String.substring] in *. by rewrite IHu.
  - rewrite append_cons. by cbn [String.length String.substring].
Qed.

Lemma TrimSuffix_append t suffix : TrimSuffix (t +:+ suffix) suffix = t.
Proof.
  unfold TrimSuffix, HasSuffix, slice, slice_from. rewrite length_append.
  replace (String.length t + String.length suffix - String.length suffix)
    with (String.length t) by lia.
  replace (String.length t + String.length suffix - String.length t)
    with (String.length suffix) by lia.
  rewrite substring_append_r, String.eqb_refl, Nat.sub_0_r, substring_append_l.
  by rewrite (proj2 (Nat.leb_le _ _)) by lia.
Qed.

(** ** The orchestrator *)

Ltac destruct_GetSecret :=
  repeat match goal with
  | H : GetSecret ?a ?t ?n ?c = _ |- context [GetSecret ?a ?t ?n ?c] =>
      rewrite H; cbn
  | |- context [GetSecret (sc_Parameters ?s) ?t ?n ?c] =>
      is_var s; is_var n; is_var c;
      destruct (GetSecret (sc_Parameters s) t n c) as [[?|]| |] eqn:?; cbn
  end.

(** [genVolumeHandle] reads nothing but the template path, the storage
    class and the import parameters. *)
Lemma genVolumeHandle_ext w v v' :
  templatePath v = templatePath v' → sc v = sc v' →
  importParams v = importParams v' →
  genVolumeHandle w v = genVolumeHandle w v'.
Proof. unfold genVolumeHandle. by intros -> -> ->. Qed.

(** [setSecret] writes the four secret fields only. *)
Lemma setSecret_frame v :
  namespace (setSecret v).1 = namespace v
  ∧ templatePath (setSecret v).1 = templatePath v
  ∧ importParams (setSecret v).1 = importParams v
  ∧ pvc (setSecret v).1 = pvc v
  ∧ sc (setSecret v).1 = sc v
  ∧ pvName (setSecret v).1 = pvName v
  ∧ volumeHandle (setSecret v).1 = volumeHandle v
  ∧ capacity (setSecret v).1 = capacity v
  ∧ attributes (setSecret v).1 = attributes v
  ∧ readOnly (setSecret v).1 = readOnly v
  ∧ volumeMode (setSecret v).1 = volumeMode v
  ∧ fsType (setSecret v).1 = fsType v.
Proof.
  destruct v. unfold setSecret, assignSecret. cbn. by destruct_GetSecret.
Qed.

(** Running [setSecret] again changes nothing. *)
Lemma setSecret_stable v : (setSecret (setSecret v).1).1 = (setSecret v).1.
Proof.
  destruct v. unfold setSecret, assignSecret. cbn. by destruct_GetSecret.
Qed.

(** The assignments that follow [setSecret] in [NewVolumeImporter] do not
    touch what it reads or writes. *)
Lemma setSecret_later_fields a f m b v :
  (setSecret (set_attributes a (set_fsType f
     (set_volumeMode m (set_readOnly b v))))).1
  = set_attributes a (set_fsType f
      (set_volumeMode m (set_readOnly b (setSecret v).1))).
Proof.
  destruct v. unfold setSecret, assignSecret. cbn. by destruct_GetSecret.
Qed.

(** What [NewVolumeImporter] leaves in the importer it returns. *)
Lemma NewVolumeImporter_fields w kubeconfig ns file params tpath v :
  NewVolumeImporter w kubeconfig ns file params tpath = Ok v →
  namespace v = ns ∧ importParams v = params ∧ templatePath v = tpath
  ∧ (∃ claim0, parsePVCfile w file = Ok claim0
               ∧ pvc v = set_pvc_Namespace ns claim0)
  ∧ (∃ scName, pvc_StorageClassName (pvc v) = Some scName
               ∧ StorageClasses_Get w scName = Ok (sc v))
  ∧ pvName v = pvPrefix +:+ pvc_Name (pvc v)
  ∧ capacity v = default zeroQuantity (pvc_Requests (pvc v) !! ResourceStorage)
  ∧ genVolumeHandle w v = Ok (volumeHandle v)
  ∧ (setSecret v).1 = v
  ∧ readOnly v = false
  ∧ volumeMode v = pvc_VolumeMode (pvc v)
  ∧ fsType v = genFsType v
  ∧ attributes v = genAttributes v.
Proof.
  intros Hv. unfold NewVolumeImporter in Hv.
  destruct (BuildConfigFromFlags w kubeconfig) as [config| |]; cbn in Hv;
    try done.
  destruct (NewForConfig w config) as [[]| |]; cbn in Hv; try done.
  destruct (parsePVCfile w file) as [claim0| |] eqn:Hparse; try done.
  cbn in Hv.
  destruct (pvc_StorageClassName claim0) as [scName|] eqn:Hname; try done.
  destruct (StorageClasses_Get w scName) as [sc0| |] eqn:Hsc; try done.
  match type of Hv with context [genVolumeHandle w ?v0] =>
    destruct (genVolumeHandle w v0) as [h| |] eqn:Hh; cbn in Hv; try done end.
  match type of Hv with context [setSecret ?v0] =>
    pose proof (setSecret_frame v0) as Hframe;
    pose proof (setSecret_stable v0) as Hstable;
    destruct (setSecret v0) as [v1 err] eqn:Hs end.
  cbn in Hframe, Hstable.
  destruct Hframe as (F1&F2&F3&F4&F5&F6&F7&F8&F9&F10&F11&F12).
  assert (Ok (set_attributes (genAttributes (set_fsType (genFsType
                (set_volumeMode (pvc_VolumeMode claim0) (set_readOnly false v1)))
                (set_volumeMode (pvc_VolumeMode claim0) (set_readOnly false v1))))
             (set_fsType (genFsType
                (set_volumeMode (pvc_VolumeMode claim0) (set_readOnly false v1)))
                (set_volumeMode (pvc_VolumeMode claim0) (set_readOnly false v1))))
          = Ok v) as [= <-].
  { by destruct err. }
  clear Hv. split_and!; cbn; try done.
  - exists claim0. by rewrite F4.
  - exists scName. by rewrite F4, F5.
  - by rewrite F6, F4.
  - by rewrite F8, F4.
  - rewrite F7, <-Hh. apply genVolumeHandle_ext; cbn; congruence.
  - by rewrite setSecret_later_fields, Hstable.
  - by rewrite F4.
Qed.

(** An error of [genVolumeHandle] ends the run before any create request. *)
Lemma genVolumeHandle_fatal w kubeconfig ns file params tpath
    config claim0 scName sc0 v0 e :
  BuildConfigFromFlags w kubeconfig = Ok config →
  NewForConfig w config = Ok () →
  parsePVCfile w file = Ok claim0 →
  pvc_StorageClassName claim0 = Some scName →
  StorageClasses_Get w scName = Ok sc0 →
  templatePath v0 = tpath → sc v0 = sc0 → importParams v0 = params →
  genVolumeHandle w v0 = Err e →
  NewVolumeImporter w kubeconfig ns file params tpath = Err e
  ∧ main w kubeconfig ns file params tpath = (1, []).
Proof.
  intros Hc Hn Hp Hs Hg Ht Hsc Hi He.
  assert (NewVolumeImporter w kubeconfig ns file params tpath = Err e) as HN.
  { unfold NewVolumeImporter. rewrite Hc. cbn. rewrite Hn. cbn.
    rewrite Hp. cbn. rewrite Hs, Hg.
    match goal with |- context [genVolumeHandle w ?v1] =>
      rewrite (genVolumeHandle_ext w v1 v0) by (cbn; congruence) end.
    by rewrite He. }
  split; [done|]. unfold main. by rewrite HN.
Qed.

(** C9. The filesystem type is empty when the volume mode is [Block];
    otherwise it is the value of [csi.storage.k8s.io/fsType] in the
    storage-class parameters, or empty when that key is absent.  The
    importer built by [NewVolumeImporter] carries the claim's volume mode
    and the filesystem type so derived, and [createPV] sends it. *)
Theorem C9_genFsType (w : World) (v : VolumeImporter) :
  (volumeMode v = Some "Block" → genFsType v = "")
  ∧ (∀ x, volumeMode v ≠ Some "Block" →
       sc_Parameters (sc v) !! "csi.storage.k8s.io/fsType" = Some x →
       genFsType v = x)
  ∧ (volumeMode v ≠ Some "Block" →
       sc_Parameters (sc v) !! "csi.storage.k8s.io/fsType" = None →
       genFsType v = "")
  ∧ (∀ kubeconfig ns file params tpath,
       NewVolumeImporter w kubeconfig ns file params tpath = Ok v →
       volumeMode v = pvc_VolumeMode (pvc v)
       ∧ fsType v = genFsType v
       ∧ ∀ pv calls, (createPV w v calls).2 = (calls ++ [CreatePV pv])%list →
                     csi_FSType pv = genFsType v).
Proof.
  unfold genFsType, mapIndex, PersistentVolumeBlock, tokenFsTypeKey.
  split_and!.
  - intros ->. by rewrite bool_decide_true.
  - intros x Hm ->. by rewrite bool_decide_false.
  - intros Hm ->. by rewrite bool_decide_false.
  - intros kubeconfig ns file params tpath Hv.
    destruct (NewVolumeImporter_fields _ _ _ _ _ _ _ Hv)
      as (_&_&_&_&(scName&Hsc&_)&_&_&_&_&_&Hmode&Hfs&_).
    split_and!; [done..|].
    intros pv calls. unfold createPV. rewrite Hsc. cbn.
    intros [= <-]%(inj (app calls)). done.
Qed.

(** ** The target namespace *)

Lemma Import_calls w v c :
  c ∈ (Import w v []).2 →
  ∀ x, x ∈ callNamespaces c → x = namespace v ∨ x = pvc_Namespace (pvc v).
Proof.
  assert (Hpv : ∀ pv x, ref_Namespace (pv_ClaimRef pv) = pvc_Namespace (pvc v) →
            x ∈ callNamespaces (CreatePV pv) → x = pvc_Namespace (pvc v)).
  { intros pv x <-. cbn. by intros ->%list_elem_of_singleton. }
  assert (Hpvc : ∀ x, x ∈ callNamespaces (CreatePVC (namespace v) (pvc v)) →
            x = namespace v ∨ x = pvc_Namespace (pvc v)).
  { intros x. cbn. rewrite elem_of_cons, list_elem_of_singleton. tauto. }
  unfold Import, createPV, createPVC.
  destruct (pvc_StorageClassName (pvc v)); cbn; [|by intros ?%elem_of_nil].
  destruct (PersistentVolumes_Create w _); cbn;
    [destruct (PersistentVolumeClaims_Create w _ _); cbn|..];
    rewrite ?elem_of_cons, ?elem_of_nil; intros Hc x Hx;
    destruct_or?; simplify_eq; try done; eauto;
    right; by eapply Hpv; [|exact Hx].
Qed.

Lemma withFileNamespace_NewVolumeImporter x w kubeconfig ns file params tpath :
  NewVolumeImporter (withFileNamespace x w) kubeconfig ns file params tpath
  = NewVolumeImporter w kubeconfig ns file params tpath.
Proof.
  unfold NewVolumeImporter, parsePVCfile. cbn.
  destruct (BuildConfigFromFlags w kubeconfig) as [config| |]; cbn; try done.
  destruct (NewForConfig w config) as [[]| |]; cbn; try done.
  destruct (ReadFile w file) as [f| |]; cbn; try done.
  destruct (Decode w f) as [[o|kind]| |]; cbn; try done.
Qed.

(** C10. The namespace of the claim is overwritten with the target
    namespace before the volume handle and the secrets are resolved: in the
    importer that [NewVolumeImporter] returns the claim's namespace is the
    target namespace, the token [pvc.namespace] stands for it, the stored
    secrets are those resolved from that claim, every create request refers
    to the target namespace only, and the namespace written in the claim
    definition has no influence on the run. *)
Theorem C10_target_namespace (w : World) (kubeconfig ns file : string)
    (params : gmap string string) (tpath : string) :
  (∀ v, NewVolumeImporter w kubeconfig ns file params tpath = Ok v →
     namespace v = ns
     ∧ pvc_Namespace (pvc v) = ns
     ∧ (∀ isName,
          templateParams (pvName v) (pvc v) isName !! "pvc.namespace" = Some ns)
     ∧ (setSecret v).1 = v)
  ∧ (∀ c x, c ∈ (main w kubeconfig ns file params tpath).2 →
       x ∈ callNamespaces c → x = ns)
  ∧ (∀ x, main (withFileNamespace x w) kubeconfig ns file params tpath
          = main w kubeconfig ns file params tpath).
Proof.
  assert (Hfields : ∀ v,
    NewVolumeImporter w kubeconfig ns file params tpath = Ok v →
    namespace v = ns ∧ pvc_Namespace (pvc v) = ns ∧ (setSecret v).1 = v).
  { intros v Hv. destruct (NewVolumeImporter_fields _ _ _ _ _ _ _ Hv)
      as (Hns&_&_&(claim0&_&Hpvc)&_&_&_&_&Hsec&_).
    split_and!; [done| |done]. by rewrite Hpvc. }
  split_and!.
  - intros v Hv. destruct (Hfields v Hv) as (Hns & Hpvc & Hsec).
    split_and!; try done.
    intros [|].
    + destruct (templateParams_true_system (pvName v) (pvc v)) as (_&H&_).
      by rewrite <-Hpvc.
    + rewrite <-Hpvc. apply lookup_insert_eq.
  - intros c x. unfold main.
    destruct (NewVolumeImporter w kubeconfig ns file params tpath)
      as [v| |] eqn:Hv; cbn; try by intros ?%elem_of_nil.
    destruct (Hfields v eq_refl) as (Hns & Hpvc & _).
    intros Hc Hx.
    assert (c ∈ (Import w v []).2) as Hc'.
    { by destruct (Import w v []) as [[| |] calls]. }
    destruct (Import_calls w v c Hc' x Hx); congruence.
  - intros x. unfold main. by rewrite withFileNamespace_NewVolumeImporter.
Qed.

(** ** Templates without anything to expand *)

Lemma append_assoc (a b c : string) : (a +:+ b) +:+ c = a +:+ (b +:+ c).
Proof.
  induction a as [|x a IH]; [done|]. by rewrite !append_cons, IH.
Qed.

Lemma slice_from_0 s : slice_from s 0 = s.
Proof.
  unfold slice_from. rewrite Nat.sub_0_r.
  induction s as [|c s IH]; [done|].
  cbn [String.length String.substring]. by rewrite IH.
Qed.

Lemma slice_from_get s j c :
  String.get j s = Some c → slice_from s j = String c (slice_from s (j + 1)).
Proof.
  unfold slice_from. revert j. induction s as [|a s IH]; intros j; [by destruct j|].
  destruct j as [|j]; cbn [String.get String.length String.substring Nat.sub Nat.add].
  - intros [= ->]. f_equal.
    rewrite Nat.sub_0_r. pose proof (slice_from_0 s) as H.
    unfold slice_from in H. by rewrite Nat.sub_0_r in H.
  - intros H. by rewrite (IH j H).
Qed.

Lemma slice_split s i j :
  (i ≤ j)%nat → (j ≤ String.length s)%nat →
  slice_from s i = slice s i j +:+ slice_from s j.
Proof.
  unfold slice_from, slice. revert i j.
  induction s as [|a s IH]; intros i j Hij Hj.
  - cbn in Hj. assert (j = 0) as -> by lia. assert (i = 0) as -> by lia. done.
  - cbn [String.length] in *. destruct i as [|i].
    + destruct j as [|j].
      * done.
      * cbn [String.substring Nat.sub]. rewrite append_cons. f_equal.
        specialize (IH 0 j). rewrite !Nat.sub_0_r in IH. apply IH; lia.
    + destruct j as [|j]; [lia|].
      cbn [String.substring Nat.sub]. apply IH; lia.
Qed.

Lemma inert_get t j :
  inert t = true → String.get j t = Some "$"%char →
  (j + 1 < String.length t)%nat →
  ∃ c, String.get (j + 1) t = Some c ∧ startsName c = false.
Proof.
  revert j. induction t as [|a t IH]; intros j; [by destruct j|].
  cbn [inert]. intros [Hhd Htl]%andb_true_iff.
  destruct j as [|j]; cbn [String.get String.length Nat.add].
  - intros [= ->] Hlen. destruct t as [|c t]; [cbn in Hlen; lia|].
    exists c. split; [done|]. by apply negb_true_iff.
  - intros Hget Hlen. apply IH; [done..|lia].
Qed.

Lemma getShellName_inert c r :
  startsName c = false → getShellName (String c r) = ("", 0).
Proof.
  unfold startsName. intros [[H1 H2]%orb_false_iff H3]%orb_false_iff.
  unfold getShellName, byte_is. cbn [String.get from_option scanAlphaNum].
  rewrite bool_decide_false, H2, H3; [done|].
  intros [= ->]. by rewrite Ascii.eqb_refl in H1.
Qed.

Section ExpandInert.
Context {St : Type} (mapping : string → St → string * St).

Lemma ExpandLoop_inert fuel s i j buf σ :
  inert s = true → (i ≤ j)%nat →
  appendBuf buf (slice_from s i) = s →
  ∃ i' buf',
    ExpandLoop mapping fuel s i j buf σ = (i', buf', σ)
    ∧ appendBuf buf' (slice_from s i') = s.
Proof.
  intros Hs. revert i j buf.
  induction fuel as [|fuel IH]; intros i j buf Hij Hinv; cbn [ExpandLoop].
  { by eexists _, _. }
  destruct (Nat.ltb_spec j (String.length s)) as [Hj|Hj]; [|by eexists _, _].
  destruct (byte_is s j "$") eqn:Hb; cbn [andb]; [|apply IH; [lia|done]].
  destruct (Nat.ltb_spec (j + 1) (String.length s)) as [Hj1|Hj1];
    [|apply IH; [lia|done]].
  apply bool_decide_eq_true in Hb.
  destruct (inert_get s j Hs Hb Hj1) as (c & Hc & Hstart).
  rewrite (slice_from_get s (j + 1) c Hc), (getShellName_inert _ _ Hstart).
  cbn [String.eqb andb Nat.ltb Nat.leb]. apply IH; [lia|].
  rewrite Nat.add_0_r. unfold appendBuf in *. cbn [from_option].
  etrans; [|exact Hinv]. unfold id.
  rewrite (slice_split s i j), (slice_from_get s j _ Hb) by lia.
  by rewrite !append_assoc.
Qed.

(** [Expand] leaves an inert template alone and never calls the mapping. *)
Lemma Expand_inert s σ : inert s = true → Expand mapping s σ = (s, σ).
Proof.
  intros Hs. unfold Expand.
  destruct (ExpandLoop_inert (S (String.length s)) s 0 0 None σ Hs)
    as (i' & buf' & -> & Hinv); [done|by rewrite slice_from_0|].
  destruct buf' as [b|]; [|done]. unfold appendBuf in Hinv.
  cbn [from_option id] in Hinv. by rewrite Hinv.
Qed.
End ExpandInert.

Lemma inert_hasBracePlaceholder t :
  inert t = true → hasBracePlaceholder t = false.
Proof.
  induction t as [|c t IH]; [done|]. cbn [inert hasBracePlaceholder].
  intros [Hhd Htl]%andb_true_iff. rewrite (IH Htl), orb_false_r.
  destruct (Ascii.eqb c "$"); [|done]. cbn [andb].
  destruct t as [|c' body]; [done|].
  destruct (Ascii.eqb_spec c' "{") as [->|Hne]; [done|].
  destruct c' as [[] [] [] [] [] [] [] []]; done.
Qed.

(** C3, as the code has it.  A template in which every [$] is the last
    byte or is followed by a byte that begins neither a name nor a brace
    expression contains nothing to expand: substitution returns it unchanged
    and asks for no token, whatever the parameter set.  [genVolumeHandle]
    then returns it as the volume handle, and [resolveTemplate] returns it
    if it is a DNS-1123 subdomain and rejects it as an invalid name
    otherwise. *)
Theorem C3_inert_template_unchanged (w : World) (v : VolumeImporter)
    (template pvName : string) (pvc : PersistentVolumeClaim) (isName : bool) :
  inert template = true →
  hasBracePlaceholder template = false
  ∧ placeholders template = []
  ∧ (∀ params : gmap string string,
       Expand (lookupOrMissing params) template ∅ = (template, ∅))
  ∧ resolveTemplate template pvName pvc isName
    = (if bool_decide (IsDNS1123Subdomain template = []) then Ok template
       else Err (ErrNotDNSName template template))
  ∧ (∀ raw,
       ReadFile w (path_Join w (templatePath v) (sc_Provisioner (sc v)))
       = Ok raw →
       TrimSuffix raw LF = template →
       genVolumeHandle w v = Ok template).
Proof.
  intros Hin.
  assert (Hph : placeholders template = []).
  { unfold placeholders. by rewrite Expand_inert. }
  assert (Hun : ∀ params : gmap string string, uncovered params template = []).
  { intros params. unfold uncovered. by rewrite Hph. }
  split_and!; try done.
  - by apply inert_hasBracePlaceholder.
  - intros params. by apply Expand_inert.
  - rewrite resolveTemplate_eq. cbv zeta.
    by rewrite bool_decide_true, Expand_inert by done.
  - intros raw Hraw Htrim. rewrite genVolumeHandle_eq, Hraw. cbn.
    by rewrite Htrim, bool_decide_true, Expand_inert by done.
Qed.

Lemma C3_inert_template_unchanged_witness :
  inert "my-secret.01" = true
  ∧ resolveTemplate "my-secret.01" "pv-foo" claimFoo true = Ok "my-secret.01"
  ∧ genVolumeHandle (sampleWorld (Ok ("my-secret.01" +:+ LF)) ∅ claimFoo)
      (sampleImporter ∅) = Ok "my-secret.01".
Proof.
  pose proof (C3_inert_template_unchanged
                (sampleWorld (Ok ("my-secret.01" +:+ LF)) ∅ claimFoo)
                (sampleImporter ∅) "my-secret.01" "pv-foo" claimFoo true
                eq_refl) as (_ & _ & _ & Hr & Hg).
  split_and!; [reflexivity|exact Hr|].
  exact (Hg ("my-secret.01" +:+ LF) eq_refl eq_refl).
Defined.

(** C3 as stated fails: these templates contain no [${name}] placeholder
    and are not returned unchanged.  [$name] is expanded as well, a resolved
    secret name is validated, and the malformed [${}] is deleted. *)
Lemma C3_counterexample :
  hasBracePlaceholder "pv-$name" = false
  ∧ resolveTemplate "pv-$name" "pv-foo" claimFoo true
    = Err (ErrInvalidTokens ["name"])
  ∧ hasBracePlaceholder "My_Secret" = false
  ∧ resolveTemplate "My_Secret" "pv-foo" claimFoo true
    = Err (ErrNotDNSName "My_Secret" "My_Secret")
  ∧ hasBracePlaceholder "vol${}a" = false
  ∧ genVolumeHandle (sampleWorld (Ok "vol${}a") ∅ claimFoo) (sampleImporter ∅)
    = Ok "vola".
Proof. by vm_compute. Qed.

(** ** Errors of [setSecret] *)

(** C1, on the code.  With storage-class parameters that configure only the
    namespace of the controller-publish secret, [GetSecret] and [setSecret]
    return an error, yet [NewVolumeImporter] returns an importer and [main]
    sends both create requests and exits with status 0.  The same happens
    when a secret name refers to an annotation the claim does not have. *)
Lemma C1_setSecret_error_dropped :
  let run scParams claim :=
    let w := sampleWorld (Ok ("handle-${size}" +:+ LF)) scParams claim in
    (NewVolumeImporter w "kubeconfig" "ns1" "claim.yaml"
       {[ "size" := "10Gi" ]} "config",
     main w "kubeconfig" "ns1" "claim.yaml" {[ "size" := "10Gi" ]} "config") in
  GetSecret onlyNamespaceParams ControllerPublishSecret "pv-foo" claimFoo
    = Err (ErrOnlyNsOrName "default" "" onlyNamespaceParams)
  ∧ (∃ v pv,
       run onlyNamespaceParams claimFoo
       = (Ok v, (0, [CreatePV pv; CreatePVC "ns1" claimFoo]))
       ∧ (setSecret v).2
         = Err (ErrOnlyNsOrName "default" "" onlyNamespaceParams)
       ∧ csi_ControllerPublishSecretRef pv = None)
  ∧ GetSecret annotatedNameParams NodeStageSecret "pv-foo" claimBare
    = Err (ErrInvalidTokens ["pvc.annotations['team']"])
  ∧ (∃ v pv,
       run annotatedNameParams claimBare
       = (Ok v, (0, [CreatePV pv; CreatePVC "ns1" claimBare]))
       ∧ (setSecret v).2 = Err (ErrInvalidTokens ["pvc.annotations['team']"])
       ∧ csi_NodeStageSecretRef pv = None).
Proof.
  cbv zeta. split_and!.
  - by vm_compute.
  - eexists _, _. split_and!; [by vm_compute| |]; by vm_compute.
  - by vm_compute.
  - eexists _, _. split_and!; [by vm_compute| |]; by vm_compute.
Qed.

(** An error before the create calls does end the run without any request. *)
Lemma NewVolumeImporter_error_no_calls w kubeconfig ns file params tpath :
  (∀ v, NewVolumeImporter w kubeconfig ns file params tpath ≠ Ok v) →
  (main w kubeconfig ns file params tpath).2 = [].
Proof.
  unfold main.
  destruct (NewVolumeImporter w kubeconfig ns file params tpath) as [v| |];
    [|done..].
  intros H. by destruct (H v).
Qed.

(** ** Examples *)

Example placeholders_examples :
  placeholders "handle-${size}" = ["size"]
  ∧ placeholders "${b}-${a}-${b}-$c" = ["b"; "a"; "b"; "c"]
  ∧ missingTokens ∅ "${b}-${a}-${b}-$c" = ["a"; "b"; "c"]
  ∧ missingTokens {[ "a" := "x" ]} "${b}-${a}-${b}" = ["b"]
  ∧ placeholders "${pvc.annotations['team']}" = ["pvc.annotations['team']"]
  ∧ placeholders "plain-text" = [].
Proof. by vm_compute. Qed.

(** Scenario C of the specification, and canonical-key precedence. *)
Example GetSecret_examples :
  GetSecret
    {[ "csi.storage.k8s.io/node-stage-secret-namespace" := "${pvc.namespace}";
       "csi.storage.k8s.io/node-stage-secret-name" := "${pv.name}-stage" ]}
    NodeStageSecret "pv-foo" claimFoo
  = Ok (Some {| sr_Namespace := "ns1"; sr_Name := "pv-foo-stage" |})
  ∧ GetSecret
      {[ "csi.storage.k8s.io/node-stage-secret-namespace" := "${pvc.namespace}";
         "node-stage-secret-namespace" := "other";
         "node-stage-secret-name" := "${pv.name}-stage" ]}
      NodeStageSecret "pv-foo" claimFoo
    = Ok (Some {| sr_Namespace := "ns1"; sr_Name := "pv-foo-stage" |})
  ∧ GetSecret ∅ NodeStageSecret "pv-foo" claimFoo = Ok None
  ∧ GetSecret {[ "node-publish-secret-name" := "creds" ]}
      NodePublishSecret "pv-foo" claimFoo
    = Err (ErrOnlyNsOrName "" "creds" {[ "node-publish-secret-name" := "creds" ]})
  ∧ IsDNS1123Subdomain "a" = []
  ∧ IsDNS1123Subdomain "a.b-c.d0" = []
  ∧ IsDNS1123Subdomain "a..b" = [RegexError]
  ∧ IsDNS1123Subdomain "" = [RegexError].
Proof. by vm_compute. Qed.

(** A block-mode claim gets no filesystem type; a filesystem-mode claim gets
    the configured one.  The claim file says namespace ["ns1"], the target
    namespace is ["prod"]: both create requests refer to ["prod"], and the
    secret namespace resolved from [${pvc.namespace}] is ["prod"]. *)
Example orchestrator_examples :
  let scParams : gmap string string :=
    {[ "csi.storage.k8s.io/fsType" := "ext4";
       "csi.storage.k8s.io/node-stage-secret-namespace" := "${pvc.namespace}";
       "csi.storage.k8s.io/node-stage-secret-name" := "${pv.name}-stage";
       "pool" := "fast" ]} in
  let claim mode :=
    {| pvc_Name := "foo"; pvc_Namespace := "ns1"; pvc_Annotations := ∅;
       pvc_StorageClassName := Some "fast";
       pvc_AccessModes := ["ReadWriteOnce"];
       pvc_Requests := {[ "storage" := "10Gi" ]};
       pvc_VolumeMode := mode |} in
  let run mode :=
    NewVolumeImporter (sampleWorld (Ok "vol-1") scParams (claim mode))
      "kubeconfig" "prod" "claim.yaml" ∅ "config" in
  fsType <$> run (Some "Block") = Ok ""
  ∧ fsType <$> run (Some "Filesystem") = Ok "ext4"
  ∧ fsType <$> run None = Ok "ext4"
  ∧ attributes <$> run None = Ok {[ "pool" := "fast" ]}
  ∧ nodeStageSecret <$> run None
    = Ok (Some {| sr_Namespace := "prod"; sr_Name := "pv-foo-stage" |})
  ∧ concat (callNamespaces <$>
      (main (sampleWorld (Ok "vol-1") scParams (claim None))
         "kubeconfig" "prod" "claim.yaml" ∅ "config").2)
    = ["prod"; "prod"; "prod"].
Proof. by vm_compute. Qed.

(** * Further properties of the code *)

Lemma slice_from_dropBytes s n : slice_from s n = dropBytes n s.
Proof.
  revert n. induction s as [|a s IH]; intros [|n]; try done.
  - apply slice_from_0.
  - cbn [dropBytes]. by rewrite <-IH.
Qed.

Lemma dropBytes_add a b s : dropBytes (a + b) s = dropBytes b (dropBytes a s).
Proof.
  revert s. induction a as [|a IH]; intros s; [done|].
  destruct s as [|c s]; cbn [Nat.add dropBytes]; [by destruct b|apply IH].
Qed.

Lemma length_dropBytes n s :
  String.length (dropBytes n s) = String.length s - n.
Proof.
  revert s. induction n as [|n IH]; intros s; cbn [dropBytes].
  - by rewrite Nat.sub_0_r.
  - destruct s as [|c s]; [done|]. cbn [String.length Nat.sub]. apply IH.
Qed.

Lemma get_dropBytes n k s : String.get k (dropBytes n s) = String.get (n + k) s.
Proof.
  revert s. induction n as [|n IH]; intros s; [done|].
  destruct s as [|c s]; cbn [dropBytes Nat.add String.get]; [by destruct k|apply IH].
Qed.

Lemma slice_from_slice_from s j k :
  slice_from (slice_from s j) k = slice_from s (j + k).
Proof. by rewrite !slice_from_dropBytes, dropBytes_add. Qed.

Lemma length_slice_from s j :
  String.length (slice_from s j) = String.length s - j.
Proof. by rewrite slice_from_dropBytes, length_dropBytes. Qed.

Lemma get_slice_from s j k :
  String.get k (slice_from s j) = String.get (j + k) s.
Proof. by rewrite slice_from_dropBytes, get_dropBytes. Qed.

Lemma byte_is_slice_from s j k c :
  byte_is (slice_from s j) k c = byte_is s (j + k) c.
Proof. unfold byte_is. by rewrite get_slice_from. Qed.

Lemma slice_same s i : slice s i i = "".
Proof.
  unfold slice. rewrite Nat.sub_diag. revert i.
  induction s as [|a s IH]; intros [|i]; try done. apply IH.
Qed.

Lemma slice_full s i : slice s i (String.length s) = slice_from s i.
Proof. done. Qed.

Lemma get_lt s j c : String.get j s = Some c → (j < String.length s)%nat.
Proof.
  revert j. induction s as [|a s IH]; intros [|j]; cbn; try done; [lia|].
  intros H%IH. lia.
Qed.

Lemma get_is_Some s j : (j < String.length s)%nat → is_Some (String.get j s).
Proof.
  revert j. induction s as [|a s IH]; intros [|j]; cbn; try lia; [by eexists|].
  intros H. apply IH. lia.
Qed.

Lemma substring_snoc s i m c :
  String.get (i + m) s = Some c →
  String.substring i (S m) s = String.substring i m s +:+ String c "".
Proof.
  revert i m. induction s as [|a s IH]; intros i m; [by destruct (i + m)|].
  destruct i as [|i].
  - destruct m as [|m]; cbn [Nat.add String.get String.substring].
    + intros [= ->]. by destruct s.
    + intros H. rewrite (IH 0 m H). by rewrite append_cons.
  - cbn [Nat.add String.get String.substring]. apply IH.
Qed.

Lemma slice_snoc s i j c :
  (i ≤ j)%nat → String.get j s = Some c →
  slice s i (j + 1) = slice s i j +:+ String c "".
Proof.
  intros Hij Hc. unfold slice.
  replace (j + 1 - i) with (S (j - i)) by lia.
  apply substring_snoc. by replace (i + (j - i)) with j by lia.
Qed.

Lemma append_nil_r s : s +:+ "" = s.
Proof. induction s as [|c s IH]; [done|]. by rewrite append_cons, IH. Qed.

Lemma slice_from_ge s j : (String.length s ≤ j)%nat → slice_from s j = "".
Proof.
  intros H. pose proof (length_slice_from s j) as Hl.
  destruct (slice_from s j); [done|]. cbn in Hl. lia.
Qed.

Lemma scanBrace_bound t k i :
  scanBrace t k = Some i → (k ≤ i < k + String.length t)%nat.
Proof.
  revert k. induction t as [|c t IH]; intros k; cbn; [done|].
  destruct (Ascii.eqb c "}").
  - intros [= ->]. lia.
  - intros H%IH. lia.
Qed.

Lemma scanAlphaNum_bound t : (scanAlphaNum t ≤ String.length t)%nat.
Proof.
  induction t as [|c t IH]; cbn; [done|]. destruct (isAlphaNum c); lia.
Qed.

Lemma getShellName_width s :
  s ≠ "" → ((getShellName s).2 ≤ String.length s)%nat.
Proof.
  intros Hs. assert (1 ≤ String.length s)%nat as H1.
  { destruct s; [done|]. cbn. lia. }
  unfold getShellName. destruct (byte_is s 0 "{").
  - destruct (Nat.ltb_spec 2 (String.length s)); cbn [andb].
    + destruct (_ && _); cbn; [lia|].
      destruct (scanBrace _ 1) as [i|] eqn:Hi; [|done].
      apply scanBrace_bound in Hi. rewrite length_slice_from in Hi.
      destruct (i =? 1)%nat; cbn; lia.
    + destruct (scanBrace _ 1) as [i|] eqn:Hi; [|done].
      apply scanBrace_bound in Hi. rewrite length_slice_from in Hi.
      destruct (i =? 1)%nat; cbn; lia.
  - destruct (from_option _ _ _); cbn; [lia|]. apply scanAlphaNum_bound.
Qed.

Section ExpandSuffix.
Context {St : Type} (mapping : string → St → string * St).

Lemma ExpandLoop_suffix fuel s i j buf σ :
  (i ≤ j)%nat → (j ≤ String.length s)%nat →
  finishLoop s (ExpandLoop mapping fuel s i j buf σ)
  = prependOut (appendBuf buf (slice s i j))
      (finishLoop (slice_from s j)
         (ExpandLoop mapping fuel (slice_from s j) 0 0 None σ)).
Proof.
  revert s i j buf σ.
  induction fuel as [|fuel IH]; intros s i j buf σ Hij Hj.
  { cbn. unfold prependOut, appendBuf. cbn.
    by rewrite slice_from_0, append_nil_l, append_assoc, <-slice_split. }
  assert (Hafter : ∀ s' j' b σ', (j' ≤ String.length s')%nat →
    finishLoop s' (ExpandLoop mapping fuel s' j' j' (Some b) σ')
    = prependOut b (finishLoop (slice_from s' j')
        (ExpandLoop mapping fuel (slice_from s' j') 0 0 None σ'))).
  { intros s' j' b σ' Hj'. rewrite IH by lia. unfold appendBuf. cbn.
    by rewrite slice_same, append_nil_r. }
  assert (Hskip : (j < String.length s)%nat →
    finishLoop s (ExpandLoop mapping fuel s i (j + 1) buf σ)
    = prependOut (appendBuf buf (slice s i j))
        (finishLoop (slice_from s j)
           (ExpandLoop mapping fuel (slice_from s j) 0 1 None σ))).
  { intros Hlt. destruct (get_is_Some s j Hlt) as [c Hc].
    rewrite IH by lia.
    rewrite (IH (slice_from s j) 0 1) by (rewrite ?length_slice_from; lia).
    rewrite slice_from_slice_from.
    rewrite (slice_snoc s i j c) by done.
    assert (slice (slice_from s j) 0 1 = String c "") as ->.
    { change (slice (slice_from s j) 0 (0 + 1) = String c "").
      rewrite (slice_snoc (slice_from s j) 0 0 c), ?slice_same; try done.
      by rewrite get_slice_from, Nat.add_0_r. }
    unfold prependOut, appendBuf. cbn.
    by rewrite ?append_nil_l, ?append_assoc. }
  cbn [ExpandLoop]. rewrite length_slice_from, !Nat.add_0_l.
  destruct (Nat.ltb_spec j (String.length s)) as [Hlt|Hge].
  - rewrite (proj2 (Nat.ltb_lt 0 (String.length s - j))) by lia.
    rewrite byte_is_slice_from, Nat.add_0_r.
    replace (1 <? String.length s - j)%nat
      with (j + 1 <? String.length s)%nat
      by (destruct (Nat.ltb_spec (j + 1) (String.length s)),
                   (Nat.ltb_spec 1 (String.length s - j)); lia).
    rewrite slice_from_slice_from.
    destruct (byte_is s j "$") eqn:Hb; cbn [andb].
    + destruct (Nat.ltb_spec (j + 1) (String.length s)) as [Hlt1|Hge1].
      * pose proof (getShellName_width (slice_from s (j + 1))) as Hw.
        rewrite length_slice_from in Hw.
        destruct (getShellName (slice_from s (j + 1))) as [name w].
        cbn in Hw. rewrite ?Nat.add_0_l.
        assert (w ≤ String.length s - (j + 1))%nat as Hw'.
        { apply Hw. intros Hnil. apply (f_equal String.length) in Hnil.
          rewrite length_slice_from in Hnil. cbn in Hnil. lia. }
        assert (slice_from (slice_from s j) (w + 1)
                = slice_from s (j + w + 1)) as Hsuf.
        { rewrite slice_from_slice_from. f_equal. lia. }
        destruct (String.eqb name "" && (0 <? w)%nat);
          [|destruct (String.eqb name ""); [|destruct (mapping name σ)]];
          rewrite !Hafter by (rewrite ?length_slice_from; lia);
          rewrite Hsuf; unfold prependOut, appendBuf; cbn;
          by rewrite slice_same, ?append_nil_l, ?append_assoc.
      * by apply Hskip.
    + by apply Hskip.
  - assert (j = String.length s) as -> by lia.
    rewrite Nat.sub_diag. cbn [Nat.ltb Nat.leb].
    unfold finishLoop, prependOut, appendBuf. cbn.
    rewrite slice_full, slice_from_0, append_nil_l.
    by rewrite (slice_from_ge s (String.length s)), append_nil_r.
Qed.
End ExpandSuffix.

Section ExpandEquations.
Context {St : Type} (mapping : string → St → string * St).

Lemma ExpandLoop_nil_buffer fuel s i j buf σ :
  (buf = None → i = 0) →
  let '(i', buf', _) := ExpandLoop mapping fuel s i j buf σ in
  buf' = None → i' = 0.
Proof.
  revert i j buf σ. induction fuel as [|fuel IH]; intros i j buf σ H; [done|].
  cbn [ExpandLoop]. destruct (j <? String.length s)%nat; [|done].
  destruct (byte_is s j "$" && _); [|by apply IH].
  destruct (getShellName _) as [name w].
  destruct (String.eqb name "" && _);
    [|destruct (String.eqb name ""); [|destruct (mapping name σ)]];
    by apply IH.
Qed.

Lemma Expand_finishLoop s σ :
  Expand mapping s σ
  = finishLoop s (ExpandLoop mapping (S (String.length s)) s 0 0 None σ).
Proof.
  unfold Expand, finishLoop.
  pose proof (ExpandLoop_nil_buffer (S (String.length s)) s 0 0 None σ) as H.
  destruct (ExpandLoop mapping _ s 0 0 None σ) as [[i buf] σ'].
  destruct buf as [b|]; [done|]. rewrite (H (λ _, eq_refl) eq_refl).
  unfold appendBuf. cbn. by rewrite slice_from_0.
Qed.

Lemma Expand_nil σ : Expand mapping "" σ = ("", σ).
Proof. done. Qed.

Lemma ExpandLoop_S fuel s i j buf σ :
  ExpandLoop mapping (S fuel) s i j buf σ =
    if (j <? String.length s)%nat then
      if byte_is s j "$" && (j + 1 <? String.length s)%nat then
        let buf1 := appendBuf buf (slice s i j) in
        let '(name, w) := getShellName (slice_from s (j + 1)) in
        let '(x, σ') := expandToken mapping name w σ in
        ExpandLoop mapping fuel s (j + w + 1) (j + w + 1)
          (Some (if String.eqb name "" && (0 <? w)%nat then buf1
                 else buf1 +:+ x)) σ'
      else ExpandLoop mapping fuel s i (j + 1) buf σ
    else (i, buf, σ).
Proof.
  cbn [ExpandLoop]. destruct (j <? String.length s)%nat; [|done].
  destruct (byte_is s j "$" && _); [|done].
  destruct (getShellName _) as [name w]. unfold expandToken.
  destruct (String.eqb name "" && (0 <? w)%nat); [done|].
  destruct (String.eqb name ""); [done|]. by destruct (mapping name σ).
Qed.

(** A byte other than [$] is copied. *)
Lemma Expand_literal c t σ :
  c ≠ "$"%char →
  Expand mapping (String c t) σ
  = prependOut (String c "") (Expand mapping t σ).
Proof.
  intros Hc. rewrite (Expand_finishLoop (String c t)), ExpandLoop_S.
  cbn [String.length]. rewrite (proj2 (Nat.ltb_lt 0 _)) by lia.
  unfold byte_is at 1. cbn [String.get].
  rewrite bool_decide_false by congruence. cbn [andb Nat.add].
  rewrite ExpandLoop_suffix by (cbn; lia).
  rewrite slice_from_dropBytes. cbn [dropBytes].
  assert (slice (String c t) 0 1 = String c "") as ->.
  { unfold slice. cbn. by destruct t. }
  by rewrite Expand_finishLoop.
Qed.

(** A final [$] is copied. *)
Lemma Expand_last_dollar σ : Expand mapping "$" σ = ("$", σ).
Proof. done. Qed.

(** A [$] followed by at least one byte is handled as [getShellName] says,
    and expansion continues behind the bytes it consumed. *)
Lemma Expand_token t name w σ :
  t ≠ "" → getShellName t = (name, w) →
  Expand mapping (String "$" t) σ
  = let '(x, σ') := expandToken mapping name w σ in
    prependOut x (Expand mapping (dropBytes w t) σ').
Proof.
  intros Ht Hname. pose proof (getShellName_width t Ht) as Hw.
  rewrite Hname in Hw. cbn in Hw.
  rewrite Expand_finishLoop, ExpandLoop_S.
  cbn [String.length]. rewrite (proj2 (Nat.ltb_lt 0 _)) by lia.
  unfold byte_is at 1. cbn [String.get]. rewrite bool_decide_true by done.
  assert ((0 + 1 <? S (String.length t))%nat = true) as ->.
  { apply Nat.ltb_lt. destruct t; [done|]. cbn. lia. }
  cbn [andb].
  assert (slice_from (String "$" t) (0 + 1) = t) as ->.
  { by rewrite slice_from_dropBytes. }
  rewrite Hname. cbv zeta.
  destruct (expandToken mapping name w σ) as [x σ'] eqn:Hx.
  rewrite ExpandLoop_suffix by (cbn [String.length]; lia).
  rewrite slice_same, slice_from_dropBytes.
  replace (0 + w + 1) with (S w) by lia. cbn [dropBytes].
  rewrite (ExpandLoop_fuel mapping (S (String.length t))
             (S (String.length (dropBytes w t))))
    by (rewrite length_dropBytes; lia).
  rewrite <-Expand_finishLoop.
  unfold prependOut, appendBuf. cbn [fst snd from_option id].
  rewrite ?slice_same, ?append_nil_r, ?append_nil_l.
  destruct (String.eqb name "" && (0 <? w)%nat) eqn:Hbad; [|done].
  unfold expandToken in Hx. rewrite Hbad in Hx. by injection Hx as <- <-.
Qed.
End ExpandEquations.

(** ** Templates made of literal text and placeholders *)

Lemma dropBytes_append a b : dropBytes (String.length a) (a +:+ b) = b.
Proof. induction a as [|c a IH]; [done|]. by rewrite append_cons. Qed.

Lemma scanBrace_append n rest k :
  anyByte (λ c, Ascii.eqb c "}") n = false →
  scanBrace (n +:+ String "}" rest) k = Some (k + String.length n).
Proof.
  revert k. induction n as [|c n IH]; intros k; cbn [anyByte].
  - intros _. rewrite append_nil_l. cbn. f_equal. lia.
  - intros [Hc Hn]%orb_false_iff. rewrite append_cons. cbn [scanBrace].
    rewrite Hc, IH by done. cbn [String.length]. f_equal. lia.
Qed.

Lemma getShellName_brace n rest :
  n ≠ "" → anyByte (λ c, Ascii.eqb c "}") n = false →
  getShellName ("{" +:+ n +:+ "}" +:+ rest) = (n, String.length n + 2).
Proof.
  intros Hne Hn.
  change ("{" +:+ n +:+ "}" +:+ rest) with (String "{" (n +:+ String "}" rest)).
  unfold getShellName. unfold byte_is at 1. cbn [String.get].
  rewrite bool_decide_true by done.
  destruct (_ && _ && byte_is _ 2 "}") eqn:Hspecial.
  - apply andb_true_iff in Hspecial as [_ H2].
    apply bool_decide_eq_true in H2.
    destruct n as [|c [|d n]]; [done| |].
    + done.
    + rewrite !append_cons in H2. cbn [String.get] in H2.
      injection H2 as ->. cbn [anyByte] in Hn.
      by rewrite Ascii.eqb_refl, orb_true_r in Hn.
  - rewrite slice_from_dropBytes. cbn [dropBytes].
    rewrite scanBrace_append by done.
    destruct (Nat.eqb_spec (1 + String.length n) 1) as [Heq|_].
    { destruct n; [done|]. cbn in Heq. lia. }
    f_equal; [|lia]. unfold slice.
    replace (1 + String.length n - 1) with (String.length n) by lia.
    cbn [String.substring]. apply substring_append_l.
Qed.

Section ExpandRender.
Context {St : Type} (mapping : string → St → string * St).

Lemma Expand_append_literal text t σ :
  anyByte (λ c, Ascii.eqb c "$") text = false →
  Expand mapping (text +:+ t) σ = prependOut text (Expand mapping t σ).
Proof.
  induction text as [|c text IH]; cbn [anyByte].
  - intros _. rewrite append_nil_l. by destruct (Expand mapping t σ).
  - intros [Hc Htext]%orb_false_iff. rewrite append_cons.
    rewrite Expand_literal by (by apply Ascii.eqb_neq). rewrite IH by done.
    unfold prependOut. cbn. by rewrite append_cons.
Qed.

Lemma Expand_placeholder name t σ :
  name ≠ "" → anyByte (λ c, Ascii.eqb c "}") name = false →
  Expand mapping ("${" +:+ name +:+ "}" +:+ t) σ
  = let '(x, σ') := mapping name σ in prependOut x (Expand mapping t σ').
Proof.
  intros Hne Hname.
  change ("${" +:+ name +:+ "}" +:+ t)
    with (String "$" ("{" +:+ name +:+ "}" +:+ t)).
  rewrite (Expand_token mapping _ name (String.length name + 2))
    by (done || by apply getShellName_brace).
  unfold expandToken. rewrite (proj2 (String.eqb_neq name "")) by done.
  cbn [andb]. destruct (mapping name σ) as [x σ']. do 2 f_equal.
  change ("{" +:+ name +:+ "}" +:+ t) with (String "{" (name +:+ String "}" t)).
  replace (String.length name + 2) with (S (String.length name + 1)) by lia.
  cbn [dropBytes].
  rewrite dropBytes_add, dropBytes_append. done.
Qed.

(** [Expand] on a rendered template substitutes segment by segment. *)
Lemma Expand_render segs t σ :
  forallb segmentOK segs = true →
  Expand mapping (render segs +:+ t) σ
  = let '(out, σ') := substituteWith mapping segs σ in
    prependOut out (Expand mapping t σ').
Proof.
  revert σ. induction segs as [|[text|name] segs IH]; intros σ;
    cbn [forallb segmentOK render renderSegment substituteWith].
  - intros _. rewrite append_nil_l. by destruct (Expand mapping t σ).
  - intros [Hg Hsegs]%andb_true_iff. apply negb_true_iff in Hg.
    rewrite append_assoc, Expand_append_literal, IH by done.
    destruct (substituteWith mapping segs σ) as [out σ'].
    unfold prependOut. cbn. by rewrite append_assoc.
  - intros [[Hne Hg]%andb_true_iff Hsegs]%andb_true_iff.
    apply negb_true_iff in Hne, Hg. apply String.eqb_neq in Hne.
    rewrite !append_assoc, Expand_placeholder by done.
    destruct (mapping name σ) as [x σ1]. rewrite IH by done.
    destruct (substituteWith mapping segs σ1) as [out σ'].
    unfold prependOut. cbn. by rewrite append_assoc.
Qed.
End ExpandRender.

Lemma substituteWith_lookupOrMissing params segs (σ : gset string) :
  (substituteWith (lookupOrMissing params) segs σ).1 = substitute params segs.
Proof.
  revert σ. induction segs as [|[text|name] segs IH]; intros σ;
    cbn [substituteWith substitute]; [done| |].
  - unfold prependOut. cbn. by rewrite IH.
  - unfold lookupOrMissing, mapIndex.
    destruct (params !! name); cbn; by rewrite IH.
Qed.

Lemma substituteWith_recordName segs l :
  (substituteWith recordName segs l).2 = (l ++ segmentVars segs)%list.
Proof.
  revert l. induction segs as [|[text|name] segs IH]; intros l;
    cbn [substituteWith segmentVars omap].
  - by rewrite app_nil_r.
  - cbn. apply IH.
  - cbn. rewrite IH. by rewrite <-app_assoc.
Qed.

Lemma Expand_render_all {St} (mapping : string → St → string * St) segs σ :
  forallb segmentOK segs = true →
  Expand mapping (render segs) σ = substituteWith mapping segs σ.
Proof.
  intros Hok. rewrite <-(append_nil_r (render segs)).
  rewrite Expand_render by done.
  destruct (substituteWith mapping segs σ) as [out σ'].
  unfold prependOut. cbn. by rewrite append_nil_r.
Qed.

Lemma placeholders_render segs :
  forallb segmentOK segs = true → placeholders (render segs) = segmentVars segs.
Proof.
  intros Hok. unfold placeholders.
  by rewrite Expand_render_all, substituteWith_recordName.
Qed.

Lemma Expand_render_text params segs :
  forallb segmentOK segs = true →
  (Expand (lookupOrMissing params) (render segs) ∅).1 = substitute params segs.
Proof.
  intros Hok. by rewrite Expand_render_all, substituteWith_lookupOrMissing.
Qed.

Lemma resolveTemplate_render segs pvName pvc isName :
  forallb segmentOK segs = true →
  resolveTemplate (render segs) pvName pvc isName =
    match filter (λ n, templateParams pvName pvc isName !! n = None)
                 (segmentVars segs) with
    | [] =>
        if bool_decide (IsDNS1123Subdomain
             (substitute (templateParams pvName pvc isName) segs) = [])
        then Ok (substitute (templateParams pvName pvc isName) segs)
        else Err (ErrNotDNSName (render segs)
                    (substitute (templateParams pvName pvc isName) segs))
    | missing => Err (ErrInvalidTokens (merge_sort String.le (remove_dups missing)))
    end.
Proof.
  intros Hok. rewrite resolveTemplate_eq. cbv zeta.
  unfold missingTokens, uncovered.
  rewrite placeholders_render, Expand_render_text by done.
  by destruct (filter _ (segmentVars segs)).
Qed.

(** X1. For a template written as literal text without [$] and
    placeholders [${name}] whose names are non-empty and contain no [}],
    [resolveTemplate] reports the sorted set of names without a parameter
    if there is one; otherwise it replaces every placeholder, repeated ones
    included, by its value and returns the result if it is a DNS-1123
    subdomain, and the invalid-name error if not. *)
Theorem X1_resolveTemplate_substitutes (segs : list segment)
    (pvName : string) (pvc : PersistentVolumeClaim) (isName : bool) :
  forallb segmentOK segs = true →
  let params := templateParams pvName pvc isName in
  let resolved := substitute params segs in
  resolveTemplate (render segs) pvName pvc isName =
    match filter (λ n, params !! n = None) (segmentVars segs) with
    | [] =>
        if bool_decide (IsDNS1123Subdomain resolved = []) then Ok resolved
        else Err (ErrNotDNSName (render segs) resolved)
    | missing => Err (ErrInvalidTokens (merge_sort String.le (remove_dups missing)))
    end.
Proof. intros Hok params resolved. by apply resolveTemplate_render. Qed.

Lemma X1_resolveTemplate_substitutes_witness :
  resolveTemplate "${pv.name}-${pvc.name}.${pv.name}" "pv-foo" claimFoo true
    = Ok "pv-foo-foo.pv-foo"
  ∧ resolveTemplate "${b}-${pvc.name}-${a}-${b}" "pv-foo" claimFoo true
    = Err (ErrInvalidTokens ["a"; "b"]).
Proof.
  split.
  - exact (X1_resolveTemplate_substitutes
             [Var "pv.name"; Lit "-"; Var "pvc.name"; Lit "."; Var "pv.name"]
             "pv-foo" claimFoo true eq_refl).
  - exact (X1_resolveTemplate_substitutes
             [Var "b"; Lit "-"; Var "pvc.name"; Lit "-"; Var "a"; Lit "-"; Var "b"]
             "pv-foo" claimFoo true eq_refl).
Defined.

(** X2. For such a template, stored with or without one final newline,
    [genVolumeHandle] returns the text with every placeholder replaced by
    the import parameter of that name, or the invalid-tokens error listing
    the sorted set of names that have no import parameter. *)
Theorem X2_genVolumeHandle_substitutes (w : World) (v : VolumeImporter)
    (segs : list segment) (raw : string) :
  forallb segmentOK segs = true →
  ReadFile w (path_Join w (templatePath v) (sc_Provisioner (sc v))) = Ok raw →
  (raw = render segs ∧ HasSuffix raw LF = false)
  ∨ raw = render segs +:+ LF →
  genVolumeHandle w v =
    match filter (λ n, importParams v !! n = None) (segmentVars segs) with
    | [] => Ok (substitute (importParams v) segs)
    | missing => Err (ErrInvalidTokens (merge_sort String.le (remove_dups missing)))
    end.
Proof.
  intros Hok Hraw Hform. rewrite genVolumeHandle_eq, Hraw. cbn.
  assert (TrimSuffix raw LF = render segs) as ->.
  { destruct Hform as [[<- Hnl]| ->]; [|apply TrimSuffix_append].
    unfold TrimSuffix. by rewrite Hnl. }
  unfold missingTokens, uncovered.
  rewrite placeholders_render, Expand_render_text by done.
  by destruct (filter _ (segmentVars segs)).
Qed.

Lemma X2_genVolumeHandle_substitutes_witness :
  genVolumeHandle (sampleWorld (Ok ("vol-${pool}/${size}-${pool}" +:+ LF)) ∅ claimFoo)
    (sampleImporter {[ "size" := "10Gi"; "pool" := "Fast" ]})
  = Ok "vol-Fast/10Gi-Fast".
Proof.
  exact (X2_genVolumeHandle_substitutes
           (sampleWorld (Ok ("vol-${pool}/${size}-${pool}" +:+ LF)) ∅ claimFoo)
           (sampleImporter {[ "size" := "10Gi"; "pool" := "Fast" ]})
           [Lit "vol-"; Var "pool"; Lit "/"; Var "size"; Lit "-"; Var "pool"]
           _ eq_refl eq_refl (or_intror eq_refl)).
Defined.

(** X3. When both templates of a category are configured, non-empty
    and of that form, every placeholder is covered and both resolved
    strings are DNS-1123 subdomains, [GetSecret] returns the reference made
    of the two substituted texts. *)
Theorem X3_GetSecret_substitutes (scParams : gmap string string)
    (sType : secretType) (pvName : string) (pvc : PersistentVolumeClaim)
    (nsSegs nameSegs : list segment) :
  forallb segmentOK nsSegs = true → forallb segmentOK nameSegs = true →
  lookupWithAlias scParams (nsKey sType) (deprecatedNsKey sType)
    = (render nsSegs, true) →
  lookupWithAlias scParams (nameKey sType) (deprecatedNameKey sType)
    = (render nameSegs, true) →
  render nsSegs ≠ "" → render nameSegs ≠ "" →
  filter (λ n, templateParams pvName pvc false !! n = None)
         (segmentVars nsSegs) = [] →
  filter (λ n, templateParams pvName pvc true !! n = None)
         (segmentVars nameSegs) = [] →
  let ns := substitute (templateParams pvName pvc false) nsSegs in
  let name := substitute (templateParams pvName pvc true) nameSegs in
  IsDNS1123Subdomain ns = [] → IsDNS1123Subdomain name = [] →
  GetSecret scParams sType pvName pvc
  = Ok (Some {| sr_Namespace := ns; sr_Name := name |}).
Proof.
  intros Hok1 Hok2 Hns Hname Hne1 Hne2 Hv1 Hv2 ns name Hd1 Hd2.
  assert (resolveTemplate (render nsSegs) pvName pvc false = Ok ns) as Hr1.
  { rewrite resolveTemplate_render, Hv1 by done.
    fold ns. by rewrite bool_decide_true. }
  assert (resolveTemplate (render nameSegs) pvName pvc true = Ok name) as Hr2.
  { rewrite resolveTemplate_render, Hv2 by done.
    fold name. by rewrite bool_decide_true. }
  unfold GetSecret, getSecretTemplate. rewrite Hns, Hname.
  cbn [Bool.eqb negb andb mbind result_bind].
  rewrite (proj2 (String.eqb_neq _ _) Hne1), (proj2 (String.eqb_neq _ _) Hne2).
  cbn [orb]. by rewrite Hr1, Hr2.
Qed.

Lemma X3_GetSecret_substitutes_witness :
  GetSecret
    {[ "csi.storage.k8s.io/node-stage-secret-namespace" := "${pvc.namespace}";
       "node-stage-secret-name"
         := "${pvc.annotations['team']}.${pv.name}-stage" ]}
    NodeStageSecret "pv-foo" claimFoo
  = Ok (Some {| sr_Namespace := "ns1"; sr_Name := "platform.pv-foo-stage" |}).
Proof.
  apply (X3_GetSecret_substitutes _ NodeStageSecret "pv-foo" claimFoo
           [Var "pvc.namespace"]
           [Var "pvc.annotations['team']"; Lit "."; Var "pv.name"; Lit "-stage"]);
    by vm_compute.
Defined.

(** ** Volume attributes *)

Lemma HasPrefix_spec k p : HasPrefix k p = true ↔ ∃ r, k = p +:+ r.
Proof.
  unfold HasPrefix. revert k. induction p as [|a p IH]; intros k.
  - split; [|by destruct k]. intros _. by exists k.
  - destruct k as [|b k]; cbn [String.prefix].
    + split; [done|]. by intros [r Hr].
    + destruct (ascii_dec a b) as [->|Hne].
      * rewrite IH. split; intros [r Hr]; exists r.
        -- by rewrite append_cons, <-Hr.
        -- rewrite append_cons in Hr. by injection Hr.
      * split; [done|]. intros [r Hr]. rewrite append_cons in Hr.
        injection Hr as Hb _. by destruct Hne.
Qed.

Lemma genAttributes_lookup v k :
  genAttributes v !! k
  = if HasPrefix k csiParameterPrefix then None
    else sc_Parameters (sc v) !! k.
Proof.
  unfold genAttributes. rewrite map_lookup_filter.
  destruct (sc_Parameters (sc v) !! k) as [x|]; cbn [mbind option_bind fst].
  - destruct (HasPrefix k csiParameterPrefix).
    + by rewrite option_guard_False.
    + by rewrite option_guard_True.
  - by destruct (HasPrefix _ _).
Qed.

(** X4. The volume attributes are the storage-class parameters whose key
    does not start with [csi.storage.k8s.io/], with their values: no key
    with that prefix is an attribute (so neither a canonical secret key nor
    the fsType key), every other key is kept, the deprecated secret keys
    included. *)
Theorem X4_genAttributes_keys (v : VolumeImporter) :
  (∀ r, genAttributes v !! ("csi.storage.k8s.io/" +:+ r) = None)
  ∧ (∀ k, (∀ r, k ≠ "csi.storage.k8s.io/" +:+ r) →
          genAttributes v !! k = sc_Parameters (sc v) !! k)
  ∧ genAttributes v ⊆ sc_Parameters (sc v)
  ∧ (∀ sType,
       genAttributes v !! nsKey sType = None
       ∧ genAttributes v !! nameKey sType = None
       ∧ genAttributes v !! deprecatedNsKey sType
         = sc_Parameters (sc v) !! deprecatedNsKey sType
       ∧ genAttributes v !! deprecatedNameKey sType
         = sc_Parameters (sc v) !! deprecatedNameKey sType)
  ∧ genAttributes v !! "csi.storage.k8s.io/fsType" = None.
Proof.
  split_and!.
  - intros r. rewrite genAttributes_lookup.
    by rewrite (proj2 (HasPrefix_spec _ _)) by by exists r.
  - intros k Hk. rewrite genAttributes_lookup.
    destruct (HasPrefix k csiParameterPrefix) eqn:Hp; [|done].
    apply HasPrefix_spec in Hp as [r ->]. by destruct (Hk r).
  - apply map_filter_subseteq.
  - intros sType. rewrite !genAttributes_lookup. by destruct sType.
  - by rewrite genAttributes_lookup.
Qed.

(** ** Outcome of a run *)

Lemma main_cases w kubeconfig ns file params tpath :
  (main w kubeconfig ns file params tpath).2 = []
    ∧ (main w kubeconfig ns file params tpath).1 ≠ 0
  ∨ ∃ v pv,
      NewVolumeImporter w kubeconfig ns file params tpath = Ok v
      ∧ (createPV w v []).2 = [CreatePV pv]
      ∧ main w kubeconfig ns file params tpath =
          match PersistentVolumes_Create w pv with
          | Ok _ =>
              (match PersistentVolumeClaims_Create w ns (pvc v) with
               | Ok _ => 0 | Err _ => 1 | Panic => 2 end,
               [CreatePV pv; CreatePVC ns (pvc v)])
          | Err _ => (1, [CreatePV pv])
          | Panic => (2, [CreatePV pv])
          end.
Proof.
  unfold main.
  destruct (NewVolumeImporter w kubeconfig ns file params tpath) as [v| |] eqn:Hv;
    [|by left..].
  right.
  destruct (NewVolumeImporter_fields _ _ _ _ _ _ _ Hv)
    as (Hns&_&_&_&(scName&Hsc&_)&_).
  eexists v, _. split; [done|].
  unfold Import, createPV, createPVC. rewrite Hsc, Hns. cbn.
  split; [done|].
  destruct (PersistentVolumes_Create w _); [|done..].
  by destruct (PersistentVolumeClaims_Create w _ _).
Qed.

(** X5. A run sends no create request, or the volume request alone when
    the API server did not accept it, or the volume request followed by the
    claim request in the target namespace.  The exit status is 0 exactly
    when both requests were sent and accepted. *)
Theorem X5_main_outcome (w : World) (kubeconfig ns file : string)
    (params : gmap string string) (tpath : string) :
  let r := main w kubeconfig ns file params tpath in
  (r.2 = []
   ∨ (∃ pv, r.2 = [CreatePV pv] ∧ PersistentVolumes_Create w pv ≠ Ok ())
   ∨ (∃ pv claim, r.2 = [CreatePV pv; CreatePVC ns claim]
                  ∧ PersistentVolumes_Create w pv = Ok ()))
  ∧ (r.1 = 0 ↔
     ∃ pv claim, r.2 = [CreatePV pv; CreatePVC ns claim]
                 ∧ PersistentVolumes_Create w pv = Ok ()
                 ∧ PersistentVolumeClaims_Create w ns claim = Ok ()).
Proof.
  cbv zeta.
  destruct (main_cases w kubeconfig ns file params tpath)
    as [[Hnil Hst]|(v & pv & Hv & Hpv & ->)].
  - split; [by left|]. split; [done|]. intros (pv & claim & H & _).
    by rewrite Hnil in H.
  - destruct (PersistentVolumes_Create w pv) as [[]| |] eqn:Hc1; cbn.
    + split; [right; right; by eexists _, _|].
      destruct (PersistentVolumeClaims_Create w ns (pvc v)) as [[]| |] eqn:Hc2.
      * split; [|done]. intros _. by eexists _, _.
      * split; [done|]. intros (pv' & claim & [= <- <-] & _ & H). congruence.
      * split; [done|]. intros (pv' & claim & [= <- <-] & _ & H). congruence.
    + split; [right; left; exists pv; split; [done|congruence]|].
      split; [done|]. by intros (pv' & claim & [=] & _).
    + split; [right; left; exists pv; split; [done|congruence]|].
      split; [done|]. by intros (pv' & claim & [=] & _).
Qed.

(** X6. The volume record a run sends is built from the parsed claim and
    its storage class: it is named [pv-] plus the claim name, carries the
    claim's storage class name, access modes and storage request (["0"] when
    the claim has none), is bound to the claim by a reference with the
    target namespace and the claim name, names the provisioner as driver and
    in the provisioned-by annotation, is not read-only, and has the
    unprefixed storage-class parameters as attributes.  The claim request
    carries the parsed claim with the target namespace. *)
Theorem X6_volume_record (w : World) (kubeconfig ns file : string)
    (params : gmap string string) (tpath : string) (pv : PersistentVolume) :
  CreatePV pv ∈ (main w kubeconfig ns file params tpath).2 →
  ∃ claim0 sc0,
    parsePVCfile w file = Ok claim0
    ∧ pvc_StorageClassName claim0 = Some (pv_StorageClassName pv)
    ∧ StorageClasses_Get w (pv_StorageClassName pv) = Ok sc0
    ∧ pv_Name pv = "pv-" +:+ pvc_Name claim0
    ∧ pv_Annotations pv
      = {[ "pv.kubernetes.io/provisioned-by" := sc_Provisioner sc0 ]}
    ∧ pv_Capacity pv
      = {[ "storage" := default "0" (pvc_Requests claim0 !! "storage") ]}
    ∧ pv_AccessModes pv = pvc_AccessModes claim0
    ∧ pv_ClaimRef pv
      = {| ref_Kind := "PersistentVolumeClaim"; ref_APIVersion := "v1";
           ref_Namespace := ns; ref_Name := pvc_Name claim0 |}
    ∧ csi_Driver pv = sc_Provisioner sc0
    ∧ csi_ReadOnly pv = false
    ∧ csi_VolumeAttributes pv
      = filter (λ kv, HasPrefix kv.1 "csi.storage.k8s.io/" = false)
               (sc_Parameters sc0)
    ∧ ∀ ns' claim,
        CreatePVC ns' claim ∈ (main w kubeconfig ns file params tpath).2 →
        ns' = ns ∧ claim = set_pvc_Namespace ns claim0.
Proof.
  destruct (main_cases w kubeconfig ns file params tpath)
    as [[Hnil _]|(v & pv' & Hv & Hpv & Hmain)].
  { rewrite Hnil. by intros ?%elem_of_nil. }
  destruct (NewVolumeImporter_fields _ _ _ _ _ _ _ Hv)
    as (Hns&_&_&(claim0&Hparse&Hpvc)&(scName&Hsc&Hget)&Hname&Hcap&_&_&Hro&_&_&Hattr).
  assert (Hcalls : ∀ c, c ∈ (main w kubeconfig ns file params tpath).2 →
            c = CreatePV pv' ∨ c = CreatePVC ns (pvc v)).
  { intros c. rewrite Hmain.
    destruct (PersistentVolumes_Create w pv'); cbn;
      rewrite ?elem_of_cons, ?elem_of_nil; tauto. }
  intros Hin. destruct (Hcalls _ Hin) as [[= ->]|?]; [|done].
  unfold createPV in Hpv. rewrite Hsc in Hpv. cbn in Hpv.
  injection Hpv as <-. cbn.
  exists claim0, (sc v). rewrite Hpvc in Hsc, Hname, Hcap |- *. cbn in *.
  split_and!; try done.
  - by rewrite Hcap.
  - intros ns' claim Hin'. by destruct (Hcalls _ Hin') as [?|[= -> ->]].
Qed.

Lemma X6_volume_record_witness :
  ∃ pv,
    CreatePV pv ∈ (main (sampleWorld (Ok "vol-1") {[ "pool" := "a" ]} claimFoo)
                     "kubeconfig" "prod" "claim.yaml" ∅ "config").2
    ∧ pv_Name pv = "pv-foo"
    ∧ ref_Namespace (pv_ClaimRef pv) = "prod".
Proof.
  assert (∃ pv, CreatePV pv
            ∈ (main (sampleWorld (Ok "vol-1") {[ "pool" := "a" ]} claimFoo)
                 "kubeconfig" "prod" "claim.yaml" ∅ "config").2) as [pv Hpv].
  { eexists. vm_compute. apply list_elem_of_here. }
  exists pv. split; [done|].
  destruct (X6_volume_record _ _ _ _ _ _ pv Hpv)
    as (claim0 & sc0 & Hparse & _ & _ & -> & _ & _ & _ & -> & _).
  vm_compute in Hparse. by injection Hparse as <-.
Defined.

(** ** Failures before the volume handle is derived *)

(** X7. An error while connecting is returned as it is; an error while
    reading or decoding the claim file, or a file that holds another kind of
    object, gives the parse-file error naming the file; an error while
    fetching the storage class gives the get-storage-class error naming the
    class.  Whenever [NewVolumeImporter] returns an error, [main] exits with
    status 1 and sends nothing. *)
Theorem X7_setup_errors (w : World) (kubeconfig ns file : string)
    (params : gmap string string) (tpath : string) :
  let run := NewVolumeImporter w kubeconfig ns file params tpath in
  (∀ e, BuildConfigFromFlags w kubeconfig = Err e → run = Err e)
  ∧ (∀ config e, BuildConfigFromFlags w kubeconfig = Ok config →
       NewForConfig w config = Err e → run = Err e)
  ∧ (∀ config, BuildConfigFromFlags w kubeconfig = Ok config →
       NewForConfig w config = Ok () →
       (∀ e, ReadFile w file = Err e → run = Err (ErrParseFile file e))
       ∧ (∀ raw e, ReadFile w file = Ok raw → Decode w raw = Err e →
            run = Err (ErrParseFile file e))
       ∧ (∀ raw kind, ReadFile w file = Ok raw →
            Decode w raw = Ok (ObjOther kind) →
            run = Err (ErrParseFile file (ErrNotPVC file)))
       ∧ (∀ claim0 scName e, parsePVCfile w file = Ok claim0 →
            pvc_StorageClassName claim0 = Some scName →
            StorageClasses_Get w scName = Err e →
            run = Err (ErrGetStorageClass scName e)))
  ∧ (∀ e, run = Err e →
       main w kubeconfig ns file params tpath = (1, [])).
Proof.
  cbv zeta. unfold NewVolumeImporter, parsePVCfile. split_and!.
  - by intros e ->.
  - intros config e -> H. cbn. by rewrite H.
  - intros config -> Hn. cbn. rewrite Hn. cbn. split_and!.
    + by intros e ->.
    + intros raw e -> H. cbn. by rewrite H.
    + intros raw kind -> H. cbn. by rewrite H.
    + intros claim0 scName e -> Hs Hg. cbn. by rewrite Hs, Hg.
  - intros e He. unfold main, NewVolumeImporter, parsePVCfile. by rewrite He.
Qed.

(** X8. A claim without a storage class name makes [NewVolumeImporter]
    dereference a nil pointer: the run panics (status 2) before any
    create request. *)
Theorem X8_missing_storage_class_panics (w : World)
    (kubeconfig ns file : string) (params : gmap string string)
    (tpath config : string) (claim0 : PersistentVolumeClaim) :
  BuildConfigFromFlags w kubeconfig = Ok config →
  NewForConfig w config = Ok () →
  parsePVCfile w file = Ok claim0 →
  pvc_StorageClassName claim0 = None →
  NewVolumeImporter w kubeconfig ns file params tpath = Panic
  ∧ main w kubeconfig ns file params tpath = (2, []).
Proof.
  intros Hc Hn Hp Hs.
  assert (NewVolumeImporter w kubeconfig ns file params tpath = Panic) as H.
  { unfold NewVolumeImporter. rewrite Hc. cbn. rewrite Hn. cbn.
    rewrite Hp. cbn. by rewrite Hs. }
  split; [done|]. unfold main. by rewrite H.
Qed.

Lemma X8_missing_storage_class_panics_witness :
  main (sampleWorld (Ok "vol-1") ∅
          (set_pvc_Namespace "x"
             {| pvc_Name := "foo"; pvc_Namespace := ""; pvc_Annotations := ∅;
                pvc_StorageClassName := None; pvc_AccessModes := [];
                pvc_Requests := ∅; pvc_VolumeMode := None |}))
    "kubeconfig" "ns1" "claim.yaml" ∅ "config" = (2, []).
Proof.
  eapply X8_missing_storage_class_panics; by vm_compute.
Defined.

(** ** Secrets *)

Lemma resolveTemplate_no_panic template pvName pvc isName :
  resolveTemplate template pvName pvc isName ≠ Panic.
Proof.
  rewrite resolveTemplate_eq. cbv zeta. by repeat case_bool_decide.
Qed.

Lemma GetSecret_no_panic scParams sType pvName pvc :
  GetSecret scParams sType pvName pvc ≠ Panic.
Proof.
  unfold GetSecret, getSecretTemplate.
  destruct (lookupWithAlias scParams (nsKey sType) _) as [nsTempl nsOK].
  destruct (lookupWithAlias scParams (nameKey sType) _) as [nameTempl nameOK].
  destruct (negb (Bool.eqb nsOK nameOK)); [done|].
  destruct (negb nsOK && negb nameOK); cbn; [done|].
  destruct (_ || _); [done|].
  pose proof (resolveTemplate_no_panic nsTempl pvName pvc false).
  pose proof (resolveTemplate_no_panic nameTempl pvName pvc true).
  destruct (resolveTemplate nsTempl _ _ _); cbn; try done.
  by destruct (resolveTemplate nameTempl _ _ _).
Qed.

(** X9. [setSecret] resolves the categories in the order
    controller-publish, node-stage, node-publish, controller-expand.  It
    returns no error exactly when all four resolutions succeed, and the four
    fields then hold their results; an error it returns is that of the first
    failing category, the ones before it having succeeded; when the first
    category fails the other three fields are left as they were.  It never
    panics. *)
Theorem X9_setSecret_first_error (v : VolumeImporter) :
  let get sType := GetSecret (sc_Parameters (sc v)) sType (pvName v) (pvc v) in
  ((setSecret v).2 = Ok () ↔ ∀ t, t ∈ setSecretOrder → ∃ s, get t = Ok s)
  ∧ (∀ e, (setSecret v).2 = Err e →
       ∃ before t after,
         setSecretOrder = (before ++ t :: after)%list
         ∧ get t = Err e
         ∧ ∀ t', t' ∈ before → ∃ s, get t' = Ok s)
  ∧ (setSecret v).2 ≠ Panic
  ∧ (∀ s, get ControllerPublishSecret = Ok s →
          controllerPublishSecret (setSecret v).1 = s)
  ∧ (∀ e, get ControllerPublishSecret = Err e →
          nodeStageSecret (setSecret v).1 = nodeStageSecret v
          ∧ nodePublishSecret (setSecret v).1 = nodePublishSecret v
          ∧ controllerExpandSecret (setSecret v).1 = controllerExpandSecret v)
  ∧ ((setSecret v).2 = Ok () →
       get ControllerPublishSecret = Ok (controllerPublishSecret (setSecret v).1)
       ∧ get NodeStageSecret = Ok (nodeStageSecret (setSecret v).1)
       ∧ get NodePublishSecret = Ok (nodePublishSecret (setSecret v).1)
       ∧ get ControllerExpandSecret
         = Ok (controllerExpandSecret (setSecret v).1)).
Proof.
  cbv zeta. unfold setSecret, assignSecret, setSecretOrder.
  pose proof (GetSecret_no_panic (sc_Parameters (sc v))
                ControllerPublishSecret (pvName v) (pvc v)) as P1.
  pose proof (GetSecret_no_panic (sc_Parameters (sc v))
                NodeStageSecret (pvName v) (pvc v)) as P2.
  pose proof (GetSecret_no_panic (sc_Parameters (sc v))
                NodePublishSecret (pvName v) (pvc v)) as P3.
  pose proof (GetSecret_no_panic (sc_Parameters (sc v))
                ControllerExpandSecret (pvName v) (pvc v)) as P4.
  assert (Hall : ∀ P : secretType → Prop,
    (∀ t, t ∈ [ControllerPublishSecret; NodeStageSecret; NodePublishSecret;
               ControllerExpandSecret] → P t)
    ↔ P ControllerPublishSecret ∧ P NodeStageSecret
      ∧ P NodePublishSecret ∧ P ControllerExpandSecret).
  { intros P. split.
    - intros H. split_and!; apply H; set_solver.
    - intros (H1&H2&H3&H4) t Ht.
      repeat (apply elem_of_cons in Ht as [->|Ht]; [done|]).
      by apply elem_of_nil in Ht. }
  rewrite Hall. clear Hall.
  destruct (GetSecret _ ControllerPublishSecret _ _) as [s1|e1|] eqn:G1; [| |done].
  2:{ cbn. split_and!; try done.
      - split; [done|]. by intros ([s ?]&_).
      - intros e [= ->]. eexists [], ControllerPublishSecret, _. split_and!; [reflexivity|done|].
        by intros t ?%elem_of_nil. }
  destruct (GetSecret _ NodeStageSecret _ _) as [s2|e2|] eqn:G2; [| |done].
  2:{ cbn. split_and!; try done.
      - split; [done|]. by intros (_&[s ?]&_).
      - intros e [= ->]. eexists [ControllerPublishSecret], NodeStageSecret, _.
        split_and!; [reflexivity|done|]. intros t ->%list_elem_of_singleton. by eexists.
      - by intros s [= ->]. }
  destruct (GetSecret _ NodePublishSecret _ _) as [s3|e3|] eqn:G3; [| |done].
  2:{ cbn. split_and!; try done.
      - split; [done|]. by intros (_&_&[s ?]&_).
      - intros e [= ->].
        eexists [ControllerPublishSecret; NodeStageSecret], NodePublishSecret, _.
        split_and!; [reflexivity|done|]. intros t Ht.
        repeat (apply elem_of_cons in Ht as [->|Ht]; [by eexists|]).
        by apply elem_of_nil in Ht.
      - by intros s [= ->]. }
  destruct (GetSecret _ ControllerExpandSecret _ _) as [s4|e4|] eqn:G4; [| |done].
  2:{ cbn. split_and!; try done.
      - split; [done|]. by intros (_&_&_&[s ?]).
      - intros e [= ->].
        eexists [ControllerPublishSecret; NodeStageSecret; NodePublishSecret],
          ControllerExpandSecret, _.
        split_and!; [reflexivity|done|]. intros t Ht.
        repeat (apply elem_of_cons in Ht as [->|Ht]; [by eexists|]).
        by apply elem_of_nil in Ht.
      - by intros s [= ->]. }
  cbn. split_and!; try done.
  - split; [|done]. intros _. split_and!; by eexists.
  - by intros s [= ->].
Qed.

Lemma IsDNS1123Subdomain_nil x :
  IsDNS1123Subdomain x = [] →
  (String.length x ≤ 253)%nat ∧ MatchString dns1123SubdomainFmt x = true.
Proof.
  unfold IsDNS1123Subdomain, DNS1123SubdomainMaxLength.
  destruct (Nat.ltb_spec 253 (String.length x)); [done|].
  destruct (MatchString dns1123SubdomainFmt x); [|done]. intros _. split; [lia|done].
Qed.

Lemma outside_alphabet_avoids c :
  dashLowerAlnum c || Ascii.eqb c "." = false →
  avoids c dns1123SubdomainFmt = true.
Proof. destruct c as [[] [] [] [] [] [] [] []]; by vm_compute. Qed.

Lemma not_alnum_first c :
  lowerAlnum c = false → dead (deriv c dns1123SubdomainFmt) = true.
Proof. destruct c as [[] [] [] [] [] [] [] []]; by vm_compute. Qed.

Lemma not_alnum_last c :
  lowerAlnum c = false → noTrailing c dns1123SubdomainFmt = true.
Proof. destruct c as [[] [] [] [] [] [] [] []]; by vm_compute. Qed.

Lemma IsDNS1123Subdomain_shape x :
  IsDNS1123Subdomain x = [] → dnsNameShape x = true.
Proof.
  intros [Hlen Hm]%IsDNS1123Subdomain_nil. unfold dnsNameShape.
  repeat (apply andb_true_iff; split).
  - destruct x; [by vm_compute in Hm|done].
  - by apply Nat.leb_le.
  - apply negb_true_iff.
    destruct (anyByte _ x) eqn:Hany; [|done].
    apply anyByte_split in Hany as (s1 & c & s2 & -> & Hc%negb_true_iff).
    by rewrite avoids_MatchString in Hm by by apply outside_alphabet_avoids.
  - destruct x as [|c x]; [by vm_compute in Hm|]. cbn.
    destruct (lowerAlnum c) eqn:Hc; [done|].
    change (MatchString (deriv c dns1123SubdomainFmt) x = true) in Hm.
    by rewrite dead_MatchString in Hm by by apply not_alnum_first.
  - destruct (lastByte x) as [c|] eqn:Hl; cbn.
    + destruct (lowerAlnum c) eqn:Hc; [done|].
      apply lastByte_split in Hl as [x' ->].
      by rewrite noTrailing_MatchString in Hm by by apply not_alnum_last.
    + destruct x as [|c x]; [by vm_compute in Hm|].
      exfalso. clear -Hl. revert c Hl.
      induction x as [|d x IH]; intros c; [done|]. apply (IH d).
Qed.

(** X10. Both components of a secret reference returned by [GetSecret]
    are non-empty, at most 253 bytes long, made of lower-case letters,
    digits, [-] and [.] only, and begin and end with a letter or digit. *)
Theorem X10_secret_reference_shape (scParams : gmap string string)
    (sType : secretType) (pvName : string) (pvc : PersistentVolumeClaim)
    (ref : SecretReference) :
  GetSecret scParams sType pvName pvc = Ok (Some ref) →
  dnsNameShape (sr_Namespace ref) = true ∧ dnsNameShape (sr_Name ref) = true.
Proof.
  intros [H1 H2]%GetSecret_valid. split; by apply IsDNS1123Subdomain_shape.
Qed.

Lemma X10_secret_reference_shape_witness :
  dnsNameShape "ns1" = true ∧ dnsNameShape "pv-foo-stage" = true.
Proof.
  apply (X10_secret_reference_shape
           {[ "csi.storage.k8s.io/node-stage-secret-namespace" := "${pvc.namespace}";
              "csi.storage.k8s.io/node-stage-secret-name" := "${pv.name}-stage" ]}
           NodeStageSecret "pv-foo" claimFoo
           {| sr_Namespace := "ns1"; sr_Name := "pv-foo-stage" |}).
  by vm_compute.
Defined.

(** X11. When both templates of a category are configured and one of
    them is the empty string, [GetSecret] returns no secret and no error;
    the other template is neither resolved nor validated. *)
Theorem X11_empty_template_no_secret (scParams : gmap string string)
    (sType : secretType) (pvName : string) (pvc : PersistentVolumeClaim)
    (nsTempl nameTempl : string) :
  lookupWithAlias scParams (nsKey sType) (deprecatedNsKey sType)
    = (nsTempl, true) →
  lookupWithAlias scParams (nameKey sType) (deprecatedNameKey sType)
    = (nameTempl, true) →
  nsTempl = "" ∨ nameTempl = "" →
  GetSecret scParams sType pvName pvc = Ok None.
Proof.
  intros Hns Hname Hempty. unfold GetSecret, getSecretTemplate.
  rewrite Hns, Hname. cbn.
  destruct Hempty as [->| ->]; [done|]. by rewrite orb_true_r.
Qed.

Lemma X11_empty_template_no_secret_witness :
  GetSecret {[ "csi.storage.k8s.io/node-publish-secret-namespace" := "";
               "csi.storage.k8s.io/node-publish-secret-name" := "Not_A_Name-${x}" ]}
    NodePublishSecret "pv-foo" claimFoo = Ok None.
Proof.
  eapply X11_empty_template_no_secret; [by vm_compute..|by left].
Defined.

(** ** Command line *)

(** X12. The program uses the [--kubeconfig] flag when it is given and
    the [KUBECONFIG] variable otherwise, and the [IMPORT_VOLUME_TEMPLATE]
    variable as template directory when it is set and [./config] otherwise.
    Without a kubeconfig or without a file name it exits with status 1 and
    sends nothing; otherwise it runs [main] with these values. *)
Theorem X12_program_start (w : World)
    (kubeconfigFlag namespaceFlag fileFlag : string)
    (importParams : gmap string string) (Getenv : string → string) :
  let kubeconfig :=
    if String.eqb kubeconfigFlag "" then Getenv "KUBECONFIG"
    else kubeconfigFlag in
  let templatePath :=
    if String.eqb (Getenv "IMPORT_VOLUME_TEMPLATE") "" then "./config"
    else Getenv "IMPORT_VOLUME_TEMPLATE" in
  (kubeconfig = "" ∨ fileFlag = "" →
     program w kubeconfigFlag namespaceFlag fileFlag importParams Getenv
     = (1, []))
  ∧ (kubeconfig ≠ "" → fileFlag ≠ "" →
     program w kubeconfigFlag namespaceFlag fileFlag importParams Getenv
     = main w kubeconfig namespaceFlag fileFlag importParams templatePath).
Proof.
  cbv zeta. unfold program, init.
  destruct (String.eqb_spec kubeconfigFlag "") as [->|Hk];
    destruct (String.eqb_spec (Getenv "KUBECONFIG") "") as [He|He];
    destruct (String.eqb_spec fileFlag "") as [->|Hf];
    destruct (String.eqb_spec (Getenv "IMPORT_VOLUME_TEMPLATE") "") as [Ht|Ht];
    cbn; rewrite ?He; cbn;
    repeat match goal with
    | H : ?x ≠ "" |- context [String.eqb ?x ""] =>
        rewrite (proj2 (String.eqb_neq x "") H); cbn
    end;
    split; try done; try (intros [?|?]; done); try (intros ? ?; done).
Qed.

(** ** Malformed placeholders *)

Lemma scanBrace_none t k :
  anyByte (λ c, Ascii.eqb c "}") t = false → scanBrace t k = None.
Proof.
  revert k. induction t as [|c t IH]; intros k; cbn; [done|].
  intros [-> Ht]%orb_false_iff. by apply IH.
Qed.

Lemma getShellName_unclosed t :
  anyByte (λ c, Ascii.eqb c "}") t = false →
  getShellName (String "{" t) = ("", 1).
Proof.
  intros Ht. unfold getShellName. unfold byte_is at 1. cbn [String.get].
  rewrite bool_decide_true by done.
  assert (byte_is (String "{" t) 2 "}" = false) as ->.
  { unfold byte_is. apply bool_decide_eq_false. cbn [String.get].
    destruct t as [|c [|d t]]; try done. cbn [String.get anyByte] in *.
    apply orb_false_iff in Ht as [_ [Hd _]%orb_false_iff].
    intros [= ->]. by rewrite Ascii.eqb_refl in Hd. }
  rewrite andb_false_r, slice_from_dropBytes. cbn [dropBytes].
  by rewrite scanBrace_none.
Qed.

Lemma getShellName_empty_braces t : getShellName (String "{" (String "}" t)) = ("", 2).
Proof.
  unfold getShellName. unfold byte_is at 1. cbn [String.get].
  rewrite bool_decide_true by done. cbn [String.get from_option].
  change (isShellSpecialVar "}") with false. by rewrite andb_false_r.
Qed.

Lemma Expand_plain {St} (mapping : string → St → string * St) t σ :
  anyByte (λ c, Ascii.eqb c "$") t = false → Expand mapping t σ = (t, σ).
Proof.
  intros Ht. rewrite <-(append_nil_r t) at 1.
  rewrite Expand_append_literal by done. unfold prependOut. cbn.
  by rewrite append_nil_r.
Qed.

Lemma Expand_malformed {St} (mapping : string → St → string * St) t1 t2 σ :
  anyByte (λ c, Ascii.eqb c "$") t1 = false →
  anyByte (λ c, Ascii.eqb c "$") t2 = false →
  (anyByte (λ c, Ascii.eqb c "}") t2 = false →
     Expand mapping (t1 +:+ "${" +:+ t2) σ = (t1 +:+ t2, σ))
  ∧ Expand mapping (t1 +:+ "${}" +:+ t2) σ = (t1 +:+ t2, σ).
Proof.
  intros H1 H2. split; [intros Hb|]; rewrite Expand_append_literal by done.
  - change ("${" +:+ t2) with (String "$" (String "{" t2)).
    rewrite (Expand_token mapping _ "" 1) by (done || by apply getShellName_unclosed).
    cbn [expandToken String.eqb andb Nat.ltb Nat.leb dropBytes].
    rewrite Expand_plain by done. unfold prependOut. cbn.
    by rewrite append_nil_l.
  - change ("${}" +:+ t2) with (String "$" (String "{" (String "}" t2))).
    rewrite (Expand_token mapping _ "" 2)
      by (done || apply getShellName_empty_braces).
    cbn [expandToken String.eqb andb Nat.ltb Nat.leb dropBytes].
    rewrite Expand_plain by done. unfold prependOut. cbn.
    by rewrite append_nil_l.
Qed.

(** X13. A template whose only [$] opens a brace that is never closed,
    or the empty braces [${}], is not rejected: [genVolumeHandle] deletes
    the [${], respectively the [${}], and returns the remaining text
    whatever the import parameters are. *)
Theorem X13_malformed_placeholder_dropped (w : World) (v : VolumeImporter)
    (raw t1 t2 : string) :
  ReadFile w (path_Join w (templatePath v) (sc_Provisioner (sc v))) = Ok raw →
  anyByte (λ c, Ascii.eqb c "$") t1 = false →
  anyByte (λ c, Ascii.eqb c "$") t2 = false →
  (TrimSuffix raw LF = t1 +:+ "${" +:+ t2
     ∧ anyByte (λ c, Ascii.eqb c "}") t2 = false)
  ∨ TrimSuffix raw LF = t1 +:+ "${}" +:+ t2 →
  genVolumeHandle w v = Ok (t1 +:+ t2).
Proof.
  intros Hraw H1 H2 Hform. unfold genVolumeHandle. rewrite Hraw. cbn.
  destruct (Expand_malformed (lookupOrMissing (importParams v)) t1 t2 ∅ H1 H2)
    as [Ha Hb].
  destruct Hform as [[-> Hc]| ->]; by rewrite ?Ha, ?Hb.
Qed.

Lemma X13_malformed_placeholder_dropped_witness :
  genVolumeHandle (sampleWorld (Ok ("vol-${size" +:+ LF)) ∅ claimFoo)
    (sampleImporter ∅) = Ok "vol-size".
Proof.
  apply (X13_malformed_placeholder_dropped _ _ ("vol-${size" +:+ LF) "vol-" "size");
    [by vm_compute..|]. left. by vm_compute.
Defined.

(** ** The invalid-tokens error *)

Lemma ExpandLoop_names_nonempty fuel s i j buf l :
  Forall (λ k, k ≠ "") l →
  Forall (λ k, k ≠ "") (ExpandLoop recordName fuel s i j buf l).2.
Proof.
  revert i j buf l. induction fuel as [|fuel IH]; intros i j buf l Hl; [done|].
  cbn [ExpandLoop]. destruct (j <? String.length s)%nat; [|done].
  destruct (byte_is s j "$" && _); [|by apply IH].
  destruct (getShellName _) as [name w].
  destruct (String.eqb name "" && _); [by apply IH|].
  destruct (String.eqb_spec name ""); [by apply IH|].
  cbn. apply IH. apply Forall_app. split; [done|]. by constructor.
Qed.

Lemma placeholders_nonempty t : Forall (λ k, k ≠ "") (placeholders t).
Proof.
  unfold placeholders, Expand.
  pose proof (ExpandLoop_names_nonempty (S (String.length t)) t 0 0 None []
                (Forall_nil_2 _)) as H.
  destruct (ExpandLoop recordName _ t 0 0 None []) as [[i buf] l].
  by destruct buf.
Qed.

Lemma missingTokens_sound params t l :
  uncovered params t ≠ [] → l = missingTokens params t →
  l ≠ [] ∧ Forall (λ k, k ≠ "" ∧ params !! k = None) l.
Proof.
  intros Hne ->. destruct (missingTokens_spec params t) as (_ & _ & Hin).
  split.
  - destruct (uncovered params t) as [|k u] eqn:Hu; [done|].
    assert (k ∈ missingTokens params t) as Hk.
    { assert (k ∈ uncovered params t) as Hk by (rewrite Hu; by left).
      unfold uncovered in Hk. apply list_elem_of_filter in Hk as [? ?].
      by apply Hin. }
    intros Hnil. rewrite Hnil in Hk. by apply elem_of_nil in Hk.
  - apply Forall_forall. intros k [Hk Hnone]%Hin. split; [|done].
    pose proof (placeholders_nonempty t) as Hall.
    rewrite Forall_forall in Hall. by apply Hall.
Qed.

(** X14. The list carried by an invalid-tokens error of
    [resolveTemplate] or [genVolumeHandle] is never empty, and every
    token in it is a non-empty name that has no entry in the parameter set
    used. *)
Theorem X14_invalid_tokens_sound (w : World) (v : VolumeImporter)
    (template pvName : string) (pvc : PersistentVolumeClaim) (isName : bool) :
  (∀ l, resolveTemplate template pvName pvc isName = Err (ErrInvalidTokens l) →
     l ≠ []
     ∧ Forall (λ k, k ≠ "" ∧ templateParams pvName pvc isName !! k = None) l)
  ∧ (∀ raw l,
       ReadFile w (path_Join w (templatePath v) (sc_Provisioner (sc v)))
       = Ok raw →
       genVolumeHandle w v = Err (ErrInvalidTokens l) →
       l ≠ [] ∧ Forall (λ k, k ≠ "" ∧ importParams v !! k = None) l).
Proof.
  split.
  - intros l. rewrite resolveTemplate_eq. cbv zeta.
    case_bool_decide as Hu; [by case_bool_decide|].
    intros [= <-]. by apply (missingTokens_sound _ template).
  - intros raw l Hraw. rewrite genVolumeHandle_eq, Hraw. cbn.
    case_bool_decide as Hu; [done|].
    intros [= <-]. by apply (missingTokens_sound _ (TrimSuffix raw LF)).
Qed.

(** ** What a resolution depends on *)

Section ExpandExt.
Context {St : Type} (m1 m2 : string → St → string * St).

Lemma ExpandLoop_ext fuel s i i' j buf buf' σ :
  (∀ k, k ∈ (ExpandLoop recordName fuel s i' j buf' []).2 →
        ∀ σ', m1 k σ' = m2 k σ') →
  ExpandLoop m1 fuel s i j buf σ = ExpandLoop m2 fuel s i j buf σ.
Proof.
  revert i i' j buf buf' σ.
  induction fuel as [|fuel IH]; intros i i' j buf buf' σ; [done|].
  cbn [ExpandLoop]. destruct (j <? String.length s)%nat; [|done].
  destruct (byte_is s j "$" && _); [|apply IH].
  destruct (getShellName _) as [name w].
  destruct (String.eqb name "" && _); [apply IH|].
  destruct (String.eqb name ""); [apply IH|].
  cbn. rewrite ExpandLoop_record. intros H.
  rewrite <-(H name) by (apply elem_of_app; left; by left).
  destruct (m1 name σ) as [x σ']. eapply IH.
  intros k Hk. apply H. apply elem_of_app. right. exact Hk.
Qed.

Lemma Expand_ext s σ :
  (∀ k, k ∈ placeholders s → ∀ σ', m1 k σ' = m2 k σ') →
  Expand m1 s σ = Expand m2 s σ.
Proof.
  intros H. unfold Expand. rewrite (ExpandLoop_ext _ s 0 0 0 None None σ); [done|].
  intros k Hk. apply H. unfold placeholders, Expand.
  destruct (ExpandLoop recordName _ s 0 0 None []) as [[i buf] l].
  by destruct buf.
Qed.
End ExpandExt.

Lemma Expand_params_ext (p1 p2 : gmap string string) s σ :
  (∀ k, k ∈ placeholders s → p1 !! k = p2 !! k) →
  Expand (lookupOrMissing p1) s σ = Expand (lookupOrMissing p2) s σ.
Proof.
  intros H. apply Expand_ext. intros k Hk σ'.
  unfold lookupOrMissing, mapIndex. by rewrite (H k Hk).
Qed.

Lemma uncovered_ext (p1 p2 : gmap string string) t :
  (∀ k, k ∈ placeholders t → p1 !! k = p2 !! k) →
  uncovered p1 t = uncovered p2 t.
Proof.
  unfold uncovered. generalize (placeholders t). intros l.
  induction l as [|k l IH]; intros H; [done|].
  rewrite !filter_cons, (H k) by by left.
  rewrite IH; [done|]. intros k' Hk'. apply H. by right.
Qed.

Lemma resolved_ext (p1 p2 : gmap string string) t :
  (∀ k, k ∈ placeholders t → p1 !! k = p2 !! k) →
  Expand (lookupOrMissing p1) t ∅ = Expand (lookupOrMissing p2) t ∅
  ∧ uncovered p1 t = uncovered p2 t
  ∧ missingTokens p1 t = missingTokens p2 t.
Proof.
  intros H. split_and!.
  - by apply Expand_params_ext.
  - by apply uncovered_ext.
  - unfold missingTokens. by rewrite (uncovered_ext p1 p2).
Qed.

Lemma templateParams_lookup_cases pvName pvc k' :
  k' = tokenPVNameKey ∨ k' = tokenPVCNamespaceKey ∨ k' = tokenPVCNameKey
  ∨ (∃ k, k' = annotationToken k)
  ∨ templateParams pvName pvc true !! k' = None.
Proof.
  destruct (decide (k' = tokenPVNameKey)); [by left|].
  destruct (decide (k' = tokenPVCNamespaceKey)); [by right; left|].
  destruct (decide (k' = tokenPVCNameKey)); [by right; right; left|].
  destruct (templateParams pvName pvc true !! k') as [x|] eqn:Hx;
    [|by right; right; right; right].
  right; right; right; left.
  rewrite templateParams_true, lookup_union in Hx.
  rewrite !lookup_insert_ne, lookup_empty in Hx by done.
  destruct (kmap annotationToken (pvc_Annotations pvc) !! k') as [y|] eqn:Hy;
    [|done].
  apply (lookup_kmap_Some annotationToken) in Hy as (k & -> & _). by exists k.
Qed.

(** X15. A resolution reads the parameters only at the placeholders of the
    template.  [resolveTemplate] gives the same result for two claims with
    the same name and namespace that agree on the annotations the template
    mentions; [genVolumeHandle] gives the same result for two importers with
    the same template file whose import parameters agree on the
    placeholders of the template. *)
Theorem X15_resolution_reads_placeholders_only (w : World)
    (v v' : VolumeImporter) (template pvName : string)
    (pvc pvc' : PersistentVolumeClaim) (isName : bool) :
  (pvc_Name pvc' = pvc_Name pvc → pvc_Namespace pvc' = pvc_Namespace pvc →
   (∀ k, annotationToken k ∈ placeholders template →
         pvc_Annotations pvc' !! k = pvc_Annotations pvc !! k) →
   resolveTemplate template pvName pvc' isName
   = resolveTemplate template pvName pvc isName)
  ∧ (templatePath v' = templatePath v → sc_Provisioner (sc v') = sc_Provisioner (sc v) →
     (∀ raw k,
        ReadFile w (path_Join w (templatePath v) (sc_Provisioner (sc v)))
        = Ok raw →
        k ∈ placeholders (TrimSuffix raw LF) →
        importParams v' !! k = importParams v !! k) →
     genVolumeHandle w v' = genVolumeHandle w v).
Proof.
  split.
  - intros Hname Hns Hann.
    assert (Hp : ∀ k, k ∈ placeholders template →
              templateParams pvName pvc' isName !! k
              = templateParams pvName pvc isName !! k).
    { intros k Hk. destruct isName.
      - destruct (templateParams_true_system pvName pvc) as (A1&A2&A3).
        destruct (templateParams_true_system pvName pvc') as (B1&B2&B3).
        destruct (templateParams_lookup_cases pvName pvc k)
          as [->|[->|[->|[[a ->]|Hnone]]]].
        + by rewrite A1, B1.
        + by rewrite A2, B2, Hns.
        + by rewrite A3, B3, Hname.
        + rewrite !templateParams_true_annotation. by apply Hann.
        + destruct (templateParams_lookup_cases pvName pvc' k)
            as [->|[->|[->|[[a ->]|Hnone']]]]; try congruence.
          rewrite !templateParams_true_annotation. by apply Hann.
      - unfold templateParams. by rewrite Hns. }
    destruct (resolved_ext _ _ template Hp) as (He & Hu & Hm).
    rewrite !resolveTemplate_eq. cbv zeta. by rewrite He, Hu, Hm.
  - intros Ht Hs Hpar. rewrite !genVolumeHandle_eq, Ht, Hs.
    destruct (ReadFile w _) as [raw| |] eqn:Hraw; cbn; [|done..].
    destruct (resolved_ext (importParams v') (importParams v)
                (TrimSuffix raw LF)) as (He & Hu & Hm).
    { intros k Hk. by eapply Hpar. }
    by rewrite He, Hu, Hm.
Qed.

Lemma lookupWithAlias_insert_ne (scParams : gmap string string) k x key dep :
  k ≠ key → k ≠ dep →
  lookupWithAlias (<[k := x]> scParams) key dep = lookupWithAlias scParams key dep.
Proof.
  intros H1 H2. unfold lookupWithAlias, mapIndex.
  by rewrite !lookup_insert_ne.
Qed.

(** X16. When namespace and name of a category are both configured or
    both absent, setting a parameter under a key that is none of the four
    keys of that category does not change what [GetSecret] returns for
    it. *)
Theorem X16_unrelated_parameter (scParams : gmap string string)
    (sType : secretType) (pvName : string) (pvc : PersistentVolumeClaim)
    (k x : string) :
  k ≠ nsKey sType → k ≠ deprecatedNsKey sType →
  k ≠ nameKey sType → k ≠ deprecatedNameKey sType →
  nsConfigured scParams sType = nameConfigured scParams sType →
  GetSecret (<[k := x]> scParams) sType pvName pvc
  = GetSecret scParams sType pvName pvc.
Proof.
  intros H1 H2 H3 H4 Hcons. unfold GetSecret, getSecretTemplate.
  rewrite !lookupWithAlias_insert_ne by done.
  unfold nsConfigured, nameConfigured in Hcons.
  rewrite <-!lookupWithAlias_ok in Hcons.
  destruct (lookupWithAlias scParams (nsKey sType) _) as [nsTempl nsOK].
  destruct (lookupWithAlias scParams (nameKey sType) _) as [nameTempl nameOK].
  cbn in Hcons. subst nameOK. by destruct nsOK.
Qed.

Lemma X16_unrelated_parameter_witness :
  GetSecret
    (<[ "csi.storage.k8s.io/node-publish-secret-name" := "other" ]>
       {[ "csi.storage.k8s.io/node-stage-secret-namespace" := "${pvc.namespace}";
          "csi.storage.k8s.io/node-stage-secret-name" := "${pv.name}-stage" ]})
    NodeStageSecret "pv-foo" claimFoo
  = GetSecret
      {[ "csi.storage.k8s.io/node-stage-secret-namespace" := "${pvc.namespace}";
         "csi.storage.k8s.io/node-stage-secret-name" := "${pv.name}-stage" ]}
      NodeStageSecret "pv-foo" claimFoo.
Proof. apply X16_unrelated_parameter; by vm_compute. Defined.

(** ** Placeholders without braces *)

Lemma scanAlphaNum_append name t :
  anyByte (λ c, negb (isAlphaNum c)) name = false →
  from_option isAlphaNum false (firstByte t) = false →
  scanAlphaNum (name +:+ t) = String.length name.
Proof.
  intros Hn Ht. induction name as [|c name IH].
  - rewrite append_nil_l. destruct t as [|d t]; [done|]. cbn in *. by rewrite Ht.
  - cbn [anyByte] in Hn. apply orb_false_iff in Hn as [Hc%negb_false_iff Hn].
    rewrite append_cons. cbn [scanAlphaNum String.length]. by rewrite Hc, IH.
Qed.

Lemma getShellName_bare c name t :
  isAlphaNum c = true → isShellSpecialVar c = false →
  anyByte (λ c, negb (isAlphaNum c)) name = false →
  from_option isAlphaNum false (firstByte t) = false →
  getShellName (String c name +:+ t)
  = (String c name, String.length (String c name)).
Proof.
  intros Hc Hsp Hn Ht. rewrite append_cons.
  unfold getShellName, byte_is. cbn [String.get from_option].
  rewrite bool_decide_false, Hsp.
  2:{ intros [= ->]. by vm_compute in Hc. }
  rewrite <-append_cons.
  rewrite scanAlphaNum_append; [|by cbn [anyByte]; rewrite Hc|done].
  unfold slice. by rewrite Nat.sub_0_r, substring_append_l.
Qed.

Lemma Expand_bare {St} (mapping : string → St → string * St)
    t1 c name t2 σ :
  anyByte (λ c, Ascii.eqb c "$") t1 = false →
  isAlphaNum c = true → isShellSpecialVar c = false →
  anyByte (λ c, negb (isAlphaNum c)) name = false →
  from_option isAlphaNum false (firstByte t2) = false →
  anyByte (λ c, Ascii.eqb c "$") t2 = false →
  Expand mapping (t1 +:+ "$" +:+ String c name +:+ t2) σ
  = let '(x, σ') := mapping (String c name) σ in (t1 +:+ x +:+ t2, σ').
Proof.
  intros H1 Hc Hsp Hn Hf H2. rewrite Expand_append_literal by done.
  change ("$" +:+ String c name +:+ t2) with (String "$" (String c name +:+ t2)).
  rewrite (Expand_token mapping _ (String c name) (String.length (String c name)))
    by (done || by apply getShellName_bare).
  unfold expandToken. cbn [String.eqb andb].
  destruct (mapping (String c name) σ) as [x σ'].
  rewrite dropBytes_append, Expand_plain by done. done.
Qed.

(** X17. A [$] followed by a name of letters, digits and underscores that
    does not start with a digit is a placeholder as well: [genVolumeHandle]
    replaces [$name] by the import parameter of that name and reports the
    name as invalid token when there is none. *)
Theorem X17_bare_placeholder (w : World) (v : VolumeImporter)
    (raw t1 : string) (c : ascii) (name t2 : string) :
  ReadFile w (path_Join w (templatePath v) (sc_Provisioner (sc v))) = Ok raw →
  TrimSuffix raw LF = t1 +:+ "$" +:+ String c name +:+ t2 →
  anyByte (λ c, Ascii.eqb c "$") t1 = false →
  isAlphaNum c = true → isShellSpecialVar c = false →
  anyByte (λ c, negb (isAlphaNum c)) name = false →
  from_option isAlphaNum false (firstByte t2) = false →
  anyByte (λ c, Ascii.eqb c "$") t2 = false →
  genVolumeHandle w v =
    match importParams v !! String c name with
    | Some x => Ok (t1 +:+ x +:+ t2)
    | None => Err (ErrInvalidTokens [String c name])
    end.
Proof.
  intros Hraw Htrim H1 Hc Hsp Hn Hf H2.
  rewrite genVolumeHandle_eq, Hraw. cbn. rewrite Htrim.
  unfold missingTokens, uncovered, placeholders.
  rewrite !Expand_bare by done.
  unfold lookupOrMissing, mapIndex. cbn.
  destruct (importParams v !! String c name) as [x|] eqn:Hx; cbn.
  - by rewrite decide_False.
  - by rewrite decide_True.
Qed.

Lemma X17_bare_placeholder_witness :
  genVolumeHandle (sampleWorld (Ok ("vol-$size.img" +:+ LF)) ∅ claimFoo)
    (sampleImporter {[ "size" := "10Gi" ]}) = Ok "vol-10Gi.img".
Proof.
  exact (X17_bare_placeholder
           (sampleWorld (Ok ("vol-$size.img" +:+ LF)) ∅ claimFoo)
           (sampleImporter {[ "size" := "10Gi" ]})
           ("vol-$size.img" +:+ LF) "vol-" "s" "ize" ".img"
           eq_refl eq_refl eq_refl eq_refl eq_refl eq_refl eq_refl eq_refl).
Defined.

(** * Arbitrary templates *)

Lemma getShellName_special c t :
  isShellSpecialVar c = true → getShellName (String c t) = (String c "", 1).
Proof.
  intros Hc. unfold getShellName, byte_is. cbn [String.get from_option].
  rewrite bool_decide_false, Hc.
  2:{ intros [= ->]. by vm_compute in Hc. }
  f_equal. unfold slice. cbn. by destruct t.
Qed.

Section ExpandPieces.
Context {St : Type} (mapping : string → St → string * St).

(** [Expand] handles a leading piece as the piece says and goes on with
    the rest. *)
Lemma Expand_piece p t σ :
  pieceOK p t = true →
  Expand mapping (renderPiece p +:+ t) σ
  = let '(x, σ') := substitutePiece mapping p σ in
    prependOut x (Expand mapping t σ').
Proof.
  destruct p as [text|name|name| | |]; cbn [pieceOK renderPiece substitutePiece].
  - intros H%negb_true_iff. by apply Expand_append_literal.
  - intros [Hne Hn]%andb_true_iff.
    apply negb_true_iff in Hne, Hn. apply String.eqb_neq in Hne.
    rewrite !append_assoc. by apply Expand_placeholder.
  - destruct name as [|c rest]; [done|].
    destruct (isShellSpecialVar c) eqn:Hsp.
    + intros ->%String.eqb_eq.
      change ("$" +:+ String c "" +:+ t) with (String "$" (String c t)).
      change (("$" +:+ String c "") +:+ t) with (String "$" (String c t)).
      rewrite (Expand_token mapping _ (String c "") 1)
        by (done || by apply getShellName_special).
      unfold expandToken. cbn [String.eqb andb dropBytes].
      by destruct (mapping (String c "") σ).
    + intros [[Hc Hrest]%andb_true_iff Hf]%andb_true_iff.
      apply negb_true_iff in Hrest, Hf.
      change (("$" +:+ String c rest) +:+ t)
        with (String "$" (String c rest +:+ t)).
      rewrite (Expand_token mapping _ (String c rest)
                 (String.length (String c rest)))
        by (done || by apply getShellName_bare).
      unfold expandToken. cbn [String.eqb andb].
      destruct (mapping (String c rest) σ) as [x σ'].
      by rewrite dropBytes_append.
  - destruct t as [|c t].
    + intros _. reflexivity.
    + cbn [firstByte from_option]. intros Hc%negb_true_iff.
      change ("$" +:+ String c t) with (String "$" (String c t)).
      rewrite (Expand_token mapping _ "" 0)
        by (done || by apply getShellName_inert).
      by cbn [expandToken String.eqb andb Nat.ltb Nat.leb dropBytes].
  - intros _.
    change ("${}" +:+ t) with (String "$" (String "{" (String "}" t))).
    rewrite (Expand_token mapping _ "" 2)
      by (done || apply getShellName_empty_braces).
    cbn [expandToken String.eqb andb Nat.ltb Nat.leb dropBytes].
    unfold prependOut. by destruct (Expand mapping t σ).
  - intros Ht%negb_true_iff.
    change ("${" +:+ t) with (String "$" (String "{" t)).
    rewrite (Expand_token mapping _ "" 1)
      by (done || by apply getShellName_unclosed).
    cbn [expandToken String.eqb andb Nat.ltb Nat.leb dropBytes].
    unfold prependOut. by destruct (Expand mapping t σ).
Qed.

Lemma Expand_pieces ps σ :
  piecesOK ps = true →
  Expand mapping (renderPieces ps) σ = substitutePiecesWith mapping ps σ.
Proof.
  revert σ. induction ps as [|p ps IH]; intros σ;
    cbn [piecesOK renderPieces substitutePiecesWith]; [done|].
  intros [Hp Hps]%andb_true_iff. rewrite Expand_piece by done.
  destruct (substitutePiece mapping p σ) as [x σ']. by rewrite IH.
Qed.
End ExpandPieces.

Lemma substitutePiecesWith_lookupOrMissing params ps (σ : gset string) :
  (substitutePiecesWith (lookupOrMissing params) ps σ).1
  = substitutePieces params ps.
Proof.
  revert σ. induction ps as [|p ps IH]; intros σ;
    cbn [substitutePiecesWith substitutePieces]; [done|].
  destruct p as [text|name|name| | |];
    cbn [substitutePiece pieceText]; unfold prependOut; cbn [fst];
    rewrite ?IH; try done;
    unfold lookupOrMissing, mapIndex;
    destruct (params !! name); cbn; by rewrite IH.
Qed.

Lemma substitutePiecesWith_recordName ps l :
  (substitutePiecesWith recordName ps l).2 = (l ++ pieceNames ps)%list.
Proof.
  revert l. induction ps as [|p ps IH]; intros l;
    cbn [substitutePiecesWith pieceNames omap].
  { by rewrite app_nil_r. }
  destruct p as [text|name|name| | |]; cbn; rewrite IH; try done;
    by rewrite <-app_assoc.
Qed.

(** The names [Expand] asks for are the placeholder names of the pieces. *)
Lemma placeholders_pieces ps :
  piecesOK ps = true → placeholders (renderPieces ps) = pieceNames ps.
Proof.
  intros Hok. unfold placeholders.
  by rewrite Expand_pieces, substitutePiecesWith_recordName.
Qed.

Lemma Expand_pieces_text params ps :
  piecesOK ps = true →
  (Expand (lookupOrMissing params) (renderPieces ps) ∅).1
  = substitutePieces params ps.
Proof.
  intros Hok. by rewrite Expand_pieces, substitutePiecesWith_lookupOrMissing.
Qed.

(** ** Every template is a sequence of pieces *)

Lemma split_brace body :
  anyByte (λ c, Ascii.eqb c "}") body = true →
  ∃ n r, body = n +:+ String "}" r
         ∧ anyByte (λ c, Ascii.eqb c "}") n = false.
Proof.
  induction body as [|c body IH]; cbn [anyByte]; [done|].
  destruct (Ascii.eqb_spec c "}") as [->|Hc].
  - intros _. by exists "", body.
  - cbn [orb]. intros H. destruct (IH H) as (n & r & -> & Hn).
    exists (String c n), r. split; [done|]. cbn [anyByte].
    by rewrite (proj2 (Ascii.eqb_neq _ _) Hc).
Qed.

Lemma split_alnum s :
  ∃ n r, s = n +:+ r
         ∧ anyByte (λ c, negb (isAlphaNum c)) n = false
         ∧ from_option isAlphaNum false (firstByte r) = false.
Proof.
  induction s as [|c s IH]; [by exists "", ""|].
  destruct (isAlphaNum c) eqn:Hc.
  - destruct IH as (n & r & -> & Hn & Hr). exists (String c n), r.
    split_and!; [done| |done]. cbn [anyByte]. by rewrite Hc.
  - exists "", (String c s). by split_and!.
Qed.

Lemma pieces_exist t : ∃ ps, piecesOK ps = true ∧ renderPieces ps = t.
Proof.
  remember (String.length t) as m eqn:Hm. revert t Hm.
  induction m as [m IH] using lt_wf_ind. intros t ->.
  assert (Hrec : ∀ r, (String.length r < String.length t)%nat →
            ∃ ps, piecesOK ps = true ∧ renderPieces ps = r).
  { intros r Hr. by apply (IH (String.length r)). }
  clear IH. destruct t as [|c t]; [by exists []|].
  destruct (Ascii.eqb_spec c "$") as [->|Hc].
  2:{ destruct (Hrec t) as (ps & Hok & <-); [cbn; lia|].
      exists (PText (String c "") :: ps). split; [|done].
      cbn [piecesOK pieceOK anyByte]. rewrite Hok.
      by rewrite (proj2 (Ascii.eqb_neq _ _) Hc). }
  destruct t as [|c t]; [by exists [PDollar]|].
  destruct (Ascii.eqb_spec c "{") as [->|Hbrace].
  { destruct (anyByte (λ c, Ascii.eqb c "}") t) eqn:Hb.
    - destruct (split_brace t Hb) as (n & r & -> & Hn).
      destruct (Hrec r) as (ps & Hok & <-).
      { cbn [String.length]. rewrite length_append. cbn [String.length]. lia. }
      destruct n as [|d n].
      + exists (PEmptyBraces :: ps). by split; [cbn; rewrite Hok|].
      + exists (PBraced (String d n) :: ps). split.
        * cbn [piecesOK pieceOK]. by rewrite Hn, Hok.
        * cbn [renderPieces renderPiece]. by rewrite !append_assoc.
    - destruct (Hrec t) as (ps & Hok & <-); [cbn; lia|].
      exists (POpenBrace :: ps). split; [|done].
      cbn [piecesOK pieceOK]. by rewrite Hb, Hok. }
  destruct (isShellSpecialVar c) eqn:Hsp.
  { destruct (Hrec t) as (ps & Hok & <-); [cbn; lia|].
    exists (PBare (String c "") :: ps). split; [|done].
    cbn [piecesOK pieceOK]. by rewrite Hsp, Hok. }
  destruct (isAlphaNum c) eqn:Hal.
  { destruct (split_alnum t) as (n & r & -> & Hn & Hr).
    destruct (Hrec r) as (ps & Hok & <-).
    { cbn [String.length]. rewrite length_append. lia. }
    exists (PBare (String c n) :: ps). split.
    - cbn [piecesOK pieceOK]. by rewrite Hsp, Hal, Hn, Hr, Hok.
    - cbn [renderPieces renderPiece]. by rewrite !append_assoc. }
  destruct (Hrec (String c t)) as (ps & Hok & Hr); [cbn; lia|].
  exists (PDollar :: ps). split.
  - cbn [piecesOK pieceOK]. rewrite Hr, Hok. cbn [firstByte from_option].
    unfold startsName. rewrite Hsp, Hal.
    by rewrite (proj2 (Ascii.eqb_neq _ _) Hbrace).
  - cbn [renderPieces renderPiece]. by rewrite Hr.
Qed.

(** The placeholder names are those of the template, however it is cut
    into pieces. *)
Lemma pieceNames_unique ps ps' :
  piecesOK ps = true → piecesOK ps' = true →
  renderPieces ps = renderPieces ps' → pieceNames ps = pieceNames ps'.
Proof.
  intros Hok Hok' Hr.
  by rewrite <-(placeholders_pieces ps), <-(placeholders_pieces ps'), Hr.
Qed.

(** ** Resolution of an arbitrary template *)

Lemma missingNames_spec (params : gmap string string) names :
  Sorted String.le (missingNames params names)
  ∧ NoDup (missingNames params names)
  ∧ ∀ k, k ∈ missingNames params names ↔ k ∈ names ∧ params !! k = None.
Proof.
  unfold missingNames. split_and!.
  - apply Sorted_merge_sort, _.
  - rewrite merge_sort_Permutation. apply NoDup_remove_dups.
  - intros k. rewrite merge_sort_Permutation, elem_of_remove_dups.
    rewrite list_elem_of_filter. tauto.
Qed.

Lemma resolveTemplate_pieces ps pvName pvc isName :
  piecesOK ps = true →
  resolveTemplate (renderPieces ps) pvName pvc isName =
    match filter (λ n, templateParams pvName pvc isName !! n = None)
                 (pieceNames ps) with
    | [] =>
        if bool_decide (IsDNS1123Subdomain
             (substitutePieces (templateParams pvName pvc isName) ps) = [])
        then Ok (substitutePieces (templateParams pvName pvc isName) ps)
        else Err (ErrNotDNSName (renderPieces ps)
                    (substitutePieces (templateParams pvName pvc isName) ps))
    | _ :: _ =>
        Err (ErrInvalidTokens
               (missingNames (templateParams pvName pvc isName) (pieceNames ps)))
    end.
Proof.
  intros Hok. rewrite resolveTemplate_eq. cbv zeta.
  unfold missingTokens, uncovered, missingNames.
  rewrite placeholders_pieces, Expand_pieces_text by done.
  by destruct (filter _ (pieceNames ps)).
Qed.

Lemma genVolumeHandle_pieces w v ps raw :
  piecesOK ps = true →
  ReadFile w (path_Join w (templatePath v) (sc_Provisioner (sc v))) = Ok raw →
  TrimSuffix raw LF = renderPieces ps →
  genVolumeHandle w v =
    match filter (λ n, importParams v !! n = None) (pieceNames ps) with
    | [] => Ok (substitutePieces (importParams v) ps)
    | _ :: _ =>
        Err (ErrInvalidTokens (missingNames (importParams v) (pieceNames ps)))
    end.
Proof.
  intros Hok Hraw Htrim. rewrite genVolumeHandle_eq, Hraw. cbn.
  rewrite Htrim. unfold missingTokens, uncovered, missingNames.
  rewrite placeholders_pieces, Expand_pieces_text by done.
  by destruct (filter _ (pieceNames ps)).
Qed.

Lemma filter_missing_cons (params : gmap string string) names n :
  n ∈ names → params !! n = None →
  ∃ k l, filter (λ n, params !! n = None) names = k :: l.
Proof.
  intros Hin Hn.
  destruct (filter (λ n, params !! n = None) names) as [|k l] eqn:Hf;
    [|by eexists _, _].
  exfalso. eapply (filter_nil_not_elem_of _ _ n); eauto.
Qed.

(** A placeholder without an entry is reported. *)
Lemma resolveTemplate_pieces_missing ps pvName pvc isName n :
  piecesOK ps = true → n ∈ pieceNames ps →
  templateParams pvName pvc isName !! n = None →
  ∃ l, resolveTemplate (renderPieces ps) pvName pvc isName
       = Err (ErrInvalidTokens l) ∧ n ∈ l.
Proof.
  intros Hok Hin Hn. rewrite resolveTemplate_pieces by done.
  destruct (filter_missing_cons _ _ n Hin Hn) as (k & l & ->).
  eexists. split; [done|]. by apply missingNames_spec.
Qed.

Lemma genVolumeHandle_pieces_missing w v ps raw n :
  piecesOK ps = true →
  ReadFile w (path_Join w (templatePath v) (sc_Provisioner (sc v))) = Ok raw →
  TrimSuffix raw LF = renderPieces ps →
  n ∈ pieceNames ps → importParams v !! n = None →
  ∃ l, genVolumeHandle w v = Err (ErrInvalidTokens l) ∧ n ∈ l.
Proof.
  intros Hok Hraw Htrim Hin Hn.
  rewrite (genVolumeHandle_pieces w v ps raw) by done.
  destruct (filter_missing_cons _ _ n Hin Hn) as (k & l & ->).
  eexists. split; [done|]. by apply missingNames_spec.
Qed.

(** C2, as the code has it.  Every template is a sequence of pieces, and
    its placeholders are the names in braces and the names without braces;
    they do not depend on how the template is cut into pieces.  For every
    template and every parameter set, [resolveTemplate] and
    [genVolumeHandle] fail with the missing-token error if and only if some
    placeholder has no entry, and the reported list holds exactly the
    uncovered placeholder names, each once, in increasing order, however
    often a name occurs.  When every placeholder is covered each one is
    replaced by its value: [genVolumeHandle] returns that text, and
    [resolveTemplate] returns it if it is a DNS-1123 subdomain and fails
    with the invalid-name error otherwise. *)
Theorem C2_missing_tokens_exact :
  (∀ t, ∃ ps, piecesOK ps = true ∧ renderPieces ps = t)
  ∧ (∀ ps ps', piecesOK ps = true → piecesOK ps' = true →
       renderPieces ps = renderPieces ps' → pieceNames ps = pieceNames ps')
  ∧ (∀ ps pvName pvc isName, piecesOK ps = true →
       let params := templateParams pvName pvc isName in
       let resolved := substitutePieces params ps in
       resolveTemplate (renderPieces ps) pvName pvc isName =
         match filter (λ n, params !! n = None) (pieceNames ps) with
         | [] =>
             if bool_decide (IsDNS1123Subdomain resolved = []) then Ok resolved
             else Err (ErrNotDNSName (renderPieces ps) resolved)
         | _ :: _ =>
             Err (ErrInvalidTokens (missingNames params (pieceNames ps)))
         end)
  ∧ (∀ ps w v raw, piecesOK ps = true →
       ReadFile w (path_Join w (templatePath v) (sc_Provisioner (sc v)))
       = Ok raw →
       TrimSuffix raw LF = renderPieces ps →
       genVolumeHandle w v =
         match filter (λ n, importParams v !! n = None) (pieceNames ps) with
         | [] => Ok (substitutePieces (importParams v) ps)
         | _ :: _ =>
             Err (ErrInvalidTokens
                    (missingNames (importParams v) (pieceNames ps)))
         end)
  ∧ (∀ (params : gmap string string) names,
       Sorted String.le (missingNames params names)
       ∧ NoDup (missingNames params names)
       ∧ ∀ k, k ∈ missingNames params names
              ↔ k ∈ names ∧ params !! k = None)
  ∧ (∀ ps pvName pvc isName, piecesOK ps = true →
       (∃ l, resolveTemplate (renderPieces ps) pvName pvc isName
             = Err (ErrInvalidTokens l))
       ↔ (∃ n, n ∈ pieceNames ps
               ∧ templateParams pvName pvc isName !! n = None))
  ∧ (∀ ps w v raw, piecesOK ps = true →
       ReadFile w (path_Join w (templatePath v) (sc_Provisioner (sc v)))
       = Ok raw →
       TrimSuffix raw LF = renderPieces ps →
       (∃ e, genVolumeHandle w v = Err e)
       ↔ (∃ n, n ∈ pieceNames ps ∧ importParams v !! n = None)).
Proof.
  assert (Hfirst : ∀ (params : gmap string string) names k l,
            filter (λ n, params !! n = None) names = k :: l →
            ∃ n, n ∈ names ∧ params !! n = None).
  { intros params names k l Hf. exists k.
    assert (k ∈ filter (λ n, params !! n = None) names) as Hk.
    { rewrite Hf. by left. }
    apply list_elem_of_filter in Hk. tauto. }
  split_and!.
  - apply pieces_exist.
  - apply pieceNames_unique.
  - intros ps pvName pvc isName Hok. by apply resolveTemplate_pieces.
  - intros ps w v raw Hok Hraw Htrim. by apply (genVolumeHandle_pieces w v ps raw).
  - apply missingNames_spec.
  - intros ps pvName pvc isName Hok. split.
    + intros [l Hl]. rewrite resolveTemplate_pieces in Hl by done.
      destruct (filter _ (pieceNames ps)) as [|k u] eqn:Hf; [|by eapply Hfirst].
      by case_bool_decide.
    + intros (n & Hin & Hn).
      destruct (resolveTemplate_pieces_missing ps pvName pvc isName n)
        as (l & Hl & _); try done. by exists l.
  - intros ps w v raw Hok Hraw Htrim. split.
    + intros [e He]. rewrite (genVolumeHandle_pieces w v ps raw) in He by done.
      by destruct (filter _ (pieceNames ps)) as [|k u] eqn:Hf; [|eapply Hfirst].
    + intros (n & Hin & Hn).
      destruct (genVolumeHandle_pieces_missing w v ps raw n)
        as (l & Hl & _); try done. by eexists.
Qed.

Lemma C2_missing_tokens_exact_witness :
  resolveTemplate "${b}-$c.${pvc.name}${}-${a}-${b}" "pv-foo" claimFoo true
    = Err (ErrInvalidTokens ["a"; "b"; "c"])
  ∧ resolveTemplate "${pvc.name}.$1-${pvc.name}" "pv-foo" claimFoo true
    = Err (ErrInvalidTokens ["1"])
  ∧ genVolumeHandle
      (sampleWorld (Ok ("vol-$size/${pool}$" +:+ LF)) ∅ claimFoo)
      (sampleImporter {[ "size" := "10Gi"; "pool" := "Fast" ]})
    = Ok "vol-10Gi/Fast$".
Proof.
  destruct C2_missing_tokens_exact as (_ & _ & Hr & Hg & _ & _ & _). split_and!.
  - exact (Hr [PBraced "b"; PText "-"; PBare "c"; PText "."; PBraced "pvc.name";
               PEmptyBraces; PText "-"; PBraced "a"; PText "-"; PBraced "b"]
              "pv-foo" claimFoo true eq_refl).
  - exact (Hr [PBraced "pvc.name"; PText "."; PBare "1"; PText "-";
               PBraced "pvc.name"]
              "pv-foo" claimFoo true eq_refl).
  - exact (Hg [PText "vol-"; PBare "size"; PText "/"; PBraced "pool"; PDollar]
              (sampleWorld (Ok ("vol-$size/${pool}$" +:+ LF)) ∅ claimFoo)
              (sampleImporter {[ "size" := "10Gi"; "pool" := "Fast" ]})
              ("vol-$size/${pool}$" +:+ LF) eq_refl eq_refl eq_refl).
Defined.

(** C2 as stated fails.  ["pv-$name"] contains no [${name}] placeholder
    and the only one of ["${a}-$b"] is covered, yet both fail on a missing
    token; the only placeholder of ["${pvc.name}_X"] is covered and
    [resolveTemplate] still fails. *)
Lemma C2_counterexample :
  hasBracePlaceholder "pv-$name" = false
  ∧ genVolumeHandle (sampleWorld (Ok "pv-$name") ∅ claimFoo) (sampleImporter ∅)
    = Err (ErrInvalidTokens ["name"])
  ∧ resolveTemplate "pv-$name" "pv-foo" claimFoo true
    = Err (ErrInvalidTokens ["name"])
  ∧ genVolumeHandle (sampleWorld (Ok "${a}-$b") ∅ claimFoo)
      (sampleImporter {[ "a" := "x" ]})
    = Err (ErrInvalidTokens ["b"])
  ∧ templateParams "pv-foo" claimFoo true !! "pvc.name" = Some "foo"
  ∧ resolveTemplate "${pvc.name}_X" "pv-foo" claimFoo true
    = Err (ErrNotDNSName "${pvc.name}_X" "foo_X").
Proof. by vm_compute. Qed.

(** ** Token namespaces *)

Lemma anyByte_append p a b : anyByte p (a +:+ b) = anyByte p a || anyByte p b.
Proof.
  induction a as [|c a IH]; [done|].
  rewrite append_cons. cbn [anyByte]. by rewrite IH, orb_assoc.
Qed.

Lemma templateParams_false_lookup pvName pvc n :
  templateParams pvName pvc false !! n =
    if decide (n = "pvc.namespace") then Some (pvc_Namespace pvc)
    else if decide (n = "pv.name") then Some pvName
    else None.
Proof.
  unfold templateParams, tokenPVCNamespaceKey, tokenPVNameKey.
  destruct (decide (n = "pvc.namespace")) as [->|H1].
  { by rewrite lookup_insert_eq. }
  rewrite lookup_insert_ne by done.
  destruct (decide (n = "pv.name")) as [->|H2].
  { by rewrite lookup_insert_eq. }
  by rewrite lookup_insert_ne, lookup_empty by done.
Qed.

(** A template that consists of one placeholder in braces between two
    texts. *)
Lemma resolveTemplate_one_placeholder pre name post pvName pvc isName :
  anyByte (λ c, Ascii.eqb c "$") pre = false →
  name ≠ "" → anyByte (λ c, Ascii.eqb c "}") name = false →
  anyByte (λ c, Ascii.eqb c "$") post = false →
  resolveTemplate (pre +:+ "${" +:+ name +:+ "}" +:+ post) pvName pvc isName =
    match templateParams pvName pvc isName !! name with
    | Some x =>
        if bool_decide (IsDNS1123Subdomain (pre +:+ x +:+ post) = [])
        then Ok (pre +:+ x +:+ post)
        else Err (ErrNotDNSName (pre +:+ "${" +:+ name +:+ "}" +:+ post)
                    (pre +:+ x +:+ post))
    | None => Err (ErrInvalidTokens [name])
    end.
Proof.
  intros Hpre Hne Hname Hpost.
  assert (pre +:+ "${" +:+ name +:+ "}" +:+ post
          = renderPieces [PText pre; PBraced name; PText post]) as Hr.
  { cbn [renderPieces renderPiece]. by rewrite !append_assoc, append_nil_r. }
  rewrite Hr, resolveTemplate_pieces.
  2:{ cbn [piecesOK pieceOK]. rewrite Hpre, Hname, Hpost.
      by rewrite (proj2 (String.eqb_neq _ _) Hne). }
  change (pieceNames [PText pre; PBraced name; PText post]) with [name].
  rewrite filter_cons, filter_nil.
  destruct (templateParams pvName pvc isName !! name) as [x|] eqn:Hx.
  - rewrite decide_False by done.
    cbn [substitutePieces pieceText]. rewrite Hx. cbn [default from_option].
    by rewrite append_nil_r.
  - rewrite decide_True by done. unfold missingNames.
    by rewrite filter_cons, filter_nil, decide_True.
Qed.

(** C6. The namespace template is resolved against exactly the tokens
    [pv.name] and [pvc.namespace]; the name template against these, plus
    [pvc.name], plus one token [pvc.annotations['<key>']] per claim
    annotation.  Whatever the template, its placeholders are looked up in
    that set and nowhere else.  A name template that is
    [${pvc.annotations['<key>']}] between two texts resolves to the texts
    around the value of the annotation, and fails with the missing-token
    error listing exactly that token when the claim has no such annotation;
    so does every name template that mentions the token of an absent
    annotation, and every namespace template that mentions a token other
    than [pv.name] and [pvc.namespace].  (A key with a [}] cannot be written
    between braces.) *)
Theorem C6_token_namespaces (pvName : string) (pvc : PersistentVolumeClaim) :
  dom (templateParams pvName pvc false)
    = ({[ "pv.name"; "pvc.namespace" ]} : gset string)
  ∧ templateParams pvName pvc false !! "pv.name" = Some pvName
  ∧ templateParams pvName pvc false !! "pvc.namespace"
    = Some (pvc_Namespace pvc)
  ∧ dom (templateParams pvName pvc true)
    = ({[ "pv.name"; "pvc.namespace"; "pvc.name" ]} : gset string)
      ∪ set_map annotationToken (dom (pvc_Annotations pvc))
  ∧ templateParams pvName pvc true !! "pv.name" = Some pvName
  ∧ templateParams pvName pvc true !! "pvc.namespace"
    = Some (pvc_Namespace pvc)
  ∧ templateParams pvName pvc true !! "pvc.name" = Some (pvc_Name pvc)
  ∧ (∀ k, annotationToken k = "pvc.annotations['" +:+ k +:+ "']"
          ∧ templateParams pvName pvc true !! annotationToken k
            = pvc_Annotations pvc !! k)
  ∧ (∀ ps isName, piecesOK ps = true →
       let params := templateParams pvName pvc isName in
       let resolved := substitutePieces params ps in
       resolveTemplate (renderPieces ps) pvName pvc isName =
         match filter (λ n, params !! n = None) (pieceNames ps) with
         | [] =>
             if bool_decide (IsDNS1123Subdomain resolved = []) then Ok resolved
             else Err (ErrNotDNSName (renderPieces ps) resolved)
         | _ :: _ =>
             Err (ErrInvalidTokens (missingNames params (pieceNames ps)))
         end)
  ∧ (∀ pre k post,
       anyByte (λ c, Ascii.eqb c "$") pre = false →
       anyByte (λ c, Ascii.eqb c "}") k = false →
       anyByte (λ c, Ascii.eqb c "$") post = false →
       let template := pre +:+ "${pvc.annotations['" +:+ k +:+ "']}" +:+ post in
       resolveTemplate template pvName pvc true =
         match pvc_Annotations pvc !! k with
         | Some x =>
             if bool_decide (IsDNS1123Subdomain (pre +:+ x +:+ post) = [])
             then Ok (pre +:+ x +:+ post)
             else Err (ErrNotDNSName template (pre +:+ x +:+ post))
         | None => Err (ErrInvalidTokens ["pvc.annotations['" +:+ k +:+ "']"])
         end)
  ∧ (∀ ps k, piecesOK ps = true →
       annotationToken k ∈ pieceNames ps →
       pvc_Annotations pvc !! k = None →
       ∃ l, resolveTemplate (renderPieces ps) pvName pvc true
            = Err (ErrInvalidTokens l)
            ∧ annotationToken k ∈ l)
  ∧ (∀ ps n, piecesOK ps = true →
       n ∈ pieceNames ps → n ≠ "pv.name" → n ≠ "pvc.namespace" →
       ∃ l, resolveTemplate (renderPieces ps) pvName pvc false
            = Err (ErrInvalidTokens l)
            ∧ n ∈ l)
  ∧ (∀ pre name post,
       anyByte (λ c, Ascii.eqb c "$") pre = false →
       name ≠ "" → anyByte (λ c, Ascii.eqb c "}") name = false →
       anyByte (λ c, Ascii.eqb c "$") post = false →
       name ≠ "pv.name" → name ≠ "pvc.namespace" →
       resolveTemplate (pre +:+ "${" +:+ name +:+ "}" +:+ post) pvName pvc false
       = Err (ErrInvalidTokens [name]))
  ∧ (∀ scParams sType nsTempl nameTempl,
       getSecretTemplate scParams sType = Ok (nsTempl, nameTempl) →
       nsTempl ≠ "" → nameTempl ≠ "" →
       GetSecret scParams sType pvName pvc =
         ns ← resolveTemplate nsTempl pvName pvc false;
         name ← resolveTemplate nameTempl pvName pvc true;
         Ok (Some {| sr_Namespace := ns; sr_Name := name |})).
Proof.
  destruct (templateParams_true_system pvName pvc) as (H1 & H2 & H3).
  split_and!; try done.
  - rewrite templateParams_true, dom_union_L.
    rewrite (dom_kmap_L annotationToken), !dom_insert_L, dom_empty_L.
    set_solver.
  - intros k. split; [done|]. apply templateParams_true_annotation.
  - intros ps isName Hok. by apply resolveTemplate_pieces.
  - intros pre k post Hpre Hk Hpost template.
    assert (template
            = pre +:+ "${" +:+ annotationToken k +:+ "}" +:+ post) as Ht.
    { unfold template, annotationToken. by rewrite !append_assoc. }
    rewrite Ht, resolveTemplate_one_placeholder; try done.
    + by rewrite templateParams_true_annotation.
    + unfold annotationToken. by rewrite !anyByte_append, Hk.
  - intros ps k Hok Hin Hnone.
    apply resolveTemplate_pieces_missing; [done..|].
    by rewrite templateParams_true_annotation.
  - intros ps n Hok Hin Hn1 Hn2.
    apply resolveTemplate_pieces_missing; [done..|].
    rewrite templateParams_false_lookup. by rewrite !decide_False.
  - intros pre name post Hpre Hne Hname Hpost Hn1 Hn2.
    rewrite resolveTemplate_one_placeholder by done.
    rewrite templateParams_false_lookup. by rewrite !decide_False.
  - intros scParams sType nsTempl nameTempl Hget Hns Hname.
    unfold GetSecret. rewrite Hget. simpl.
    apply String.eqb_neq in Hns, Hname. by rewrite Hns, Hname.
Qed.

Lemma C6_token_namespaces_witness :
  resolveTemplate "${pvc.annotations['team']}" "pv-foo" claimFoo true
    = Ok "platform"
  ∧ resolveTemplate "${pvc.annotations['team']}" "pv-foo" claimBare true
    = Err (ErrInvalidTokens ["pvc.annotations['team']"])
  ∧ resolveTemplate "creds-${pvc.annotations['team']}.v1" "pv-foo" claimFoo true
    = Ok "creds-platform.v1"
  ∧ resolveTemplate "${pvc.name}" "pv-foo" claimFoo false
    = Err (ErrInvalidTokens ["pvc.name"])
  ∧ resolveTemplate "${pvc.annotations['team']}" "pv-foo" claimFoo false
    = Err (ErrInvalidTokens ["pvc.annotations['team']"]).
Proof.
  destruct (C6_token_namespaces "pv-foo" claimFoo)
    as (_ & _ & _ & _ & _ & _ & _ & _ & _ & Hfoo & _ & _ & Hns & _).
  destruct (C6_token_namespaces "pv-foo" claimBare)
    as (_ & _ & _ & _ & _ & _ & _ & _ & _ & Hbare & _).
  split_and!.
  - exact (Hfoo "" "team" "" eq_refl eq_refl eq_refl).
  - exact (Hbare "" "team" "" eq_refl eq_refl eq_refl).
  - exact (Hfoo "creds-" "team" ".v1" eq_refl eq_refl eq_refl).
  - apply (Hns "" "pvc.name" ""); done.
  - apply (Hns "" "pvc.annotations['team']" ""); done.
Defined.

(** ** The volume handle *)

Lemma HasSuffix_spec t suffix :
  HasSuffix t suffix = true ↔ ∃ t', t = t' +:+ suffix.
Proof.
  unfold HasSuffix. split.
  - intros [Hlen Heq%String.eqb_eq]%andb_true_iff. apply Nat.leb_le in Hlen.
    exists (slice t 0 (String.length t - String.length suffix)).
    pose proof (slice_split t 0 (String.length t - String.length suffix)) as Hs.
    rewrite slice_from_0, Heq in Hs. apply Hs; lia.
  - intros [t' ->]. rewrite length_append. apply andb_true_iff. split.
    + apply Nat.leb_le. lia.
    + apply String.eqb_eq. unfold slice_from. rewrite length_append.
      replace (String.length t' + String.length suffix
               - String.length suffix) with (String.length t') by lia.
      replace (String.length t' + String.length suffix - String.length t')
        with (String.length suffix) by lia.
      apply substring_append_r.
Qed.

Lemma TrimSuffix_cases raw :
  (∃ t, raw = t +:+ LF ∧ TrimSuffix raw LF = t)
  ∨ (HasSuffix raw LF = false ∧ TrimSuffix raw LF = raw).
Proof.
  destruct (HasSuffix raw LF) eqn:H.
  - left. apply HasSuffix_spec in H as [t ->]. exists t.
    split; [done|]. apply TrimSuffix_append.
  - right. split; [done|]. unfold TrimSuffix. by rewrite H.
Qed.

(** C8. [genVolumeHandle] removes one trailing newline from the loaded
    template, replaces every placeholder by the import parameter of that
    name and by nothing else, and returns the resulting text as it is,
    without validating it; a placeholder without an import parameter, a
    system token such as [pv.name] included, makes it fail with the
    missing-token error.  Every file content is covered.  When the template
    of the driver cannot be read the error is returned and the run ends
    without any create request. *)
Theorem C8_genVolumeHandle (w : World) (v : VolumeImporter) :
  let file := path_Join w (templatePath v) (sc_Provisioner (sc v)) in
  (∀ e, ReadFile w file = Err e → genVolumeHandle w v = Err e)
  ∧ (∀ ps raw, piecesOK ps = true → ReadFile w file = Ok raw →
       raw = renderPieces ps +:+ LF
       ∨ (raw = renderPieces ps ∧ HasSuffix raw LF = false) →
       genVolumeHandle w v =
         match filter (λ n, importParams v !! n = None) (pieceNames ps) with
         | [] => Ok (substitutePieces (importParams v) ps)
         | _ :: _ =>
             Err (ErrInvalidTokens
                    (missingNames (importParams v) (pieceNames ps)))
         end)
  ∧ (∀ raw, ∃ ps, piecesOK ps = true
       ∧ (raw = renderPieces ps +:+ LF
          ∨ (raw = renderPieces ps ∧ HasSuffix raw LF = false)))
  ∧ (∀ t, HasSuffix t LF = true ↔ ∃ t', t = t' +:+ LF)
  ∧ (∀ t, TrimSuffix (t +:+ LF) LF = t)
  ∧ (∀ t, HasSuffix t LF = false → TrimSuffix t LF = t)
  ∧ (∀ ps raw n, piecesOK ps = true → ReadFile w file = Ok raw →
       raw = renderPieces ps +:+ LF
       ∨ (raw = renderPieces ps ∧ HasSuffix raw LF = false) →
       n ∈ pieceNames ps → importParams v !! n = None →
       ∃ l, genVolumeHandle w v = Err (ErrInvalidTokens l) ∧ n ∈ l)
  ∧ (∀ v', templatePath v' = templatePath v → sc v' = sc v →
       importParams v' = importParams v →
       genVolumeHandle w v' = genVolumeHandle w v)
  ∧ (∀ kubeconfig ns claimFile config claim0 scName e,
       BuildConfigFromFlags w kubeconfig = Ok config →
       NewForConfig w config = Ok () →
       parsePVCfile w claimFile = Ok claim0 →
       pvc_StorageClassName claim0 = Some scName →
       StorageClasses_Get w scName = Ok (sc v) →
       genVolumeHandle w v = Err e →
       NewVolumeImporter w kubeconfig ns claimFile (importParams v)
         (templatePath v) = Err e
       ∧ main w kubeconfig ns claimFile (importParams v) (templatePath v)
         = (1, [])).
Proof.
  intros file.
  assert (Htrim : ∀ ps raw,
            raw = renderPieces ps +:+ LF
            ∨ (raw = renderPieces ps ∧ HasSuffix raw LF = false) →
            TrimSuffix raw LF = renderPieces ps).
  { intros ps raw [->|[-> Hnl]]; [apply TrimSuffix_append|].
    unfold TrimSuffix. by rewrite Hnl. }
  split_and!.
  - intros e He. rewrite genVolumeHandle_eq. fold file. by rewrite He.
  - intros ps raw Hok Hraw Hform.
    apply (genVolumeHandle_pieces w v ps raw); [done..|by apply Htrim].
  - intros raw. destruct (TrimSuffix_cases raw) as [(t & -> & _)|[Hnl _]].
    + destruct (pieces_exist t) as (ps & Hok & <-). exists ps. by split; [|left].
    + destruct (pieces_exist raw) as (ps & Hok & <-). exists ps.
      by split; [|right].
  - intros t. apply HasSuffix_spec.
  - intros t. apply TrimSuffix_append.
  - intros t Ht. unfold TrimSuffix. by rewrite Ht.
  - intros ps raw n Hok Hraw Hform Hin Hn.
    apply (genVolumeHandle_pieces_missing w v ps raw); [done..|by apply Htrim|done|done].
  - intros v' H1 H2 H3. by apply genVolumeHandle_ext.
  - intros kubeconfig ns claimFile config claim0 scName e Hc Hn Hp Hs Hg He.
    by eapply genVolumeHandle_fatal.
Qed.

Lemma C8_genVolumeHandle_witness :
  genVolumeHandle (sampleWorld (Ok ("handle-${size}" +:+ LF)) ∅ claimFoo)
    (sampleImporter {[ "size" := "10Gi" ]}) = Ok "handle-10Gi"
  ∧ genVolumeHandle (sampleWorld (Ok ("handle-${size}" +:+ LF)) ∅ claimFoo)
      (sampleImporter ∅) = Err (ErrInvalidTokens ["size"])
  ∧ genVolumeHandle (sampleWorld (Ok "Vol_${size}/$unit") ∅ claimFoo)
      (sampleImporter {[ "size" := "10"; "unit" := "Gi" ]}) = Ok "Vol_10/Gi"
  ∧ genVolumeHandle (sampleWorld (Ok ("${pv.name}-${size}" +:+ LF)) ∅ claimFoo)
      (sampleImporter {[ "size" := "10Gi" ]})
    = Err (ErrInvalidTokens ["pv.name"])
  ∧ main (sampleWorld (Err (ErrExternal "no such file or directory")) ∅ claimFoo)
      "kubeconfig" "ns1" "claim.yaml" ∅ "config" = (1, []).
Proof.
  split_and!.
  - destruct (C8_genVolumeHandle
                (sampleWorld (Ok ("handle-${size}" +:+ LF)) ∅ claimFoo)
                (sampleImporter {[ "size" := "10Gi" ]})) as (_ & H & _).
    exact (H [PText "handle-"; PBraced "size"] ("handle-${size}" +:+ LF)
             eq_refl eq_refl (or_introl eq_refl)).
  - destruct (C8_genVolumeHandle
                (sampleWorld (Ok ("handle-${size}" +:+ LF)) ∅ claimFoo)
                (sampleImporter ∅)) as (_ & H & _).
    exact (H [PText "handle-"; PBraced "size"] ("handle-${size}" +:+ LF)
             eq_refl eq_refl (or_introl eq_refl)).
  - destruct (C8_genVolumeHandle
                (sampleWorld (Ok "Vol_${size}/$unit") ∅ claimFoo)
                (sampleImporter {[ "size" := "10"; "unit" := "Gi" ]}))
      as (_ & H & _).
    exact (H [PText "Vol_"; PBraced "size"; PText "/"; PBare "unit"]
             "Vol_${size}/$unit"
             eq_refl eq_refl (or_intror (conj eq_refl eq_refl))).
  - destruct (C8_genVolumeHandle
                (sampleWorld (Ok ("${pv.name}-${size}" +:+ LF)) ∅ claimFoo)
                (sampleImporter {[ "size" := "10Gi" ]})) as (_ & H & _).
    exact (H [PBraced "pv.name"; PText "-"; PBraced "size"]
             ("${pv.name}-${size}" +:+ LF)
             eq_refl eq_refl (or_introl eq_refl)).
  - destruct (C8_genVolumeHandle
                (sampleWorld (Err (ErrExternal "no such file or directory"))
                   ∅ claimFoo)
                (sampleImporter ∅)) as (Hread & _ & _ & _ & _ & _ & _ & _ & Hfatal).
    exact (proj2 (Hfatal "kubeconfig" "ns1" "claim.yaml" "kubeconfig" claimFoo
                    "fast" (ErrExternal "no such file or directory")
                    eq_refl eq_refl eq_refl eq_refl eq_refl
                    (Hread _ eq_refl))).
Defined.
